(** * PropagationServer: the client side of the DIG propagation protocol

    A shallow embedding of [src/DigNetwork/PropagationServer.ts].

    The class talks to the outside world (the peer over HTTPS, the local
    file system, the wallet, the operator's terminal) through awaited calls.
    The embedding keeps those calls symbolic:

    - a method of the class is a value of [Prog], a finite tree whose nodes
      are the calls the method makes, in program order, and whose branches
      are the continuations after the call settled (resolved or rejected);
    - the outside world is an oracle [World] that settles every request,
      knowing everything that happened before it;
    - [exec] runs a tree against the world and the one [PropagationServer]
      object of the run, and records every request, every assignment to a
      field of the object and every terminal output in a chronological
      [trace];
    - [asyncPool] interleaves the trees of several tasks under a schedule.

    [exec] and [asyncPool] take every awaited call to settle. A promise may
    also stay pending for ever, as the one [uploadFile] awaits after its
    PUT does when the stream has ended before the listeners are attached:
    the call then never returns and nothing after it runs. [exec_until] is
    the run of a method with such requests; its runs that settle are runs
    of [exec], and those that do not are runs of [exec] cut short at the
    pending request. Statements about the events of every run of [exec]
    that also hold of every beginning of such a run therefore hold of the
    code whether it settles or not; statements about what a run ends with
    are about the runs that settle. *)

From Stdlib Require Import ZArith Lia List String Ascii Bool.
From stdpp Require Import base tactics option list strings gmap.

Open Scope string_scope.
Open Scope list_scope.

(** ** JavaScript values *)

(** [new Error(message)], and whatever an awaited promise rejects with. *)
Inductive JsError : Type :=
| Error (message : string).

Definition message (e : JsError) : string :=
  match e with Error s => s end.

(** How a promise settles. A synchronous call that throws is a rejection
    too: at an [await], and at a plain call inside an [async] function, both
    unwind to the nearest [catch]. *)
Inductive Settled (A : Type) : Type :=
| Resolved (a : A)
| Rejected (e : JsError).
Arguments Resolved {A} a.
Arguments Rejected {A} e.

(** A JavaScript number as [parseInt] and [fs.statSync] can return it: not
    a number, an integer that is a double, minus zero, or an infinity. *)
Inductive Number : Type :=
| NaN
| Int (z : Z)
| NegZero
| Infinity (negative : bool).

(** [!x] for [x : number | null]: null, NaN and (plus or minus) zero. *)
Definition falsy_number (x : option Number) : bool :=
  match x with
  | None => true
  | Some NaN => true
  | Some (Int z) => (z =? 0)%Z
  | Some NegZero => true
  | Some (Infinity _) => false
  end.

(** Truthiness of [x : string | undefined]: defined and not empty. *)
Definition truthy (x : option string) : bool :=
  match x with
  | None => false
  | Some "" => false
  | Some _ => true
  end.

(** [x === "true"] for a header value. *)
Definition is_true_header (x : option string) : bool :=
  match x with
  | Some s => if decide (s = "true") then true else false
  | None => false
  end.

(** *** JavaScript strings

    A JavaScript string is a sequence of UTF-16 code units: [length],
    [slice], [padEnd] and the white space [parseInt] skips are all in terms
    of code units. The texts of the model are Rocq strings, which hold the
    UTF-8 bytes of the text; [utf16] gives the code units of a text. A byte
    that is not part of a well-formed UTF-8 sequence stands for the code
    unit of its own value. *)
Definition JsString : Type := list N.

(** The payload of a continuation byte, 10xxxxxx. *)
Definition continuation (c : ascii) : option N :=
  let b := N_of_ascii c in
  if ((128 <=? b) && (b <? 192))%N then Some (b - 128)%N else None.

(** A code point above the basic plane is a surrogate pair. *)
Definition units_of_point (cp : N) : JsString :=
  if (cp <? 65536)%N then [cp]
  else [(55296 + (cp - 65536) / 1024)%N; (56320 + (cp - 65536) mod 1024)%N].

Fixpoint utf16 (s : string) : JsString :=
  match s with
  | EmptyString => []
  | String c s1 =>
      let b := N_of_ascii c in
      let stray := b :: utf16 s1 in
      if (b <? 192)%N then stray
      else
        match s1 with
        | EmptyString => stray
        | String c1 s2 =>
            match continuation c1 with
            | None => stray
            | Some x1 =>
                if (b <? 224)%N then ((b - 192) * 64 + x1)%N :: utf16 s2
                else
                  match s2 with
                  | EmptyString => stray
                  | String c2 s3 =>
                      match continuation c2 with
                      | None => stray
                      | Some x2 =>
                          if (b <? 240)%N
                          then ((b - 224) * 4096 + x1 * 64 + x2)%N :: utf16 s3
                          else
                            match s3 with
                            | EmptyString => stray
                            | String c3 s4 =>
                                match continuation c3 with
                                | None => stray
                                | Some x3 =>
                                    if (b <? 248)%N
                                    then units_of_point
                                           ((b - 240) * 262144 + x1 * 4096
                                            + x2 * 64 + x3)%N
                                         ++ utf16 s4
                                    else stray
                                end
                            end
                      end
                  end
            end
        end
  end.

(** *** parseInt(s, 10) *)

(** WhiteSpace and LineTerminator of ECMAScript: TAB, LF, VT, FF, CR, SP,
    NBSP, U+1680, U+2000 to U+200A, LS, PS, U+202F, U+205F, U+3000 and the
    byte order mark. *)
Definition is_white_space (u : N) : bool :=
  ((9 <=? u) && (u <=? 13) || (u =? 32) || (u =? 160) || (u =? 5760)
   || (8192 <=? u) && (u <=? 8202) || (u =? 8232) || (u =? 8233)
   || (u =? 8239) || (u =? 8287) || (u =? 12288) || (u =? 65279))%N.

Definition digit_value (u : N) : option Z :=
  if ((48 <=? u) && (u <=? 57))%N then Some (Z.of_N (u - 48)) else None.

Fixpoint trim_start (s : JsString) : JsString :=
  match s with
  | u :: s' => if is_white_space u then trim_start s' else s
  | [] => s
  end.

(** The longest prefix of decimal digits, folded into its value; [None]
    when there is no digit at all. *)
Fixpoint parse_digits (acc : option Z) (s : JsString) : option Z :=
  match s with
  | u :: s' =>
      match digit_value u with
      | Some d => parse_digits (Some (10 * default 0%Z acc + d)%Z) s'
      | None => acc
      end
  | [] => acc
  end.

(** The double nearest to a natural number, ties to the even significand
    (53 bits); from 2^1024 on there is only infinity. *)
Definition to_double (n : Z) : Number :=
  if (n <? 2 ^ 53)%Z then Int n
  else
    let e := (Z.log2 n - 52)%Z in
    let q := Z.shiftr n e in
    let r := (n - Z.shiftl q e)%Z in
    let half := Z.shiftl 1 (e - 1) in
    let q' :=
      if (r <? half)%Z then q
      else if (half <? r)%Z then (q + 1)%Z
      else if Z.even q then q else (q + 1)%Z in
    let v := Z.shiftl q' e in
    if (2 ^ 1024 <=? v)%Z then Infinity false else Int v.

Definition negate (x : Number) : Number :=
  match x with
  | NaN => NaN
  | Int z => if (z =? 0)%Z then NegZero else Int (- z)
  | NegZero => Int 0
  | Infinity negative => Infinity (negb negative)
  end.

(** [undefined] is converted to the text "undefined", which has no digit. *)
Definition parseInt (x : option string) : Number :=
  let s := trim_start (utf16 (default "undefined" x)) in
  let '(negative, body) :=
    match s with
    | 45%N :: s' => (true, s')
    | 43%N :: s' => (false, s')
    | _ => (false, s)
    end in
  match parse_digits None body with
  | Some v => if negative then negate (to_double v) else to_double v
  | None => NaN
  end.

(** *** String helpers of [formatFilename] *)

(** [s.padEnd(maxLength, " ")] *)
Definition padEnd (s : JsString) (maxLength : nat) : JsString :=
  s ++ repeat 32%N (maxLength - length s).

(** [s.slice(start)], [start] possibly negative. *)
Definition slice (s : JsString) (start : Z) : JsString :=
  let len := Z.of_nat (length s) in
  let from := if (start <? 0)%Z then Z.max (len + start) 0 else Z.min start len in
  drop (Z.to_nat from) s.

(** Helper function to trim long filenames with ellipsis and ensure
    consistent padding. *)
Definition formatFilename (filename : option string) (maxLength : nat) : JsString :=
  if negb (truthy filename) then padEnd (utf16 "Unknown File") maxLength
  else
    let name := utf16 (default "" filename) in
    if (maxLength <? length name)%nat
    then padEnd (utf16 "..." ++ slice name (- (Z.of_nat maxLength - 3))) maxLength
    else padEnd name maxLength.

(** ** The object and the wire *)

Record PropagationServer : Type := {
  storeId : string;
  sessionId : string;
  publicKey : string;
  wallet : option string;
  ipAddress : string;
  certPath : string;
  keyPath : string;
  username : option string;
  password : option string;
}.

(** The fields the methods assign after construction. *)
Inductive Field : Type :=
| F_sessionId
| F_publicKey
| F_wallet
| F_username
| F_password.

Definition assign (f : Field) (v : string) (o : PropagationServer) : PropagationServer :=
  match f with
  | F_sessionId =>
      {| storeId := storeId o; sessionId := v; publicKey := publicKey o;
         wallet := wallet o; ipAddress := ipAddress o; certPath := certPath o;
         keyPath := keyPath o; username := username o; password := password o |}
  | F_publicKey =>
      {| storeId := storeId o; sessionId := sessionId o; publicKey := v;
         wallet := wallet o; ipAddress := ipAddress o; certPath := certPath o;
         keyPath := keyPath o; username := username o; password := password o |}
  | F_wallet =>
      {| storeId := storeId o; sessionId := sessionId o; publicKey := publicKey o;
         wallet := Some v; ipAddress := ipAddress o; certPath := certPath o;
         keyPath := keyPath o; username := username o; password := password o |}
  | F_username =>
      {| storeId := storeId o; sessionId := sessionId o; publicKey := publicKey o;
         wallet := wallet o; ipAddress := ipAddress o; certPath := certPath o;
         keyPath := keyPath o; username := Some v; password := password o |}
  | F_password =>
      {| storeId := storeId o; sessionId := sessionId o; publicKey := publicKey o;
         wallet := wallet o; ipAddress := ipAddress o; certPath := certPath o;
         keyPath := keyPath o; username := username o; password := Some v |}
  end.

(** Static port used for all requests. *)
Definition port : string := "4159".

(** The URL templates of the class, one constructor per template, so that a
    request in a trace can be told apart by its endpoint; [url_string] is
    the template literal of the source. *)
Inductive Url : Type :=
| StoreUrl (ip store : string) (hasRootHash : option string)
| UploadUrl (ip store rootHash : string)
| UploadFileUrl (ip store session filename : string)
| CommitUrl (ip store session : string)
| FetchUrl (ip store dataPath : string)
| FileDetailsUrl (ip store rootHash dataPath : string).

Definition url_string (u : Url) : string :=
  match u with
  | StoreUrl ip store q =>
      "https://" +:+ ip +:+ ":" +:+ port +:+ "/" +:+ store
        +:+ (if truthy q then "?hasRootHash=" +:+ default "" q else "")
  | UploadUrl ip store rootHash =>
      "https://" +:+ ip +:+ ":" +:+ port +:+ "/upload/" +:+ store
        +:+ "?roothash=" +:+ rootHash
  | UploadFileUrl ip store session filename =>
      "https://" +:+ ip +:+ ":" +:+ port +:+ "/upload/" +:+ store
        +:+ "/" +:+ session +:+ "/" +:+ filename
  | CommitUrl ip store session =>
      "https://" +:+ ip +:+ ":" +:+ port +:+ "/commit/" +:+ store
        +:+ "/" +:+ session
  | FetchUrl ip store dataPath =>
      "https://" +:+ ip +:+ ":" +:+ port +:+ "/fetch/" +:+ store
        +:+ "/" +:+ dataPath
  | FileDetailsUrl ip store rootHash dataPath =>
      "https://" +:+ ip +:+ ":" +:+ port +:+ "/store/" +:+ store
        +:+ "/" +:+ rootHash +:+ "/" +:+ dataPath
  end.

(** [new https.Agent({cert, key, rejectUnauthorized})] *)
Record Agent : Type := {
  cert : string;
  key : string;
  rejectUnauthorized : bool;
}.

(** [{ username, password }]: what the prompt returns and what axios takes
    as [config.auth]. *)
Record Credentials : Type := {
  cred_username : string;
  cred_password : string;
}.

(** The three headers of a file upload. *)
Record UploadHeaders : Type := {
  x_nonce : option string;
  x_public_key : string;
  x_key_ownership_sig : string;
}.

(** An entry of [getFileSetForRootHash]. *)
Record FileEntry : Type := {
  name : string;
  path : string;
}.

(** A transfer task of either store operation. *)
Record Task : Type := {
  label : string;
  dataPath : string;
}.

(** ** Requests to the outside world

    One constructor per call the class makes outside itself. [Reply] is the
    type of what the call resolves to. *)
Inductive Request : Type :=
| getOrCreateSSLCerts
| Wallet_load (walletName : string)
| getPublicSyntheticKey (w : string)
| createKeyOwnershipSignature (w : string) (nonce : option string)
| promptCredentials (remote : string)
| fs_readFileSync (file : string)
| fs_existsSync (file : string)
| fs_statSync_size (file : string)
| fs_mkdirSync_recursive (dir : string)
| fs_writeFileSync (file : string) (content : string)
| axios_head (url : Url) (httpsAgent : Agent)
| axios_post_upload (url : Url) (datFile filename : string) (httpsAgent : Agent)
    (auth : option Credentials)
| axios_put (url : Url) (file : string) (headers : UploadHeaders) (httpsAgent : Agent)
| axios_post_commit (url : Url) (httpsAgent : Agent) (auth : option Credentials)
| axios_get_stream (url : Url) (httpsAgent : Agent)
| upload_stream_end (file : string)
| stream_collect (stream : string)
| stream_to_file (stream : string) (file : string)
| getFileSetForRootHash (store rootHash : string)
| generateManifestFile (store : string).

Definition Reply (r : Request) : Type :=
  match r with
  | getOrCreateSSLCerts => (string * string)%type
  | Wallet_load _ => string
  | getPublicSyntheticKey _ => string
  | createKeyOwnershipSignature _ _ => string
  | promptCredentials _ => Credentials
  | fs_readFileSync _ => string
  | fs_existsSync _ => bool
  | fs_statSync_size _ => N
  | fs_mkdirSync_recursive _ => unit
  | fs_writeFileSync _ _ => unit
  | axios_head _ _ => gmap string string
  | axios_post_upload _ _ _ _ _ => string
  | axios_put _ _ _ _ => unit
  | axios_post_commit _ _ _ => string
  | axios_get_stream _ _ => (gmap string string * string)%type
  | upload_stream_end _ => unit
  | stream_collect _ => string
  | stream_to_file _ _ => unit
  | getFileSetForRootHash _ _ => list FileEntry
  | generateManifestFile _ => unit
  end.

(** Terminal output: spinners, console and progress bars. Observational
    only; the colour functions are the identity on the text. *)
Inductive Ui : Type :=
| spinner_start (text : string)
| spinner_success (text : string)
| spinner_error (text : string)
| console_log (text : string)
| console_error (text : string)
| progressBar_start (total : Number) (filename : JsString)
| progressBar_stop.

(** What a run leaves behind, in the order it happened. *)
Inductive Event : Type :=
| EvRequest (r : Request)
| EvNew (o : PropagationServer)
| EvAssign (f : Field) (v : string)
| EvUi (u : Ui)
| EvPool (limit : nat) (tasks : nat)
| EvTaskStart (i : nat)
| EvTaskEnd (i : nat) (ok : bool).

(** The outside world: it settles a request knowing the history so far. *)
Definition World : Type := forall (history : list Event) (r : Request), Settled (Reply r).

(** ** Programs *)

Inductive Prog (A : Type) : Type :=
| Ret (a : A)
| Throw (e : JsError)
| Call (r : Request) (k : Settled (Reply r) -> Prog A)
| This (k : PropagationServer -> Prog A)
| Assign (f : Field) (v : string) (k : Prog A)
| New (o : PropagationServer) (k : Prog A)
| Out (u : Ui) (k : Prog A).
Arguments Ret {A} a.
Arguments Throw {A} e.
Arguments Call {A} r k.
Arguments This {A} k.
Arguments Assign {A} f v k.
Arguments New {A} o k.
Arguments Out {A} u k.

Fixpoint bind {A B : Type} (p : Prog A) (f : A -> Prog B) : Prog B :=
  match p with
  | Ret a => f a
  | Throw e => Throw e
  | Call r k => Call r (fun s => bind (k s) f)
  | This k => This (fun o => bind (k o) f)
  | Assign fd v k => Assign fd v (bind k f)
  | New o k => New o (bind k f)
  | Out u k => Out u (bind k f)
  end.

(** [try { p } catch (error) { h error }] *)
Fixpoint try_catch {A : Type} (p : Prog A) (h : JsError -> Prog A) : Prog A :=
  match p with
  | Ret a => Ret a
  | Throw e => h e
  | Call r k => Call r (fun s => try_catch (k s) h)
  | This k => This (fun o => try_catch (k o) h)
  | Assign fd v k => Assign fd v (try_catch k h)
  | New o k => New o (try_catch k h)
  | Out u k => Out u (try_catch k h)
  end.

Declare Scope prog_scope.
Delimit Scope prog_scope with prog.
Bind Scope prog_scope with Prog.

Notation "x <- p ;; q" := (bind p (fun x => q))
  (at level 100, p at next level, right associativity) : prog_scope.
Notation "p ;; q" := (bind p (fun _ => q))
  (at level 100, right associativity) : prog_scope.

(** [await call]: a rejection is thrown at the await. *)
Definition await (r : Request) : Prog (Reply r) :=
  Call r (fun s => match s with Resolved a => Ret a | Rejected e => Throw e end).

Definition this : Prog PropagationServer := This Ret.
Definition set (f : Field) (v : string) : Prog unit := Assign f v (Ret tt).
Definition out (u : Ui) : Prog unit := Out u (Ret tt).

(** [try { p } finally { f }] *)
Definition try_finally {A : Type} (p : Prog A) (f : Prog unit) : Prog A :=
  (a <- try_catch p (fun e => f ;; Throw e) ;; f ;; Ret a)%prog.

(** ** The environment of the module

    What the module imports and the sources do not contain: the
    configuration constant, Node's [path] functions, the content-store path
    helper, and the decoding steps of [downloadStore]. They are pure; the
    development is parametric in them. *)
Record Imports : Type := {
  STORE_PATH : string;
  path_join : list string -> string;
  path_dirname : string -> string;
  path_basename : string -> string;
  getFilePathFromSha256 : string -> string -> string;
  (** [Buffer.from(fileKey, "hex").toString("utf-8")] *)
  hex_to_utf8 : string -> string;
  (** [Object.entries(JSON.parse(content.toString()).files)], each entry
      with its [sha256]; a rejection is the exception either step throws. *)
  manifest_entries : string -> Settled (list (string * string));
}.

Section Methods.

Context (imports : Imports).

Local Open Scope prog_scope.

(** [new PropagationServer(ipAddress, storeId)] *)
Definition constructor (ipAddress0 storeId0 : string) : Prog unit :=
  certs <- await getOrCreateSSLCerts ;;
  New {| storeId := storeId0; sessionId := ""; publicKey := ""; wallet := None;
         ipAddress := ipAddress0; certPath := fst certs; keyPath := snd certs;
         username := None; password := None |} (Ret tt).

(** Initialize the Wallet instance. The reply of [getPublicSyntheticKey]
    is the key already in hexadecimal. *)
Definition initializeWallet : Prog unit :=
  w <- await (Wallet_load "default") ;;
  set F_wallet w ;;
  pk <- await (getPublicSyntheticKey w) ;;
  set F_publicKey pk.

(** Create an Axios HTTPS Agent with self-signed certificate allowance. *)
Definition createHttpsAgent : Prog Agent :=
  o <- this ;;
  c <- await (fs_readFileSync (certPath o)) ;;
  k <- await (fs_readFileSync (keyPath o)) ;;
  Ret {| cert := c; key := k; rejectUnauthorized := false |}.

(** Check if the store and optional root hash exist by making a HEAD
    request. *)
Definition checkStoreExists (rootHash : option string) : Prog (bool * bool) :=
  o <- this ;;
  out (spinner_start ("Checking if store " +:+ storeId o +:+ " exists...")) ;;
  try_catch
    (agent <- createHttpsAgent ;;
     o <- this ;;
     let url := StoreUrl (ipAddress o) (storeId o) rootHash in
     response <- await (axios_head url agent) ;;
     let storeExists := is_true_header (response !! "x-store-exists") in
     let rootHashExists := is_true_header (response !! "x-has-root-hash") in
     (if storeExists
      then out (spinner_success ("Store " +:+ storeId o +:+ " exists on peer!"))
      else out (spinner_error ("Store " +:+ storeId o
                  +:+ " does not exist. Credentials will be required to push."))) ;;
     Ret (storeExists, rootHashExists))
    (fun error =>
       out (spinner_error "Error checking if store exists:") ;;
       out (console_error (message error)) ;;
       Throw error).

(** [this.username && this.password ? { username, password } : undefined] *)
Definition basic_auth (o : PropagationServer) : option Credentials :=
  if truthy (username o) && truthy (password o)
  then Some {| cred_username := default "" (username o);
               cred_password := default "" (password o) |}
  else None.

(** Start an upload session by sending a POST request with the
    rootHash.dat file. The reply is [response.data.sessionId]. *)
Definition startUploadSession (rootHash : string) : Prog unit :=
  o <- this ;;
  out (spinner_start ("Starting upload session for store " +:+ storeId o +:+ "...")) ;;
  try_catch
    (o <- this ;;
     let datFilePath :=
       path_join imports [STORE_PATH imports; storeId o; rootHash +:+ ".dat"] in
     present <- await (fs_existsSync datFilePath) ;;
     if negb present then Throw (Error ("File not found: " +:+ datFilePath))
     else
       agent <- createHttpsAgent ;;
       o <- this ;;
       let url := UploadUrl (ipAddress o) (storeId o) rootHash in
       sid <- await (axios_post_upload url datFilePath (rootHash +:+ ".dat")
                       agent (basic_auth o)) ;;
       set F_sessionId sid ;;
       o <- this ;;
       out (spinner_success ("Upload session started for DataStore " +:+ storeId o
              +:+ " with session ID " +:+ sessionId o)))
    (fun error =>
       out (spinner_error "Error starting upload session:") ;;
       out (console_error (message error)) ;;
       Throw error).

(** Request a nonce for a file by sending a HEAD request to the server. *)
Definition getFileNonce (filename : string) : Prog (option string * bool) :=
  try_catch
    (agent <- createHttpsAgent ;;
     o <- this ;;
     let url := UploadFileUrl (ipAddress o) (storeId o) (sessionId o) filename in
     response <- await (axios_head url agent) ;;
     let fileExists := is_true_header (response !! "x-file-exists") in
     let nonce := response !! "x-nonce" in
     Ret (nonce, fileExists))
    (fun error =>
       out (console_error ("Error generating nonce for file " +:+ filename
              +:+ ": " +:+ message error)) ;;
       Throw error).

(** Upload a file to the server by sending a PUT request. The progress bar
    exists from [progressBar_start] on, which is where the [finally] block
    starts to have something to stop. [upload_stream_end] is the promise
    the method makes and awaits after the PUT has resolved: it settles when
    the progress stream ends or fails after that point, and stays pending
    when the stream has ended before. *)
Definition uploadFile (label0 dataPath0 : string) : Prog unit :=
  o <- this ;;
  let filePath := path_join imports [STORE_PATH imports; storeId o; dataPath0] in
  probe <- getFileNonce dataPath0 ;;
  let nonce := fst probe in
  let fileExists := snd probe in
  if fileExists
  then out (console_log ("File " +:+ label0 +:+ " already exists. Skipping upload."))
  else
    w <- await (Wallet_load "default") ;;
    keyOwnershipSig <- await (createKeyOwnershipSignature w nonce) ;;
    pk <- await (getPublicSyntheticKey w) ;;
    fileSize <- await (fs_statSync_size filePath) ;;
    out (progressBar_start (Int (Z.of_N fileSize))
           (formatFilename (Some (path_basename imports label0)) 30)) ;;
    try_finally
      (agent <- createHttpsAgent ;;
       o <- this ;;
       let url := UploadFileUrl (ipAddress o) (storeId o) (sessionId o) dataPath0 in
       await (axios_put url filePath
                {| x_nonce := nonce; x_public_key := pk;
                   x_key_ownership_sig := keyOwnershipSig |} agent) ;;
       await (upload_stream_end filePath))
      (out progressBar_stop).

(** Commit the upload session by sending a POST request to the server. *)
Definition commitUploadSession : Prog string :=
  o <- this ;;
  out (spinner_start ("Committing upload session for store " +:+ storeId o +:+ "...")) ;;
  try_catch
    (agent <- createHttpsAgent ;;
     o <- this ;;
     let url := CommitUrl (ipAddress o) (storeId o) (sessionId o) in
     data <- await (axios_post_commit url agent (basic_auth o)) ;;
     o <- this ;;
     out (spinner_success ("Upload session " +:+ sessionId o
            +:+ " successfully committed.")) ;;
     Ret data)
    (fun error =>
       out (spinner_error "Error committing upload session:") ;;
       out (console_error (message error)) ;;
       Throw error).

(** [totalLengthHeader ? parseInt(totalLengthHeader, 10) : null] *)
Definition totalLength_of (totalLengthHeader : option string) : option Number :=
  if truthy totalLengthHeader then Some (parseInt totalLengthHeader) else None.

(** Fetch a file from the server by sending a GET request and return its
    content in memory. *)
Definition fetchFile (dataPath0 : string) : Prog string :=
  o <- this ;;
  let url := FetchUrl (ipAddress o) (storeId o) dataPath0 in
  agent <- createHttpsAgent ;;
  response <- await (axios_get_stream url agent) ;;
  let totalLengthHeader := fst response !! "content-length" in
  let totalLength := totalLength_of totalLengthHeader in
  if falsy_number totalLength
  then Throw (Error "Content-Length header is missing")
  else
    out (progressBar_start (default NaN totalLength)
           (formatFilename (Some dataPath0) 30)) ;;
    try_finally (await (stream_collect (snd response))) (out progressBar_stop).

(** Get details of a file, including whether it exists and its size. *)
Definition getFileDetails (dataPath0 rootHash : string) : Prog (bool * Number) :=
  try_catch
    (agent <- createHttpsAgent ;;
     o <- this ;;
     let url := FileDetailsUrl (ipAddress o) (storeId o) rootHash dataPath0 in
     response <- await (axios_head url agent) ;;
     let fileExists := is_true_header (response !! "x-file-exists") in
     let fileSize := parseInt (response !! "x-file-size") in
     Ret (fileExists, if fileExists then fileSize else Int 0))
    (fun error =>
       out (console_error ("✖ Error checking file details for " +:+ dataPath0
              +:+ ": " +:+ message error)) ;;
       Throw error).

(** Download a file from the server by sending a GET request. *)
Definition downloadFile (label0 dataPath0 : string) : Prog unit :=
  o <- this ;;
  let url := FetchUrl (ipAddress o) (storeId o) dataPath0 in
  let downloadPath := path_join imports [STORE_PATH imports; storeId o; dataPath0] in
  await (fs_mkdirSync_recursive (path_dirname imports downloadPath)) ;;
  agent <- createHttpsAgent ;;
  response <- await (axios_get_stream url agent) ;;
  let totalLengthHeader := fst response !! "content-length" in
  let totalLength := totalLength_of totalLengthHeader in
  if falsy_number totalLength
  then Throw (Error "Content-Length header is missing")
  else
    out (progressBar_start (default NaN totalLength)
           (formatFilename (Some label0) 30)) ;;
    try_finally (await (stream_to_file (snd response) downloadPath))
      (out progressBar_stop).

End Methods.

(** ** Running a program *)

(** The state of a run: the one [PropagationServer] object the static
    methods create (its content before the constructor ran is never read),
    and everything that happened so far. *)
Record Machine : Type := {
  self : PropagationServer;
  trace : list Event;
}.

Definition record (e : Event) (m : Machine) : Machine :=
  {| self := self m; trace := trace m ++ [e] |}.

Definition store (f : Field) (v : string) (m : Machine) : Machine :=
  {| self := assign f v (self m); trace := trace m ++ [EvAssign f v] |}.

Definition create (o : PropagationServer) (m : Machine) : Machine :=
  {| self := o; trace := trace m ++ [EvNew o] |}.

Section Semantics.

Context (W : World).

(** A program run to its end, without giving way to another task. *)
Fixpoint exec {A : Type} (p : Prog A) (m : Machine) : Settled A * Machine :=
  match p with
  | Ret a => (Resolved a, m)
  | Throw e => (Rejected e, m)
  | Call r k => exec (k (W (trace m) r)) (record (EvRequest r) m)
  | This k => exec (k (self m)) m
  | Assign f v k => exec k (store f v m)
  | New o k => exec k (create o m)
  | Out u k => exec k (record (EvUi u) m)
  end.

(** One node of a program: what a task does before the scheduler may turn
    to another task. A task of the source gives way only at an [await];
    giving way at every node allows every interleaving the source has. *)
Definition step {A : Type} (p : Prog A) (m : Machine) : Prog A * Machine :=
  match p with
  | Ret a => (Ret a, m)
  | Throw e => (Throw e, m)
  | Call r k => (k (W (trace m) r), record (EvRequest r) m)
  | This k => (k (self m), m)
  | Assign f v k => (k, store f v m)
  | New o k => (k, create o m)
  | Out u k => (k, record (EvUi u) m)
  end.

(** *** The transfer scheduler *)

(** What the scheduler does next: start the task at the head of the queue,
    or let the running task in a slot make one step. *)
Inductive Choice : Type :=
| Launch
| Advance (slot : nat).

Record Pool : Type := {
  queue : list (nat * Prog unit);
  running : list (nat * Prog unit);
  failure : option JsError;
}.

Definition first_failure (old : option JsError) (e : JsError) : option JsError :=
  match old with
  | Some e0 => Some e0
  | None => Some e
  end.

Definition pool_step (limit : nat) (c : Choice) (pl : Pool) (m : Machine)
  : Pool * Machine :=
  match c with
  | Launch =>
      match queue pl with
      | t :: q =>
          if (length (running pl) <? limit)%nat
          then ({| queue := q; running := running pl ++ [t]; failure := failure pl |},
                record (EvTaskStart (fst t)) m)
          else (pl, m)
      | [] => (pl, m)
      end
  | Advance slot =>
      match running pl !! slot with
      | Some (i, Ret _) =>
          ({| queue := queue pl; running := delete slot (running pl);
              failure := failure pl |},
           record (EvTaskEnd i true) m)
      | Some (i, Throw e) =>
          ({| queue := queue pl; running := delete slot (running pl);
              failure := first_failure (failure pl) e |},
           record (EvTaskEnd i false) m)
      | Some (i, p) =>
          let '(p', m') := step p m in
          ({| queue := queue pl; running := <[slot := (i, p')]> (running pl);
              failure := failure pl |}, m')
      | None => (pl, m)
      end
  end.

Fixpoint pool_run (limit : nat) (schedule : list Choice) (pl : Pool) (m : Machine)
  : Pool * Machine :=
  match schedule with
  | [] => (pl, m)
  | c :: schedule' =>
      let '(pl', m') := pool_step limit c pl m in
      pool_run limit schedule' pl' m'
  end.

Definition pool_done (pl : Pool) : bool :=
  match queue pl, running pl with
  | [], [] => true
  | _, _ => false
  end.

(** A run of a static method: [None] when the schedule ends before the
    scheduler has finished. *)
Definition Run (A : Type) : Type := Machine -> option (Settled A * Machine).

Definition lift {A : Type} (p : Prog A) : Run A :=
  fun m => Some (exec p m).

Definition run_bind {A B : Type} (r : Run A) (f : A -> Run B) : Run B :=
  fun m =>
    match r m with
    | Some (Resolved a, m') => f a m'
    | Some (Rejected e, m') => Some (Rejected e, m')
    | None => None
    end.

Definition run_ret {A : Type} (a : A) : Run A :=
  fun m => Some (Resolved a, m).

Definition run_throw {A : Type} (e : JsError) : Run A :=
  fun m => Some (Rejected e, m).

(** Modelled from the spec: [../utils/asyncPool] is not among the sources.
    The spec's TransferScheduler executes at most [concurrencyLimit] tasks
    concurrently, keeps the remaining tasks queued in input order, leaves
    the completion order open, cancels nothing, and returns only after
    every task has reached a terminal outcome. The callers await it and
    look at no result, so a failed task reaches them as a rejection; the
    error is that of the first task that failed. *)
Definition asyncPool {T : Type} (concurrencyLimit : nat) (items : list T)
    (worker : T -> Prog unit) (schedule : list Choice) : Run unit :=
  fun m =>
    let pl0 := {| queue := imap (fun i t => (i, worker t)) items;
                  running := []; failure := None |} in
    let '(pl, m') :=
      pool_run concurrencyLimit schedule pl0
        (record (EvPool concurrencyLimit (length items)) m) in
    if pool_done pl
    then Some (match failure pl with
               | None => Resolved tt
               | Some e => Rejected e
               end, m')
    else None.

End Semantics.

Declare Scope run_scope.
Delimit Scope run_scope with run.

Notation "x <- p ;; q" := (run_bind p (fun x => q))
  (at level 100, p at next level, right associativity) : run_scope.
Notation "p ;; q" := (run_bind p (fun _ => q))
  (at level 100, right associativity) : run_scope.

(** ** The two store operations *)

Section Store.

Context (imports : Imports) (W : World).

Local Open Scope run_scope.

(** Static function to handle the entire upload process for multiple files
    based on rootHash. *)
Definition uploadStore (storeId0 rootHash ipAddress0 : string)
    (schedule : list Choice) : Run unit :=
  lift W (constructor ipAddress0 storeId0) ;;
  lift W initializeWallet ;;
  probe <- lift W (checkStoreExists (Some rootHash)) ;;
  let storeExists := fst probe in
  let rootHashExists := snd probe in
  (if negb storeExists
   then
     lift W (out (console_log ("Store " +:+ storeId0
                     +:+ " does not exist. Prompting for credentials..."))) ;;
     o <- lift W this ;;
     credentials <- lift W (await (promptCredentials (ipAddress o))) ;;
     lift W (set F_username (cred_username credentials)) ;;
     lift W (set F_password (cred_password credentials))
   else run_ret tt) ;;
  if rootHashExists
  then
    lift W (out (console_log ("Root hash " +:+ rootHash
                   +:+ " already exists in the store. Skipping upload.")))
  else
    lift W (startUploadSession imports rootHash) ;;
    files <- lift W (await (getFileSetForRootHash storeId0 rootHash)) ;;
    let uploadTasks :=
      map (fun file => {| label := name file; dataPath := path file |}) files in
    let concurrencyLimit := 3%nat in
    asyncPool W concurrencyLimit uploadTasks
      (fun task => uploadFile imports (label task) (dataPath task)) schedule ;;
    lift W commitUploadSession ;;
    lift W (out (console_log ("✔ All files have been uploaded to DataStore "
                   +:+ storeId0 +:+ "."))).

(** Static function to handle downloading multiple files from a DataStore
    based on file paths. *)
Definition downloadStore (storeId0 rootHash ipAddress0 : string)
    (schedule : list Choice) : Run unit :=
  lift W (constructor ipAddress0 storeId0) ;;
  lift W initializeWallet ;;
  probe <- lift W (checkStoreExists (Some rootHash)) ;;
  let storeExists := fst probe in
  let rootHashExists := snd probe in
  if negb storeExists || negb rootHashExists
  then run_throw (Error ("Store " +:+ storeId0 +:+ " does not exist."))
  else
    datFileContent <- lift W (fetchFile (rootHash +:+ ".dat")) ;;
    match manifest_entries imports datFileContent with
    | Rejected e => run_throw e
    | Resolved entries =>
        let downloadTasks :=
          map (fun entry =>
                 {| label := hex_to_utf8 imports (fst entry);
                    dataPath := getFilePathFromSha256 imports (snd entry) "data" |})
            entries in
        let concurrencyLimit := 5%nat in
        asyncPool W concurrencyLimit downloadTasks
          (fun task => downloadFile imports (label task) (dataPath task)) schedule ;;
        lift W (await (fs_writeFileSync
                  (path_join imports [STORE_PATH imports; storeId0; rootHash +:+ ".dat"])
                  datFileContent)) ;;
        lift W (await (generateManifestFile storeId0)) ;;
        lift W (out (console_log ("✔ All files have been downloaded to "
                       +:+ storeId0 +:+ ".")))
    end.

End Store.

(** ** Scripted worlds

    Concrete peers and operators, for running the model. *)

Record Scenario : Type := {
  store_exists_header : option string;
  has_root_hash_header : option string;
  prompt_reply : Settled Credentials;
  file_exists_header : string -> option string;
  put_reply : string -> Settled unit;
  content_length_header : option string;
  local_files : list FileEntry;
}.

Definition headers_of (l : list (string * option string)) : gmap string string :=
  foldr (fun kv h => match snd kv with
                     | Some v => <[fst kv := v]> h
                     | None => h
                     end) ∅ l.

(** The manifest of the examples:
    {"files":{"6631":{"sha256":"aa"},"6632":{"sha256":"bb"}}} *)
Definition dq : string := String (ascii_of_nat 34) EmptyString.

Definition demo_manifest : string :=
  String.concat dq
    ["{"; "files"; ":{"; "6631"; ":{"; "sha256"; ":"; "aa"; "},";
     "6632"; ":{"; "sha256"; ":"; "bb"; "}}}"].

Definition scripted (sc : Scenario) : World :=
  fun _ r =>
    match r as r0 return Settled (Reply r0) with
    | getOrCreateSSLCerts => Resolved ("client.cert", "client.key")
    | Wallet_load _ => Resolved "wallet"
    | getPublicSyntheticKey _ => Resolved "a1b2"
    | createKeyOwnershipSignature _ n => Resolved ("sig:" +:+ default "" n)
    | promptCredentials _ => prompt_reply sc
    | fs_readFileSync f => Resolved ("pem:" +:+ f)
    | fs_existsSync _ => Resolved true
    | fs_statSync_size _ => Resolved 10%N
    | fs_mkdirSync_recursive _ => Resolved tt
    | fs_writeFileSync _ _ => Resolved tt
    | axios_head (UploadFileUrl _ _ _ f) _ =>
        Resolved (headers_of [("x-file-exists", file_exists_header sc f);
                              ("x-nonce", Some ("nonce-" +:+ f))])
    | axios_head _ _ =>
        Resolved (headers_of [("x-store-exists", store_exists_header sc);
                              ("x-has-root-hash", has_root_hash_header sc)])
    | axios_post_upload _ _ _ _ _ => Resolved "session-1"
    | axios_put (UploadFileUrl _ _ _ f) _ _ _ => put_reply sc f
    | axios_put _ _ _ _ => Resolved tt
    | axios_post_commit _ _ _ => Resolved "committed"
    | axios_get_stream _ _ =>
        Resolved (headers_of [("content-length", content_length_header sc)], "body")
    | upload_stream_end _ => Resolved tt
    | stream_collect _ => Resolved demo_manifest
    | stream_to_file _ _ => Resolved tt
    | getFileSetForRootHash _ _ => Resolved (local_files sc)
    | generateManifestFile _ => Resolved tt
    end.

(** Node's [path.dirname] and [path.basename] on plain paths (no trailing
    slash, no dot segments): the text before and after the last slash. *)
Fixpoint last_segment (cur l : list ascii) : list ascii :=
  match l with
  | [] => cur
  | c :: l' =>
      if bool_decide (c = "/"%char) then last_segment [] l'
      else last_segment (cur ++ [c]) l'
  end.

Definition after_last_slash (p : string) : list ascii :=
  last_segment [] (list_ascii_of_string p).

Definition dirname (p : string) : string :=
  let rest := length (list_ascii_of_string p) - length (after_last_slash p) in
  match rest with
  | O => "."
  | 1 => "/"
  | S k => string_of_list_ascii (take k (list_ascii_of_string p))
  end.

Definition basename (p : string) : string :=
  string_of_list_ascii (after_last_slash p).

(** [Buffer.from(key, "hex").toString("utf-8")]: pairs of hexadecimal
    digits, up to the first that is none. *)
Definition hex_digit (c : ascii) : option N :=
  let n := N_of_ascii c in
  if ((48 <=? n) && (n <=? 57))%N then Some (n - 48)%N
  else if ((97 <=? n) && (n <=? 102))%N then Some (n - 87)%N
  else if ((65 <=? n) && (n <=? 70))%N then Some (n - 55)%N
  else None.

Fixpoint hex_decode (s : string) : string :=
  match s with
  | String a (String b s') =>
      match hex_digit a, hex_digit b with
      | Some x, Some y => String (ascii_of_N (16 * x + y)) (hex_decode s')
      | _, _ => ""
      end
  | _ => ""
  end.

(** The imports of the examples. [getFilePathFromSha256] stands in for the
    helper of [../utils/hashUtils]; [manifest_entries] reads the manifest of
    the examples and fails on any other content as [Object.entries] fails
    on a missing [files]. *)
Definition demo_imports : Imports := {|
  STORE_PATH := "/dig";
  path_join := String.concat "/";
  path_dirname := dirname;
  path_basename := basename;
  getFilePathFromSha256 := fun sha dir => dir +:+ "/" +:+ sha;
  hex_to_utf8 := hex_decode;
  manifest_entries := fun content =>
    if decide (content = demo_manifest)
    then Resolved [("6631", "aa"); ("6632", "bb")]
    else Rejected (Error "Cannot convert undefined or null to object");
|}.

Definition blank : PropagationServer := {|
  storeId := ""; sessionId := ""; publicKey := ""; wallet := None;
  ipAddress := ""; certPath := ""; keyPath := ""; username := None;
  password := None;
|}.

Definition boot : Machine := {| self := blank; trace := [] |}.

(** A store the peer does not have yet, two files to push, an operator who
    answers the prompt. *)
Definition fresh_store : Scenario := {|
  store_exists_header := Some "false";
  has_root_hash_header := Some "false";
  prompt_reply := Resolved {| cred_username := "alice"; cred_password := "secret" |};
  file_exists_header := fun _ => Some "false";
  put_reply := fun _ => Resolved tt;
  content_length_header := Some "20";
  local_files := [ {| name := "file1"; path := "data/aa" |};
                   {| name := "file2"; path := "data/bb" |} ];
|}.

(** Both tasks started, then run to their end one after the other. *)
Definition two_at_once : list Choice :=
  [Launch; Launch] ++ repeat (Advance 0) 40.

(** ** Reasoning about programs *)

(** [respects Inv P p]: whatever the world replies, a run of [p] from an
    object that satisfies [Inv] leaves only events that satisfy [P], and
    keeps [Inv]. *)
Fixpoint respects {A : Type} (Inv : PropagationServer -> Prop) (P : Event -> Prop)
    (p : Prog A) : Prop :=
  match p with
  | Ret _ => True
  | Throw _ => True
  | Call r k => P (EvRequest r) /\ forall s, respects Inv P (k s)
  | This k => forall o, Inv o -> respects Inv P (k o)
  | Assign f v k =>
      P (EvAssign f v) /\ (forall o, Inv o -> Inv (assign f v o)) /\ respects Inv P k
  | New o k => P (EvNew o) /\ Inv o /\ respects Inv P k
  | Out u k => P (EvUi u) /\ respects Inv P k
  end.

Lemma respects_bind {A B : Type} Inv P (p : Prog A) (f : A -> Prog B) :
  respects Inv P p -> (forall a, respects Inv P (f a)) -> respects Inv P (bind p f).
Proof.
  intros Hp Hf. induction p; simpl in *; auto.
  - destruct Hp as [Hr Hk]. split; auto.
  - destruct Hp as (He & Hi & Hk). auto.
  - destruct Hp as (He & Hi & Hk). auto.
  - destruct Hp as [He Hk]. auto.
Qed.

Lemma respects_try_catch {A : Type} Inv P (p : Prog A) (h : JsError -> Prog A) :
  respects Inv P p -> (forall e, respects Inv P (h e)) -> respects Inv P (try_catch p h).
Proof.
  intros Hp Hh. induction p; simpl in *; auto.
  - destruct Hp as [Hr Hk]. split; auto.
  - destruct Hp as (He & Hi & Hk). auto.
  - destruct Hp as (He & Hi & Hk). auto.
  - destruct Hp as [He Hk]. auto.
Qed.

Lemma respects_try_finally {A : Type} Inv P (p : Prog A) (f : Prog unit) :
  respects Inv P p -> respects Inv P f -> respects Inv P (try_finally p f).
Proof.
  intros Hp Hf. unfold try_finally.
  apply respects_bind.
  - apply respects_try_catch; [exact Hp |].
    intros e. apply respects_bind; [exact Hf | intros; exact I].
  - intros a. apply respects_bind; [exact Hf | intros; exact I].
Qed.

Lemma respects_await Inv (P : Event -> Prop) (r : Request) :
  P (EvRequest r) -> respects Inv P (await r).
Proof. intros H. simpl. split; [exact H |]. intros [a | e]; exact I. Qed.

Lemma respects_out Inv (P : Event -> Prop) (u : Ui) :
  P (EvUi u) -> respects Inv P (out u).
Proof. intros H. simpl. auto. Qed.

Lemma respects_set (Inv : PropagationServer -> Prop) (P : Event -> Prop)
    (f : Field) (v : string) :
  P (EvAssign f v) -> (forall o, Inv o -> Inv (assign f v o)) ->
  respects Inv P (set f v).
Proof. intros H1 H2. simpl. auto. Qed.

Lemma respects_weaken {A : Type} Inv (P Q : Event -> Prop) (p : Prog A) :
  (forall e, P e -> Q e) -> respects Inv P p -> respects Inv Q p.
Proof.
  intros HPQ. induction p; simpl; intros Hp; auto.
  - destruct Hp as [Hr Hk]. split; auto.
  - destruct Hp as (He & Hi & Hk). auto.
  - destruct Hp as (He & Hi & Hk). auto.
  - destruct Hp as [He Hk]. auto.
Qed.

Section Runs.

Context (W : World).

Lemma exec_bind {A B : Type} (p : Prog A) (f : A -> Prog B) (m : Machine) :
  exec W (bind p f) m =
  match exec W p m with
  | (Resolved a, m') => exec W (f a) m'
  | (Rejected e, m') => (Rejected e, m')
  end.
Proof. revert m. induction p; intros m; simpl; auto. Qed.

Lemma exec_try_catch {A : Type} (p : Prog A) (h : JsError -> Prog A) (m : Machine) :
  exec W (try_catch p h) m =
  match exec W p m with
  | (Resolved a, m') => (Resolved a, m')
  | (Rejected e, m') => exec W (h e) m'
  end.
Proof. revert m. induction p; intros m; simpl; auto. Qed.

(** A run of a program that respects [Inv] and [P]. *)
Lemma exec_respects {A : Type} Inv P (p : Prog A) (m : Machine) res m' :
  respects Inv P p -> Inv (self m) -> exec W p m = (res, m') ->
  Inv (self m') /\ exists new, trace m' = trace m ++ new /\ Forall P new.
Proof.
  revert m. induction p; intros m Hp Hi He; simpl in *.
  - inversion He; subst. split; [done |]. exists []. by rewrite app_nil_r.
  - inversion He; subst. split; [done |]. exists []. by rewrite app_nil_r.
  - destruct Hp as [Hr Hk].
    destruct (H _ (record (EvRequest r) m) (Hk _) Hi He) as (Hi' & new & Ht & Hn).
    split; [done |]. exists (EvRequest r :: new). simpl in Ht.
    rewrite Ht, <- app_assoc. split; [done | by constructor].
  - apply (H _ m (Hp _ Hi) Hi He).
  - destruct Hp as (Hev & Hpres & Hk).
    destruct (IHp (store f v m) Hk (Hpres _ Hi) He) as (Hi' & new & Ht & Hn).
    split; [done |]. exists (EvAssign f v :: new). simpl in Ht.
    rewrite Ht, <- app_assoc. split; [done | by constructor].
  - destruct Hp as (Hev & Hio & Hk).
    destruct (IHp (create o m) Hk Hio He) as (Hi' & new & Ht & Hn).
    split; [done |]. exists (EvNew o :: new). simpl in Ht.
    rewrite Ht, <- app_assoc. split; [done | by constructor].
  - destruct Hp as (Hev & Hk).
    destruct (IHp (record (EvUi u) m) Hk Hi He) as (Hi' & new & Ht & Hn).
    split; [done |]. exists (EvUi u :: new). simpl in Ht.
    rewrite Ht, <- app_assoc. split; [done | by constructor].
Qed.

(** One step of such a program. *)
Lemma step_respects Inv P (p : Prog unit) (m : Machine) p' m' :
  respects Inv P p -> Inv (self m) -> step W p m = (p', m') ->
  respects Inv P p' /\ Inv (self m') /\
  exists new, trace m' = trace m ++ new /\ Forall P new.
Proof.
  intros Hp Hi Hs.
  destruct p as [a | e | r k | k | f v k | o k | u k]; simpl in *;
    inversion Hs; subst; clear Hs; simpl.
  - repeat split; auto. exists []. by rewrite app_nil_r.
  - repeat split; auto. exists []. by rewrite app_nil_r.
  - destruct Hp as [Hr Hk]. repeat split; auto.
    exists [EvRequest r]. split; [done | by constructor].
  - repeat split; auto. exists []. by rewrite app_nil_r.
  - destruct Hp as (Hev & Hpres & Hk). repeat split; auto.
    exists [EvAssign f v]. split; [done | by constructor].
  - destruct Hp as (Hev & Hio & Hk). repeat split; auto.
    exists [EvNew o]. split; [done | by constructor].
  - destruct Hp as (Hev & Hk). repeat split; auto.
    exists [EvUi u]. split; [done | by constructor].
Qed.

End Runs.

(** ** Telling events apart *)

(** The credential prompt. *)
Definition is_prompt (e : Event) : bool :=
  match e with
  | EvRequest (promptCredentials _) => true
  | _ => false
  end.

(** The start-session POST. *)
Definition is_session_start (e : Event) : bool :=
  match e with
  | EvRequest (axios_post_upload _ _ _ _ _) => true
  | _ => false
  end.

(** The per-file nonce probe: a HEAD under the session. *)
Definition is_nonce_request (e : Event) : bool :=
  match e with
  | EvRequest (axios_head (UploadFileUrl _ _ _ _) _) => true
  | _ => false
  end.

(** A signature made by the wallet. *)
Definition is_signature (e : Event) : bool :=
  match e with
  | EvRequest (createKeyOwnershipSignature _ _) => true
  | _ => false
  end.

(** The transfer of a file body to the peer. *)
Definition is_put (e : Event) : bool :=
  match e with
  | EvRequest (axios_put _ _ _ _) => true
  | _ => false
  end.

(** The commit POST. *)
Definition is_commit (e : Event) : bool :=
  match e with
  | EvRequest (axios_post_commit _ _ _) => true
  | _ => false
  end.

(** The first thing [commitUploadSession] does when it is invoked. *)
Definition is_commit_entry (e : Event) : bool :=
  match e with
  | EvUi (spinner_start text) =>
      String.prefix "Committing upload session for store " text
  | _ => false
  end.

(** A GET of a file body. *)
Definition is_get (e : Event) : bool :=
  match e with
  | EvRequest (axios_get_stream _ _) => true
  | _ => false
  end.

(** An assignment to [this.sessionId]. *)
Definition is_session_write (e : Event) : bool :=
  match e with
  | EvAssign F_sessionId _ => true
  | _ => false
  end.

(** The session a request is made under: the value of [this.sessionId]
    that was read to build its URL. *)
Definition session_read (e : Event) : option string :=
  match e with
  | EvRequest (axios_head (UploadFileUrl _ _ s _) _) => Some s
  | EvRequest (axios_put (UploadFileUrl _ _ s _) _ _ _) => Some s
  | EvRequest (axios_post_commit (CommitUrl _ _ s) _ _) => Some s
  | _ => None
  end.

(** The Basic auth credentials a POST carries. *)
Definition auth_of (e : Event) : option (option Credentials) :=
  match e with
  | EvRequest (axios_post_upload _ _ _ _ a) => Some a
  | EvRequest (axios_post_commit _ _ a) => Some a
  | _ => None
  end.

(** What the scheduler itself records. *)
Definition is_pool_event (e : Event) : bool :=
  match e with
  | EvPool _ _ | EvTaskStart _ | EvTaskEnd _ _ => true
  | _ => false
  end.

(** The start or the end of a task. *)
Definition is_task_mark (e : Event) : bool :=
  match e with
  | EvTaskStart _ | EvTaskEnd _ _ => true
  | _ => false
  end.

(** Tasks started and not yet ended, after a history. *)
Fixpoint in_flight (evs : list Event) : Z :=
  match evs with
  | [] => 0
  | EvTaskStart _ :: evs' => 1 + in_flight evs'
  | EvTaskEnd _ _ :: evs' => in_flight evs' - 1
  | _ :: evs' => in_flight evs'
  end.

(** *** Events of a method that leaves the object alone

    [frozen o e]: [e] may come from a method that runs on the object [o]
    and neither assigns a field, nor prompts, nor starts a session; the
    session and the credentials of its requests are those of [o]. *)
Definition frozen (o : PropagationServer) (e : Event) : Prop :=
  match e with
  | EvRequest (promptCredentials _) => False
  | EvRequest (axios_post_upload _ _ _ _ _) => False
  | EvRequest (axios_head (UploadFileUrl _ _ s _) _) => s = sessionId o
  | EvRequest (axios_put u _ _ _) =>
      match u with UploadFileUrl _ _ s _ => s = sessionId o | _ => False end
  | EvRequest (axios_post_commit u _ a) =>
      match u with CommitUrl _ _ s => s = sessionId o | _ => False end
      /\ a = basic_auth o
  | EvRequest _ => True
  | EvUi _ => True
  | EvNew _ | EvAssign _ _ | EvPool _ _ | EvTaskStart _ | EvTaskEnd _ _ => False
  end.

(** Events of an upload task: frozen, and nothing of a commit. *)
Definition upload_task_event (o : PropagationServer) (e : Event) : Prop :=
  frozen o e /\ is_commit e = false /\ is_commit_entry e = false.

(** Events of a download task: frozen, and nothing of an upload. *)
Definition download_task_event (o : PropagationServer) (e : Event) : Prop :=
  frozen o e /\ session_read e = None.

(** ** What each method leaves behind *)

Lemma respects_this_bind {A : Type} Inv P (f : PropagationServer -> Prog A) :
  (forall o, Inv o -> respects Inv P (f o)) -> respects Inv P (bind this f).
Proof. intros H. simpl. exact H. Qed.

Ltac respects_walk :=
  repeat lazymatch goal with
  | |- respects _ _ (bind this _) => apply respects_this_bind; intros ? ?; subst
  | |- respects _ _ (set _ _) => apply respects_set
  | |- respects _ _ (bind _ _) => apply respects_bind; [| intros ?]
  | |- respects _ _ (try_catch _ _) => apply respects_try_catch; [| intros ?]
  | |- respects _ _ (try_finally _ _) => apply respects_try_finally
  | |- respects _ _ (await _) => apply respects_await
  | |- respects _ _ (out _) => apply respects_out
  | |- respects _ _ (Ret _) => exact I
  | |- respects _ _ (Throw _) => exact I
  | |- respects _ _ (if ?b then _ else _) => destruct b
  | |- respects _ _ (let x := _ in _) => cbv zeta
  end.

Section MethodFacts.

Context (imports : Imports).

Lemma createHttpsAgent_frozen Inv (P : Event -> Prop) :
  (forall f, P (EvRequest (fs_readFileSync f))) ->
  respects Inv P createHttpsAgent.
Proof. intros HP. unfold createHttpsAgent. respects_walk; apply HP. Qed.

Lemma getFileNonce_frozen o filename :
  respects (eq o) (upload_task_event o) (getFileNonce filename).
Proof.
  unfold getFileNonce. respects_walk; try (repeat split; fail).
  apply createHttpsAgent_frozen. intros f. repeat split.
Qed.

Lemma uploadFile_frozen o label0 dataPath0 :
  respects (eq o) (upload_task_event o) (uploadFile imports label0 dataPath0).
Proof.
  unfold uploadFile. respects_walk; try (repeat split; fail).
  - apply getFileNonce_frozen.
  - apply createHttpsAgent_frozen. intros f. repeat split.
Qed.

Lemma commitUploadSession_frozen o :
  respects (eq o) (frozen o) commitUploadSession.
Proof.
  unfold commitUploadSession. respects_walk; try (repeat split; fail).
  apply createHttpsAgent_frozen. intros f. exact I.
Qed.

Lemma downloadFile_frozen o label0 dataPath0 :
  respects (eq o) (download_task_event o) (downloadFile imports label0 dataPath0).
Proof.
  unfold downloadFile. respects_walk; try (repeat split; fail).
  apply createHttpsAgent_frozen. intros f. repeat split.
Qed.

Lemma fetchFile_frozen o dataPath0 :
  respects (eq o) (download_task_event o) (fetchFile dataPath0).
Proof.
  unfold fetchFile. respects_walk; try (repeat split; fail).
  apply createHttpsAgent_frozen. intros f. repeat split.
Qed.

End MethodFacts.

(** ** The scheduler's invariant *)

(** A task that ended in failure. *)
Definition is_task_failure (e : Event) : bool :=
  match e with
  | EvTaskEnd _ false => true
  | _ => false
  end.

(** At no point of a history are there fewer than zero or more than
    [limit] tasks in flight. *)
Definition peak_ok (limit : nat) (evs : list Event) : Prop :=
  forall pre, pre `prefix_of` evs -> (0 <= in_flight pre <= Z.of_nat limit)%Z.

Lemma in_flight_app (l1 l2 : list Event) :
  in_flight (l1 ++ l2) = (in_flight l1 + in_flight l2)%Z.
Proof.
  induction l1 as [| e l1 IH]; simpl; [lia |].
  destruct e; rewrite ?IH; lia.
Qed.

Lemma in_flight_quiet (l : list Event) :
  Forall (fun e => is_pool_event e = false) l -> in_flight l = 0%Z.
Proof.
  induction 1 as [| e l He _ IH]; simpl; [done |].
  destruct e; simpl in He; try discriminate; exact IH.
Qed.

Lemma prefix_of_app_cases {A : Type} (pre l1 l2 : list A) :
  pre `prefix_of` l1 ++ l2 ->
  pre `prefix_of` l1 \/ exists k, pre = l1 ++ k /\ k `prefix_of` l2.
Proof.
  revert pre. induction l1 as [| x l1 IH]; intros pre Hp; simpl in *.
  - right. exists pre. done.
  - destruct pre as [| y pre].
    + left. apply prefix_nil.
    + pose proof (prefix_cons_inv_1 _ _ _ _ Hp) as ->.
      apply prefix_cons_inv_2 in Hp.
      destruct (IH _ Hp) as [Hl | (k & -> & Hk)].
      * left. by apply prefix_cons.
      * right. exists k. done.
Qed.

Lemma peak_ok_app (limit : nat) (l1 l2 : list Event) :
  peak_ok limit l1 ->
  (forall k, k `prefix_of` l2 ->
     (0 <= in_flight l1 + in_flight k <= Z.of_nat limit)%Z) ->
  peak_ok limit (l1 ++ l2).
Proof.
  intros H1 H2 pre Hp.
  destruct (prefix_of_app_cases _ _ _ Hp) as [Hl | (k & -> & Hk)].
  - by apply H1.
  - rewrite in_flight_app. by apply H2.
Qed.

Lemma peak_ok_quiet (limit : nat) (l1 l2 : list Event) :
  peak_ok limit l1 ->
  Forall (fun e => is_pool_event e = false) l2 ->
  peak_ok limit (l1 ++ l2).
Proof.
  intros H1 H2. apply peak_ok_app; [done |].
  intros k [k' ->]. apply Forall_app in H2 as [Hk _].
  rewrite (in_flight_quiet _ Hk), Z.add_0_r. apply H1. done.
Qed.

Lemma peak_ok_nil (limit : nat) : peak_ok limit [].
Proof. intros pre Hp. apply prefix_nil_inv in Hp as ->. simpl. lia. Qed.

Lemma elem_of_delete_cases {A : Type} (l : list A) (i : nat) (x y : A) :
  l !! i = Some y -> x ∈ l -> x = y \/ x ∈ delete i l.
Proof.
  intros Hl Hx. rewrite <- (take_drop_middle _ _ _ Hl) in Hx.
  rewrite delete_take_drop.
  rewrite elem_of_app, elem_of_cons in Hx. rewrite elem_of_app. tauto.
Qed.

Section PoolInvariant.

Context (W : World).
Context (limit n : nat) (o : PropagationServer) (P : Event -> Prop).
Context (t0 : list Event).
Hypothesis P_not_pool : forall e, P e -> is_pool_event e = false.

(** What holds of the scheduler and the machine at every point of a run:
    the object is untouched, every task still respects [P], no more than
    [limit] tasks run, the history since the start agrees with that, every
    task is queued, running or ended, and a failure is remembered. *)
Record pool_inv (pl : Pool) (m : Machine) : Prop := {
  pi_self : self m = o;
  pi_queue : Forall (fun t => respects (eq o) P (snd t)) (queue pl);
  pi_running : Forall (fun t => respects (eq o) P (snd t)) (running pl);
  pi_bound : length (running pl) <= limit;
  pi_trace : exists new,
    trace m = t0 ++ new /\
    Forall (fun e => P e \/ is_task_mark e = true) new /\
    peak_ok limit new /\
    in_flight new = Z.of_nat (length (running pl)) /\
    (forall i, i < n ->
       i ∈ (queue pl).*1 \/ i ∈ (running pl).*1 \/
       exists ok, EvTaskEnd i ok ∈ new) /\
    (failure pl = None <-> Forall (fun e => is_task_failure e = false) new);
}.

Lemma pool_step_inv (c : Choice) (pl : Pool) (m : Machine) pl' m' :
  pool_inv pl m -> pool_step W limit c pl m = (pl', m') -> pool_inv pl' m'.
Proof.
  intros Hinv Hstep.
  pose proof Hinv as [Hs Hq Hr Hb (new & Ht & Hev & Hpk & Hfl & Hids & Hfail)].
  destruct c as [| slot]; simpl in Hstep.
  - (* Launch *)
    destruct (queue pl) as [| t q] eqn:Eq;
      [by inversion Hstep; subst |].
    destruct (Nat.ltb_spec (length (running pl)) limit) as [Hlt | Hge];
      [| by inversion Hstep; subst].
    inversion Hstep; subst; clear Hstep.
    apply Forall_cons in Hq as [Hq1 Hq2].
    econstructor; simpl; eauto.
    + apply Forall_app. split; [done | by constructor].
    + rewrite length_app. simpl. lia.
    + exists (new ++ [EvTaskStart (fst t)]). rewrite Ht, app_assoc.
      split; [done |]. split; [| split; [| split; [| split]]].
      * apply Forall_app. split; [done |]. constructor; [by right | done].
      * apply peak_ok_app; [done |]. intros k Hk.
        assert (in_flight k = 0 \/ in_flight k = 1)%Z as Hk'.
        { destruct Hk as [k' Hk]. destruct k as [| e k]; [by left |].
          inversion Hk; subst. destruct k; [| done]. by right. }
        lia.
      * rewrite in_flight_app, length_app. simpl. lia.
      * intros i Hi. destruct (Hids i Hi) as [Hin | [Hin | Hin]].
        -- simpl in Hin. apply elem_of_cons in Hin as [-> | Hin]; [| by left].
           right; left. rewrite fmap_app. apply elem_of_app. right.
           simpl. apply list_elem_of_singleton. done.
        -- right; left. rewrite fmap_app. apply elem_of_app. by left.
        -- right; right. destruct Hin as [ok Hin]. exists ok.
           apply elem_of_app. by left.
      * rewrite Hfail. rewrite Forall_app. split; [intros H; split; [done | by repeat constructor] | by intros [H _]].
  - (* Advance *)
    destruct (running pl !! slot) as [[i p] |] eqn:El;
      [| by inversion Hstep; subst].
    assert (Hp : respects (eq o) P p).
    { eapply (Forall_lookup_1 _ _ _ _ Hr El). }
    assert (Hlen : slot < length (running pl)) by (eapply lookup_lt_Some; eauto).
    assert (Hend : forall ok fl,
      (fl = None <-> Forall (fun e => is_task_failure e = false) (new ++ [EvTaskEnd i ok])) ->
      pool_inv {| queue := queue pl; running := delete slot (running pl); failure := fl |}
               (record (EvTaskEnd i ok) m)).
    { intros ok fl Hfl'. econstructor; simpl; eauto.
      - by apply Forall_delete.
      - rewrite length_delete; [lia | eauto].
      - exists (new ++ [EvTaskEnd i ok]). rewrite Ht, app_assoc.
        split; [done |]. split; [| split; [| split; [| split]]].
        + apply Forall_app. split; [done |]. constructor; [by right | done].
        + apply peak_ok_app; [done |]. intros k Hk.
          assert (in_flight k = 0 \/ in_flight k = -1)%Z as Hk'.
          { destruct Hk as [k' Hk]. destruct k as [| e k]; [by left |].
            inversion Hk; subst. destruct k; [| done]. by right. }
          lia.
        + rewrite in_flight_app, length_delete by eauto. simpl. lia.
        + intros j Hj. destruct (Hids j Hj) as [Hin | [Hin | Hin]].
          * by left.
          * apply list_elem_of_fmap in Hin as ([j' q'] & -> & Hin).
            destruct (elem_of_delete_cases _ _ _ _ El Hin) as [Heq | Hin'].
            -- inversion Heq; subst. right; right. exists ok.
               apply elem_of_app. right. apply list_elem_of_singleton. done.
            -- right; left. apply list_elem_of_fmap. by exists (j', q').
          * right; right. destruct Hin as [ok' Hin]. exists ok'.
            apply elem_of_app. by left.
        + exact Hfl'. }
    destruct p as [a | e | r k | k | f v k | o' k | u k].
    { inversion Hstep; subst. apply Hend.
      rewrite Hfail, Forall_app.
      split; [intros H; split; [done | by repeat constructor] | by intros [H _]]. }
    { inversion Hstep; subst. apply Hend.
      rewrite Forall_app. split.
      - destruct (failure pl); discriminate.
      - intros [_ H]. apply Forall_cons in H as [H _]. discriminate. }
    all: destruct (step W _ m) as [p' m1] eqn:Es in Hstep.
    all: inversion Hstep; subst; clear Hstep.
    all: destruct (step_respects W (eq o) P _ m p' m' Hp (eq_sym Hs) Es)
           as (Hp' & Hs' & ext & Hext & HPext).
    all: assert (Hq' : Forall (fun e => is_pool_event e = false) ext)
           by (eapply Forall_impl; [exact HPext | exact P_not_pool]).
    all: econstructor; simpl; eauto.
    all: try (by apply Forall_insert).
    all: try (rewrite length_insert; lia).
    all: exists (new ++ ext); rewrite Hext, Ht, app_assoc.
    all: split; [done |]; split; [| split; [| split; [| split]]].
    all: try (apply Forall_app; split; [done |];
              eapply Forall_impl; [exact HPext | by left]).
    all: try (by apply peak_ok_quiet).
    all: try (rewrite in_flight_app, (in_flight_quiet _ Hq'), length_insert; lia).
    all: try (intros j Hj; destruct (Hids j Hj) as [Hin | [Hin | [ok Hin]]];
              [by left
              | right; left; rewrite list_fmap_insert; simpl;
                rewrite list_insert_id; [done | by rewrite list_lookup_fmap, El]
              | right; right; exists ok; apply elem_of_app; by left]).
    all: rewrite Hfail, Forall_app; split; [intros H; split; [done |] | by intros [H _]].
    all: eapply Forall_impl; [exact Hq' |]; intros [] He; simpl in *; done.
Qed.

Lemma pool_run_inv (schedule : list Choice) (pl : Pool) (m : Machine) pl' m' :
  pool_inv pl m -> pool_run W limit schedule pl m = (pl', m') -> pool_inv pl' m'.
Proof.
  revert pl m. induction schedule as [| c schedule IH]; intros pl m Hi Hr; simpl in Hr.
  - by inversion Hr; subst.
  - destruct (pool_step W limit c pl m) as [pl1 m1] eqn:Es.
    eapply IH; [| exact Hr]. eapply pool_step_inv; eauto.
Qed.

End PoolInvariant.

(** *** A finished run of the scheduler *)

Lemma asyncPool_run {T : Type} (W : World) (limit : nat) (items : list T)
    (worker : T -> Prog unit) (schedule : list Choice) (P : Event -> Prop)
    (m : Machine) res m' :
  (forall e, P e -> is_pool_event e = false) ->
  (forall t, respects (eq (self m)) P (worker t)) ->
  asyncPool W limit items worker schedule m = Some (res, m') ->
  self m' = self m /\
  exists evs,
    trace m' = trace m ++ EvPool limit (length items) :: evs /\
    Forall (fun e => P e \/ is_task_mark e = true) evs /\
    peak_ok limit evs /\
    (forall i, i < length items -> exists ok, EvTaskEnd i ok ∈ evs) /\
    (res = Resolved tt <-> Forall (fun e => is_task_failure e = false) evs).
Proof.
  intros HP Hw Hrun. unfold asyncPool in Hrun.
  destruct (pool_run _ _ _ _ _) as [pl m1] eqn:Er.
  destruct (pool_done pl) eqn:Ed; [| discriminate].
  assert (Hinv : pool_inv limit (length items) (self m) P
                   (trace m ++ [EvPool limit (length items)]) pl m1).
  { eapply pool_run_inv; [exact HP | | exact Er].
    constructor; simpl; auto.
    - apply Forall_forall. intros x Hx.
      apply elem_of_lookup_imap_1 in Hx as (i & t & -> & _). apply Hw.
    - lia.
    - exists []. rewrite app_nil_r.
      split; [done |]. split; [done |]. split; [apply peak_ok_nil |].
      split; [done |]. split; [| done].
      intros i Hi. left.
      destruct (lookup_lt_is_Some_2 items i Hi) as [t Ht].
      eapply list_elem_of_fmap_2'; [eapply elem_of_lookup_imap_2; exact Ht | done]. }
  destruct Hinv as [Hs _ _ _ (evs & Ht & Hev & Hpk & _ & Hids & Hfail)].
  unfold pool_done in Ed.
  destruct (queue pl) eqn:Eq; [| discriminate].
  destruct (running pl) eqn:Erun; [| discriminate].
  inversion Hrun; subst res m'; clear Hrun.
  split; [done |]. exists evs. rewrite Ht, <- app_assoc. simpl.
  split; [done |]. split; [done |]. split; [done |]. split; [| split].
  - intros i Hi. destruct (Hids i Hi) as [Hin | [Hin | Hin]]; [| | done].
    + by apply elem_of_nil in Hin.
    + by apply elem_of_nil in Hin.
  - intros Hres. apply Hfail. destruct (failure pl); [discriminate | done].
  - intros Hall. apply Hfail in Hall. by rewrite Hall.
Qed.

(** *** Some schedule always finishes *)

Section Completion.

Context (W : World) (limit : nat).

Lemma pool_run_app (s1 s2 : list Choice) (pl : Pool) (m : Machine) :
  pool_run W limit (s1 ++ s2) pl m =
  let '(pl1, m1) := pool_run W limit s1 pl m in pool_run W limit s2 pl1 m1.
Proof.
  revert pl m. induction s1 as [| c s1 IH]; intros pl m; simpl.
  - by destruct (pool_run W limit s2 pl m).
  - destruct (pool_step W limit c pl m) as [pl1 m1]. apply IH.
Qed.

(** A task alone in the first slot reaches its end. *)
Lemma task_finishes (p : Prog unit) :
  forall (i : nat) (q : list (nat * Prog unit)) (f : option JsError) (m : Machine),
  exists k f' m',
    pool_run W limit (repeat (Advance 0) k)
      {| queue := q; running := [(i, p)]; failure := f |} m
    = ({| queue := q; running := []; failure := f' |}, m').
Proof.
  induction p as [a | e | r k IH | k IH | fd v k IH | o k IH | u k IH];
    intros i q f m.
  - exists 1, f, (record (EvTaskEnd i true) m). reflexivity.
  - exists 1, (first_failure f e), (record (EvTaskEnd i false) m). reflexivity.
  - destruct (IH (W (trace m) r) i q f (record (EvRequest r) m)) as (n & f' & m' & Hn).
    exists (S n), f', m'. exact Hn.
  - destruct (IH (self m) i q f m) as (n & f' & m' & Hn).
    exists (S n), f', m'. exact Hn.
  - destruct (IH i q f (store fd v m)) as (n & f' & m' & Hn).
    exists (S n), f', m'. exact Hn.
  - destruct (IH i q f (create o m)) as (n & f' & m' & Hn).
    exists (S n), f', m'. exact Hn.
  - destruct (IH i q f (record (EvUi u) m)) as (n & f' & m' & Hn).
    exists (S n), f', m'. exact Hn.
Qed.

(** One task after the other empties the queue. *)
Lemma queue_finishes (q : list (nat * Prog unit)) :
  0 < limit ->
  forall (f : option JsError) (m : Machine),
  exists schedule f' m',
    pool_run W limit schedule {| queue := q; running := []; failure := f |} m
    = ({| queue := []; running := []; failure := f' |}, m').
Proof.
  intros Hl. induction q as [| [i p] q IH]; intros f m.
  - exists [], f, m. reflexivity.
  - destruct (task_finishes p i q f (record (EvTaskStart i) m)) as (k & f1 & m1 & H1).
    destruct (IH f1 m1) as (s2 & f2 & m2 & H2).
    exists (Launch :: repeat (Advance 0) k ++ s2), f2, m2.
    simpl. destruct (Nat.ltb_spec 0 limit) as [_ | Hge]; [| lia].
    simpl. rewrite pool_run_app, H1. exact H2.
Qed.

Lemma asyncPool_total {T : Type} (items : list T) (worker : T -> Prog unit)
    (m : Machine) :
  0 < limit ->
  exists schedule out, asyncPool W limit items worker schedule m = Some out.
Proof.
  intros Hl. unfold asyncPool.
  destruct (queue_finishes (imap (fun i t => (i, worker t)) items) Hl None
              (record (EvPool limit (length items)) m)) as (s & f & m' & Hs).
  exists s. rewrite Hs. simpl. eauto.
Qed.

End Completion.

(** *** What a task that ended well has done *)

(** [owes Q p]: [p] cannot return before it has left an event that
    satisfies [Q]. *)
Fixpoint owes {A : Type} (Q : Event -> Prop) (p : Prog A) : Prop :=
  match p with
  | Ret _ => False
  | Throw _ => True
  | Call r k => Q (EvRequest r) \/ forall x, owes Q (k x)
  | This k => forall o, owes Q (k o)
  | Assign f v k => Q (EvAssign f v) \/ owes Q k
  | New o k => Q (EvNew o) \/ owes Q k
  | Out u k => Q (EvUi u) \/ owes Q k
  end.

Lemma step_owes (W : World) {A : Type} (Q : Event -> Prop) (p p' : Prog A)
    (m m' : Machine) :
  owes Q p -> step W p m = (p', m') ->
  exists ext, trace m' = trace m ++ ext /\ (Exists Q ext \/ owes Q p').
Proof.
  destruct p as [a | e | r k | k | f v k | o k | u k]; simpl;
    intros Ho Hs; injection Hs as <- <-.
  - done.
  - exists []. rewrite app_nil_r. split; [done | by right].
  - exists [EvRequest r]. split; [done |].
    destruct Ho as [Hq | Hk]; [left; by constructor | right; apply Hk].
  - exists []. rewrite app_nil_r. split; [done |]. right. apply Ho.
  - exists [EvAssign f v]. split; [done |].
    destruct Ho as [Hq | Hk]; [left; by constructor | by right].
  - exists [EvNew o]. split; [done |].
    destruct Ho as [Hq | Hk]; [left; by constructor | by right].
  - exists [EvUi u]. split; [done |].
    destruct Ho as [Hq | Hk]; [left; by constructor | by right].
Qed.

Section PoolServes.

Context (W : World) (limit : nat) (t0 : list Event).
Context (Q : nat -> Event -> Prop).

(** Task [t] has left its event, or cannot return before it has. *)
Definition serves (new : list Event) (t : nat * Prog unit) : Prop :=
  owes (Q (fst t)) (snd t) \/ Exists (Q (fst t)) new.

Record pool_serves (pl : Pool) (m : Machine) : Prop := {
  ps_tasks : exists new,
    trace m = t0 ++ new /\
    Forall (serves new) (queue pl) /\
    Forall (serves new) (running pl) /\
    forall i, EvTaskEnd i true ∈ new -> Exists (Q i) new;
}.

Lemma serves_later (new ext : list Event) (t : nat * Prog unit) :
  serves new t -> serves (new ++ ext) t.
Proof.
  intros [H | H]; [by left | right]. apply Exists_app. by left.
Qed.

Lemma pool_step_serves (c : Choice) (pl : Pool) (m : Machine) pl' m' :
  pool_serves pl m -> pool_step W limit c pl m = (pl', m') -> pool_serves pl' m'.
Proof.
  intros Hinv Hstep.
  pose proof Hinv as [(new & Ht & Hq & Hr & Hend)].
  assert (Hkeep : forall ext (pl1 : Pool) (m1 : Machine),
            trace m1 = trace m ++ ext ->
            Forall (serves (new ++ ext)) (queue pl1) ->
            Forall (serves (new ++ ext)) (running pl1) ->
            (forall i, EvTaskEnd i true ∈ ext -> Exists (Q i) new) ->
            pool_serves pl1 m1).
  { intros ext pl1 m1 Ht1 Hq1 Hr1 He1. constructor. exists (new ++ ext).
    split; [by rewrite Ht1, Ht, app_assoc |]. split; [done |]. split; [done |].
    intros i Hi. apply Exists_app. left.
    apply elem_of_app in Hi as [Hi | Hi]; [by apply Hend | by apply He1]. }
  assert (Hlater : forall ext l, Forall (serves new) l -> Forall (serves (new ++ ext)) l).
  { intros ext l Hl. eapply Forall_impl; [exact Hl |]. intros t. apply serves_later. }
  destruct c as [| slot]; simpl in Hstep.
  - destruct (queue pl) as [| t q] eqn:Eq; [by injection Hstep as <- <- |].
    destruct (length (running pl) <? limit)%nat; [| by injection Hstep as <- <-].
    injection Hstep as <- <-.
    apply Forall_cons in Hq as [Hq1 Hq2].
    apply (Hkeep [EvTaskStart (fst t)]); simpl.
    + done.
    + by apply Hlater.
    + apply Forall_app. split; [by apply Hlater |].
      constructor; [by apply serves_later | constructor].
    + intros i Hi. apply list_elem_of_singleton in Hi. discriminate.
  - destruct (running pl !! slot) as [[i p] |] eqn:El;
      [| by injection Hstep as <- <-].
    pose proof (Forall_lookup_1 _ _ _ _ Hr El) as Hp.
    destruct p as [a | e | r k | k | f v k | o' k | u k].
    { injection Hstep as <- <-.
      apply (Hkeep [EvTaskEnd i true]); simpl.
      - done.
      - by apply Hlater.
      - apply Hlater. by apply Forall_delete.
      - intros j Hj. apply list_elem_of_singleton in Hj. injection Hj as ->.
        destruct Hp as [[] | Hp]. exact Hp. }
    { injection Hstep as <- <-.
      apply (Hkeep [EvTaskEnd i false]); simpl.
      - done.
      - by apply Hlater.
      - apply Hlater. by apply Forall_delete.
      - intros j Hj. apply list_elem_of_singleton in Hj. discriminate. }
    all: destruct (step W _ m) as [p' m1] eqn:Es in Hstep.
    all: injection Hstep as <- <-.
    all: assert (Hnext : exists ext,
           trace m1 = trace m ++ ext /\
           Forall (fun e => is_task_mark e = false) ext /\
           serves (new ++ ext) (i, p'))
      by (destruct Hp as [Hp | Hp];
          [ destruct (step_owes W _ _ _ _ _ Hp Es) as (ext & Hext & Hs);
            exists ext; split; [done |]; split;
            [ simpl in Es; injection Es as <- <-; simpl in Hext;
              first [ apply app_inv_head in Hext; subst ext; by repeat constructor
                    | rewrite <- (app_nil_r (trace m)) in Hext at 1;
                      apply app_inv_head in Hext; subst ext; constructor ]
            | destruct Hs as [Hs | Hs];
              [right; apply Exists_app; by right | by left] ]
          | simpl in Es; injection Es as <- <-;
            first [ eexists [_]; split; [reflexivity |]; split;
                    [by repeat constructor | right; apply Exists_app; by left]
                  | exists []; split; [by rewrite app_nil_r |]; split;
                    [constructor | right; apply Exists_app; by left] ] ]).
    all: destruct Hnext as (ext & Hext & Hmarks & Hs).
    all: apply (Hkeep ext); simpl; [done | by apply Hlater | |].
    all: try (apply Forall_insert; [by apply Hlater | done]).
    all: intros j Hj; rewrite Forall_forall in Hmarks;
      specialize (Hmarks _ Hj); discriminate.
Qed.

Lemma pool_run_serves (schedule : list Choice) (pl : Pool) (m : Machine) pl' m' :
  pool_serves pl m -> pool_run W limit schedule pl m = (pl', m') -> pool_serves pl' m'.
Proof.
  revert pl m. induction schedule as [| c schedule IH]; intros pl m Hi Hr; simpl in Hr.
  - by injection Hr as <- <-.
  - destruct (pool_step W limit c pl m) as [pl1 m1] eqn:Es.
    eapply IH; [| exact Hr]. eapply pool_step_serves; eauto.
Qed.

End PoolServes.

Lemma owes_weaken {A : Type} (Q Q' : Event -> Prop) (p : Prog A) :
  (forall e, Q e -> Q' e) -> owes Q p -> owes Q' p.
Proof.
  intros HQ. induction p as [a | e | r k IH | k IH | f v k IH | o k IH | u k IH];
    simpl; try tauto.
  - intros [H | H]; [left; by apply HQ | right; intros x; by apply IH].
  - intros H o. by apply IH.
  - intros [H | H]; [left; by apply HQ | right; by apply IH].
  - intros [H | H]; [left; by apply HQ | right; by apply IH].
  - intros [H | H]; [left; by apply HQ | right; by apply IH].
Qed.

(** Every task of a finished pool that ended well has left the event its
    worker owes. *)
Lemma asyncPool_serves {T : Type} (W : World) (limit : nat) (items : list T)
    (worker : T -> Prog unit) (schedule : list Choice) (Q : T -> Event -> Prop)
    (m : Machine) res m' :
  (forall t, owes (Q t) (worker t)) ->
  asyncPool W limit items worker schedule m = Some (res, m') ->
  exists evs,
    trace m' = trace m ++ EvPool limit (length items) :: evs /\
    forall i t, items !! i = Some t -> EvTaskEnd i true ∈ evs -> Exists (Q t) evs.
Proof.
  intros Hw Hrun. unfold asyncPool in Hrun.
  destruct (pool_run _ _ _ _ _) as [pl m1] eqn:Er.
  destruct (pool_done pl); [| discriminate].
  injection Hrun as _ <-.
  set (Qi := fun (i : nat) (e : Event) => exists t, items !! i = Some t /\ Q t e).
  assert (Hinv : pool_serves (trace m ++ [EvPool limit (length items)]) Qi pl m1).
  { eapply pool_run_serves; [| exact Er].
    constructor. exists []. simpl. rewrite app_nil_r.
    split; [done |]. split; [| split; [constructor |]].
    - apply Forall_forall. intros x Hx.
      apply elem_of_lookup_imap_1 in Hx as (i & t & -> & Hit).
      left. simpl. eapply owes_weaken; [| apply Hw].
      intros e He. by exists t.
    - intros i Hi. by apply elem_of_nil in Hi. }
  destruct Hinv as [(evs & Ht & _ & _ & Hend)].
  exists evs. split; [by rewrite Ht, <- app_assoc |].
  intros i t Hit Hi. specialize (Hend i Hi).
  eapply Exists_impl; [exact Hend |].
  intros e (t' & Hit' & He). rewrite Hit in Hit'. by injection Hit' as <-.
Qed.

(** ** Single methods *)

(** [is_read e]: a read of the certificate or of the key. *)
Definition is_read (e : Event) : Prop :=
  exists f, e = EvRequest (fs_readFileSync f).

Section MethodRuns.

Context (imports : Imports) (W : World).

Lemma createHttpsAgent_run (m : Machine) res m' :
  exec W createHttpsAgent m = (res, m') ->
  self m' = self m /\ exists new, trace m' = trace m ++ new /\ Forall is_read new.
Proof.
  intros He.
  assert (Hr : respects (eq (self m)) is_read createHttpsAgent)
    by (apply createHttpsAgent_frozen; intros f; by exists f).
  destruct (exec_respects W _ _ _ m res m' Hr eq_refl He) as (Hs & new & Ht & Hn).
  split; [done |]. by exists new.
Qed.

Lemma exec_this_bind {A : Type} (f : PropagationServer -> Prog A) (m : Machine) :
  exec W (bind this f) m = exec W (f (self m)) m.
Proof. reflexivity. Qed.

Lemma exec_await_bind {A : Type} (r : Request) (f : Reply r -> Prog A) (m : Machine) :
  exec W (bind (await r) f) m =
  match W (trace m) r with
  | Resolved a => exec W (f a) (record (EvRequest r) m)
  | Rejected e => (Rejected e, record (EvRequest r) m)
  end.
Proof. simpl. by destruct (W (trace m) r). Qed.

Lemma exec_await (r : Request) (m : Machine) :
  exec W (await r) m =
  match W (trace m) r with
  | Resolved a => (Resolved a, record (EvRequest r) m)
  | Rejected e => (Rejected e, record (EvRequest r) m)
  end.
Proof. simpl. by destruct (W (trace m) r). Qed.

Lemma exec_out_bind {A : Type} (u : Ui) (f : unit -> Prog A) (m : Machine) :
  exec W (bind (out u) f) m = exec W (f tt) (record (EvUi u) m).
Proof. reflexivity. Qed.

Lemma exec_set_bind {A : Type} (fd : Field) (v : string) (f : unit -> Prog A)
    (m : Machine) :
  exec W (bind (set fd v) f) m = exec W (f tt) (store fd v m).
Proof. reflexivity. Qed.

(** The GET of either transfer method came back with a length the code
    takes for missing: the method throws, and the GET is the last thing
    that happened. *)
Lemma fetchFile_length_missing (dataPath0 : string) (m m1 : Machine)
    (agent : Agent) (response : gmap string string * string) :
  let get :=
    axios_get_stream (FetchUrl (ipAddress (self m)) (storeId (self m)) dataPath0)
      agent in
  exec W createHttpsAgent m = (Resolved agent, m1) ->
  W (trace m1) get = Resolved response ->
  falsy_number (totalLength_of (fst response !! "content-length")) = true ->
  exec W (fetchFile dataPath0) m =
    (Rejected (Error "Content-Length header is missing"),
     record (EvRequest get) m1).
Proof.
  intros get Ha Hw Hf. unfold fetchFile.
  rewrite exec_this_bind, exec_bind, Ha. fold get.
  rewrite exec_await_bind, Hw. cbv zeta. rewrite Hf. reflexivity.
Qed.

Lemma downloadFile_length_missing (label0 dataPath0 : string) (m m1 : Machine)
    (agent : Agent) (response : gmap string string * string) :
  let mkdir :=
    fs_mkdirSync_recursive
      (path_dirname imports
         (path_join imports [STORE_PATH imports; storeId (self m); dataPath0])) in
  let get :=
    axios_get_stream (FetchUrl (ipAddress (self m)) (storeId (self m)) dataPath0)
      agent in
  W (trace m) mkdir = Resolved tt ->
  exec W createHttpsAgent (record (EvRequest mkdir) m) = (Resolved agent, m1) ->
  W (trace m1) get = Resolved response ->
  falsy_number (totalLength_of (fst response !! "content-length")) = true ->
  exec W (downloadFile imports label0 dataPath0) m =
    (Rejected (Error "Content-Length header is missing"),
     record (EvRequest get) m1).
Proof.
  intros mkdir get Hm Ha Hw Hf. unfold downloadFile.
  rewrite exec_this_bind. cbv zeta. fold mkdir.
  rewrite exec_await_bind, Hm, exec_bind, Ha. fold get.
  rewrite exec_await_bind, Hw. cbv zeta. rewrite Hf. reflexivity.
Qed.

End MethodRuns.

(** ** The claims about single methods *)

Definition demo_server : PropagationServer := {|
  storeId := "store1"; sessionId := "session-1"; publicKey := "a1b2";
  wallet := Some "wallet"; ipAddress := "10.0.0.1";
  certPath := "client.cert"; keyPath := "client.key";
  username := None; password := None;
|}.

Definition demo_machine : Machine := {| self := demo_server; trace := [] |}.

Definition demo_agent : Agent :=
  {| cert := "pem:client.cert"; key := "pem:client.key"; rejectUnauthorized := false |}.

Definition demo_after_agent : Machine :=
  {| self := demo_server;
     trace := [EvRequest (fs_readFileSync "client.cert");
               EvRequest (fs_readFileSync "client.key")] |}.

(** A peer that already has every file of the session. *)
Definition files_present : Scenario := {|
  store_exists_header := Some "true";
  has_root_hash_header := Some "false";
  prompt_reply := Rejected (Error "no terminal");
  file_exists_header := fun _ => Some "true";
  put_reply := fun _ => Resolved tt;
  content_length_header := Some "20";
  local_files := [ {| name := "file1"; path := "data/aa" |} ];
|}.

(** C3. Idempotent skip on upload: when the per-file nonce probe (the HEAD
    under the active session) comes back with x-file-exists = "true",
    [uploadFile] returns normally; all it did was read the certificate and
    the key, send the probe and log the skip. In particular it sent no PUT
    and asked the wallet for no signature. *)
Theorem uploadFile_skips_existing_file (imports : Imports) (W : World)
    (label0 dataPath0 : string) (m m1 : Machine) (agent : Agent)
    (h : gmap string string) :
  let probe :=
    axios_head (UploadFileUrl (ipAddress (self m)) (storeId (self m))
                  (sessionId (self m)) dataPath0) agent in
  let skip :=
    console_log ("File " +:+ label0 +:+ " already exists. Skipping upload.") in
  exec W createHttpsAgent m = (Resolved agent, m1) ->
  W (trace m1) probe = Resolved h ->
  h !! "x-file-exists" = Some "true" ->
  exists m' reads,
    exec W (uploadFile imports label0 dataPath0) m = (Resolved tt, m') /\
    trace m' = trace m ++ reads ++ [EvRequest probe; EvUi skip] /\
    Forall is_read reads /\
    Forall (fun e => is_put e = false /\ is_signature e = false)
      (reads ++ [EvRequest probe; EvUi skip]).
Proof.
  intros probe skip Ha Hw Hh.
  destruct (createHttpsAgent_run W _ _ _ Ha) as (Hs & reads & Ht & Hr).
  exists (record (EvUi skip) (record (EvRequest probe) m1)), reads.
  split; [| split; [| split]].
  - unfold uploadFile, getFileNonce.
    rewrite exec_this_bind, exec_bind, exec_try_catch, exec_bind, Ha.
    rewrite exec_this_bind, Hs. fold probe.
    rewrite exec_await_bind, Hw. simpl. rewrite Hh. reflexivity.
  - simpl. rewrite Ht, <- !app_assoc. reflexivity.
  - exact Hr.
  - apply Forall_app. split.
    + eapply Forall_impl; [exact Hr |]. intros e [f ->]. done.
    + repeat constructor.
Qed.

Lemma uploadFile_skips_existing_file_witness :
  exists m' reads,
    exec (scripted files_present) (uploadFile demo_imports "file1" "data/aa")
      demo_machine = (Resolved tt, m') /\
    trace m' = trace demo_machine ++ reads ++
      [EvRequest (axios_head (UploadFileUrl "10.0.0.1" "store1" "session-1" "data/aa")
                    demo_agent);
       EvUi (console_log "File file1 already exists. Skipping upload.")] /\
    Forall is_read reads /\
    Forall (fun e => is_put e = false /\ is_signature e = false)
      (reads ++
       [EvRequest (axios_head (UploadFileUrl "10.0.0.1" "store1" "session-1" "data/aa")
                     demo_agent);
        EvUi (console_log "File file1 already exists. Skipping upload.")]).
Proof.
  apply (uploadFile_skips_existing_file demo_imports (scripted files_present)
           "file1" "data/aa" demo_machine demo_after_agent demo_agent
           (headers_of [("x-file-exists", Some "true");
                        ("x-nonce", Some "nonce-data/aa")])).
  - reflexivity.
  - reflexivity.
  - vm_compute. reflexivity.
Defined.

(** A peer that sends bodies without a content-length header. *)
Definition no_content_length : Scenario := {|
  store_exists_header := Some "true";
  has_root_hash_header := Some "true";
  prompt_reply := Rejected (Error "no terminal");
  file_exists_header := fun _ => Some "false";
  put_reply := fun _ => Resolved tt;
  content_length_header := None;
  local_files := [];
|}.

(** A peer that sends an empty file, with its length. *)
Definition empty_file : Scenario := {|
  store_exists_header := Some "true";
  has_root_hash_header := Some "true";
  prompt_reply := Rejected (Error "no terminal");
  file_exists_header := fun _ => Some "false";
  put_reply := fun _ => Resolved tt;
  content_length_header := Some "0";
  local_files := [];
|}.

Definition demo_mkdir : Request :=
  fs_mkdirSync_recursive "/dig/store1/data".

Definition demo_after_mkdir_agent : Machine :=
  {| self := demo_server;
     trace := [EvRequest demo_mkdir;
               EvRequest (fs_readFileSync "client.cert");
               EvRequest (fs_readFileSync "client.key")] |}.

(** C5. Missing content-length is a protocol violation: when the GET of
    [fetchFile] or of [downloadFile] resolves with a response that has no
    content-length header, the method throws "Content-Length header is
    missing", and the GET is the last event of the call: no progress bar
    is started and the body stream is never read. *)
Theorem missing_content_length_fails (imports : Imports) (W : World) :
  (forall (dataPath0 : string) (m m1 : Machine) (agent : Agent)
          (headers : gmap string string) (body : string),
     let get :=
       axios_get_stream
         (FetchUrl (ipAddress (self m)) (storeId (self m)) dataPath0) agent in
     exec W createHttpsAgent m = (Resolved agent, m1) ->
     W (trace m1) get = Resolved (headers, body) ->
     headers !! "content-length" = None ->
     exec W (fetchFile dataPath0) m =
       (Rejected (Error "Content-Length header is missing"),
        record (EvRequest get) m1)) /\
  (forall (label0 dataPath0 : string) (m m1 : Machine) (agent : Agent)
          (headers : gmap string string) (body : string),
     let mkdir :=
       fs_mkdirSync_recursive
         (path_dirname imports
            (path_join imports [STORE_PATH imports; storeId (self m); dataPath0])) in
     let get :=
       axios_get_stream
         (FetchUrl (ipAddress (self m)) (storeId (self m)) dataPath0) agent in
     W (trace m) mkdir = Resolved tt ->
     exec W createHttpsAgent (record (EvRequest mkdir) m) = (Resolved agent, m1) ->
     W (trace m1) get = Resolved (headers, body) ->
     headers !! "content-length" = None ->
     exec W (downloadFile imports label0 dataPath0) m =
       (Rejected (Error "Content-Length header is missing"),
        record (EvRequest get) m1)).
Proof.
  split.
  - intros dataPath0 m m1 agent headers body get Ha Hw Hh.
    eapply fetchFile_length_missing; eauto.
    simpl. rewrite Hh. reflexivity.
  - intros label0 dataPath0 m m1 agent headers body mkdir get Hm Ha Hw Hh.
    eapply downloadFile_length_missing; eauto.
    simpl. rewrite Hh. reflexivity.
Qed.

Lemma missing_content_length_fails_witness :
  exec (scripted no_content_length) (fetchFile "root1.dat") demo_machine =
    (Rejected (Error "Content-Length header is missing"),
     record (EvRequest (axios_get_stream (FetchUrl "10.0.0.1" "store1" "root1.dat")
                          demo_agent)) demo_after_agent) /\
  exec (scripted no_content_length) (downloadFile demo_imports "file1" "data/aa")
    demo_machine =
    (Rejected (Error "Content-Length header is missing"),
     record (EvRequest (axios_get_stream (FetchUrl "10.0.0.1" "store1" "data/aa")
                          demo_agent)) demo_after_mkdir_agent).
Proof.
  split.
  - apply (proj1 (missing_content_length_fails demo_imports
                    (scripted no_content_length))
             "root1.dat" demo_machine demo_after_agent demo_agent ∅ "body");
      reflexivity.
  - apply (proj2 (missing_content_length_fails demo_imports
                    (scripted no_content_length))
             "file1" "data/aa" demo_machine demo_after_mkdir_agent demo_agent
             ∅ "body");
      reflexivity.
Defined.

(** C10. Zero-length file fetch always fails: when the GET of [fetchFile]
    or of [downloadFile] resolves with content-length "0", the parsed
    length is the number 0, which the test [!totalLength] takes like an
    absent header: the method throws "Content-Length header is missing"
    right after the GET instead of returning an empty body. *)
Theorem zero_length_fetch_fails (imports : Imports) (W : World) :
  totalLength_of (Some "0") = Some (Int 0) /\
  (forall (dataPath0 : string) (m m1 : Machine) (agent : Agent)
          (headers : gmap string string) (body : string),
     let get :=
       axios_get_stream
         (FetchUrl (ipAddress (self m)) (storeId (self m)) dataPath0) agent in
     exec W createHttpsAgent m = (Resolved agent, m1) ->
     W (trace m1) get = Resolved (headers, body) ->
     headers !! "content-length" = Some "0" ->
     exec W (fetchFile dataPath0) m =
       (Rejected (Error "Content-Length header is missing"),
        record (EvRequest get) m1)) /\
  (forall (label0 dataPath0 : string) (m m1 : Machine) (agent : Agent)
          (headers : gmap string string) (body : string),
     let mkdir :=
       fs_mkdirSync_recursive
         (path_dirname imports
            (path_join imports [STORE_PATH imports; storeId (self m); dataPath0])) in
     let get :=
       axios_get_stream
         (FetchUrl (ipAddress (self m)) (storeId (self m)) dataPath0) agent in
     W (trace m) mkdir = Resolved tt ->
     exec W createHttpsAgent (record (EvRequest mkdir) m) = (Resolved agent, m1) ->
     W (trace m1) get = Resolved (headers, body) ->
     headers !! "content-length" = Some "0" ->
     exec W (downloadFile imports label0 dataPath0) m =
       (Rejected (Error "Content-Length header is missing"),
        record (EvRequest get) m1)).
Proof.
  split; [reflexivity |]. split.
  - intros dataPath0 m m1 agent headers body get Ha Hw Hh.
    eapply fetchFile_length_missing; eauto.
    simpl. rewrite Hh. reflexivity.
  - intros label0 dataPath0 m m1 agent headers body mkdir get Hm Ha Hw Hh.
    eapply downloadFile_length_missing; eauto.
    simpl. rewrite Hh. reflexivity.
Qed.

Lemma zero_length_fetch_fails_witness :
  exec (scripted empty_file) (fetchFile "root1.dat") demo_machine =
    (Rejected (Error "Content-Length header is missing"),
     record (EvRequest (axios_get_stream (FetchUrl "10.0.0.1" "store1" "root1.dat")
                          demo_agent)) demo_after_agent) /\
  exec (scripted empty_file) (downloadFile demo_imports "file1" "data/aa")
    demo_machine =
    (Rejected (Error "Content-Length header is missing"),
     record (EvRequest (axios_get_stream (FetchUrl "10.0.0.1" "store1" "data/aa")
                          demo_agent)) demo_after_mkdir_agent).
Proof.
  split.
  - apply (proj1 (proj2 (zero_length_fetch_fails demo_imports (scripted empty_file)))
             "root1.dat" demo_machine demo_after_agent demo_agent
             (headers_of [("content-length", Some "0")]) "body");
      reflexivity.
  - apply (proj2 (proj2 (zero_length_fetch_fails demo_imports (scripted empty_file)))
             "file1" "data/aa" demo_machine demo_after_mkdir_agent demo_agent
             (headers_of [("content-length", Some "0")]) "body");
      reflexivity.
Defined.

(** ** The object as a function of the history *)

(** The object after a history: a construction replaces it, an assignment
    updates a field, nothing else touches it. *)
Definition replay_event (o : PropagationServer) (e : Event) : PropagationServer :=
  match e with
  | EvNew o' => o'
  | EvAssign f v => assign f v o
  | _ => o
  end.

Definition replay (evs : list Event) (o : PropagationServer) : PropagationServer :=
  fold_left replay_event evs o.

(** An event that leaves the object as it is. *)
Definition inert (e : Event) : Prop :=
  match e with
  | EvNew _ | EvAssign _ _ => False
  | _ => True
  end.

Lemma replay_app (l1 l2 : list Event) (o : PropagationServer) :
  replay (l1 ++ l2) o = replay l2 (replay l1 o).
Proof. apply fold_left_app. Qed.

Lemma replay_inert (l : list Event) (o : PropagationServer) :
  Forall inert l -> replay l o = o.
Proof.
  intros H. revert o. induction H as [| e l He _ IH]; intros o; [done |].
  simpl. destruct e; simpl in *; try done; apply IH.
Qed.

Lemma exec_replay (W : World) {A : Type} (p : Prog A) (m : Machine) res m' :
  exec W p m = (res, m') ->
  exists new, trace m' = trace m ++ new /\ self m' = replay new (self m).
Proof.
  revert m. induction p as [a | e | r k IH | k IH | f v k IH | o k IH | u k IH];
    intros m He; simpl in He.
  - inversion He; subst. exists []. by rewrite app_nil_r.
  - inversion He; subst. exists []. by rewrite app_nil_r.
  - destruct (IH _ _ He) as (new & Ht & Hs). exists (EvRequest r :: new).
    simpl in *. by rewrite Ht, <- app_assoc.
  - exact (IH _ _ He).
  - destruct (IH _ He) as (new & Ht & Hs). exists (EvAssign f v :: new).
    simpl in *. by rewrite Ht, <- app_assoc.
  - destruct (IH _ He) as (new & Ht & Hs). exists (EvNew o :: new).
    simpl in *. by rewrite Ht, <- app_assoc.
  - destruct (IH _ He) as (new & Ht & Hs). exists (EvUi u :: new).
    simpl in *. by rewrite Ht, <- app_assoc.
Qed.

(** A run of a program that respects [Inv] and [P], with the object
    replayed from the history. *)
Lemma exec_run (W : World) {A : Type} Inv P (p : Prog A) (m : Machine) res m' :
  respects Inv P p -> Inv (self m) -> exec W p m = (res, m') ->
  Inv (self m') /\
  exists new, trace m' = trace m ++ new /\ Forall P new /\
              self m' = replay new (self m).
Proof.
  intros Hp Hi He.
  destruct (exec_respects W Inv P p m res m' Hp Hi He) as (Hi' & new & Ht & Hn).
  destruct (exec_replay W p m res m' He) as (new' & Ht' & Hs').
  rewrite Ht in Ht'. apply app_inv_head in Ht'. subst new'.
  split; [done |]. by exists new.
Qed.

(** A method that leaves the object alone, run on it. *)
Lemma exec_frozen (W : World) {A : Type} (P : Event -> Prop) (p : Prog A)
    (m : Machine) res m' :
  respects (eq (self m)) P p -> exec W p m = (res, m') ->
  self m' = self m /\ exists new, trace m' = trace m ++ new /\ Forall P new.
Proof.
  intros Hp He.
  destruct (exec_respects W _ P p m res m' Hp eq_refl He) as (Hi' & new & Ht & Hn).
  split; [done |]. by exists new.
Qed.

(** ** The phases of an upload *)

(** What the constructor, the wallet and the store probe may leave. *)
Definition setup_event (e : Event) : Prop :=
  match e with
  | EvRequest getOrCreateSSLCerts => True
  | EvRequest (Wallet_load _) => True
  | EvRequest (getPublicSyntheticKey _) => True
  | EvRequest (fs_readFileSync _) => True
  | EvRequest (axios_head (StoreUrl _ _ _) _) => True
  | EvNew o => sessionId o = "" /\ username o = None /\ password o = None
  | EvAssign F_wallet _ => True
  | EvAssign F_publicKey _ => True
  | EvUi u => is_commit_entry (EvUi u) = false
  | _ => False
  end.

(** The object right after the probe. *)
Definition fresh (storeId0 ipAddress0 : string) (o : PropagationServer) : Prop :=
  storeId o = storeId0 /\ ipAddress o = ipAddress0 /\ sessionId o = "" /\
  username o = None /\ password o = None.

Section Phases.

Context (imports : Imports) (W : World).

Local Open Scope run_scope.

(** Construction, wallet and probe: the common start of both operations. *)
Definition probe_phase (storeId0 rootHash ipAddress0 : string) : Run (bool * bool) :=
  lift W (constructor ipAddress0 storeId0) ;;
  lift W initializeWallet ;;
  lift W (checkStoreExists (Some rootHash)).

(** If the store does not exist, prompt for credentials. *)
Definition credentials_phase (storeId0 : string) (storeExists : bool) : Run unit :=
  if negb storeExists
  then
    lift W (out (console_log ("Store " +:+ storeId0
                    +:+ " does not exist. Prompting for credentials..."))) ;;
    o <- lift W this ;;
    credentials <- lift W (await (promptCredentials (ipAddress o))) ;;
    lift W (set F_username (cred_username credentials)) ;;
    lift W (set F_password (cred_password credentials))
  else run_ret tt.

(** Session start, transfers and commit. *)
Definition transfer_phase (storeId0 rootHash : string) (schedule : list Choice)
  : Run unit :=
  lift W (startUploadSession imports rootHash) ;;
  files <- lift W (await (getFileSetForRootHash storeId0 rootHash)) ;;
  asyncPool W 3
    (map (fun file => {| label := name file; dataPath := path file |}) files)
    (fun task => uploadFile imports (label task) (dataPath task)) schedule ;;
  lift W commitUploadSession ;;
  lift W (out (console_log ("✔ All files have been uploaded to DataStore "
                 +:+ storeId0 +:+ "."))).

Lemma uploadStore_phases (storeId0 rootHash ipAddress0 : string)
    (schedule : list Choice) (m0 : Machine) :
  uploadStore imports W storeId0 rootHash ipAddress0 schedule m0 =
  (probe <- probe_phase storeId0 rootHash ipAddress0 ;;
   credentials_phase storeId0 (fst probe) ;;
   if snd probe
   then lift W (out (console_log ("Root hash " +:+ rootHash
                       +:+ " already exists in the store. Skipping upload.")))
   else transfer_phase storeId0 rootHash schedule) m0.
Proof.
  unfold uploadStore, probe_phase, credentials_phase, transfer_phase, run_bind, lift.
  destruct (exec W (constructor ipAddress0 storeId0) m0) as [[[] | e] ma]; [| done].
  destruct (exec W initializeWallet ma) as [[[] | e] mb]; [| done].
  destruct (exec W (checkStoreExists (Some rootHash)) mb) as [[[se rhx] | e] m1];
    [| done].
  reflexivity.
Qed.

Lemma downloadStore_phases (storeId0 rootHash ipAddress0 : string)
    (schedule : list Choice) (m0 : Machine) :
  downloadStore imports W storeId0 rootHash ipAddress0 schedule m0 =
  match probe_phase storeId0 rootHash ipAddress0 m0 with
  | Some (Resolved probe, m1) =>
      if negb (fst probe) || negb (snd probe)
      then Some (Rejected (Error ("Store " +:+ storeId0 +:+ " does not exist.")), m1)
      else
        (datFileContent <- lift W (fetchFile (rootHash +:+ ".dat")) ;;
         match manifest_entries imports datFileContent with
         | Rejected e => run_throw e
         | Resolved entries =>
             asyncPool W 5
               (map (fun entry =>
                       {| label := hex_to_utf8 imports (fst entry);
                          dataPath := getFilePathFromSha256 imports (snd entry) "data" |})
                  entries)
               (fun task => downloadFile imports (label task) (dataPath task))
               schedule ;;
             lift W (await (fs_writeFileSync
                       (path_join imports
                          [STORE_PATH imports; storeId0; rootHash +:+ ".dat"])
                       datFileContent)) ;;
             lift W (await (generateManifestFile storeId0)) ;;
             lift W (out (console_log ("✔ All files have been downloaded to "
                            +:+ storeId0 +:+ ".")))
         end) m1
  | Some (Rejected e, m1) => Some (Rejected e, m1)
  | None => None
  end.
Proof.
  unfold downloadStore, probe_phase, run_bind, lift.
  destruct (exec W (constructor ipAddress0 storeId0) m0) as [[[] | e] ma]; [| done].
  destruct (exec W initializeWallet ma) as [[[] | e] mb]; [| done].
  destruct (exec W (checkStoreExists (Some rootHash)) mb) as [[[se rhx] | e] m1];
    [| done].
  destruct se, rhx; reflexivity.
Qed.

End Phases.

(** *** Construction, wallet and probe *)

Lemma fresh_assign_wallet st ip v o : fresh st ip o -> fresh st ip (assign F_wallet v o).
Proof. intros H. exact H. Qed.

Lemma fresh_assign_publicKey st ip v o :
  fresh st ip o -> fresh st ip (assign F_publicKey v o).
Proof. intros H. exact H. Qed.

Lemma initializeWallet_setup st ip :
  respects (fresh st ip) setup_event initializeWallet.
Proof.
  unfold initializeWallet. respects_walk; try exact I.
  - apply fresh_assign_wallet.
  - apply fresh_assign_publicKey.
Qed.

Lemma checkStoreExists_setup st ip q :
  respects (fresh st ip) setup_event (checkStoreExists q).
Proof.
  unfold checkStoreExists. respects_walk; try exact I; try reflexivity.
  apply createHttpsAgent_frozen. intros f. exact I.
Qed.

Section PhaseRuns.

Context (imports : Imports) (W : World).

Lemma constructor_run (storeId0 ipAddress0 : string) (m0 : Machine) :
  exec W (constructor ipAddress0 storeId0) m0 =
  match W (trace m0) getOrCreateSSLCerts with
  | Resolved certs =>
      (Resolved tt,
       create {| storeId := storeId0; sessionId := ""; publicKey := "";
                 wallet := None; ipAddress := ipAddress0; certPath := fst certs;
                 keyPath := snd certs; username := None; password := None |}
         (record (EvRequest getOrCreateSSLCerts) m0))
  | Rejected e => (Rejected e, record (EvRequest getOrCreateSSLCerts) m0)
  end.
Proof.
  unfold constructor. rewrite exec_await_bind.
  by destruct (W (trace m0) getOrCreateSSLCerts).
Qed.

Lemma probe_phase_run (storeId0 rootHash ipAddress0 : string) (m0 : Machine) :
  exists r m1 setup,
    probe_phase W storeId0 rootHash ipAddress0 m0 = Some (r, m1) /\
    trace m1 = trace m0 ++ setup /\
    Forall setup_event setup /\
    self m1 = replay setup (self m0) /\
    (forall probe, r = Resolved probe ->
       fresh storeId0 ipAddress0 (self m1) /\ exists o, EvNew o ∈ setup).
Proof.
  unfold probe_phase, run_bind, lift.
  rewrite constructor_run.
  destruct (W (trace m0) getOrCreateSSLCerts) as [certs | e] eqn:Ec.
  2:{ eexists _, _, [_]. split; [reflexivity |]. simpl.
      split; [done |]. split; [by repeat constructor |]. split; [done |].
      intros probe Hp. discriminate. }
  cbv beta iota.
  set (o := {| storeId := storeId0; sessionId := ""; publicKey := "";
               wallet := None; ipAddress := ipAddress0; certPath := fst certs;
               keyPath := snd certs; username := None; password := None |}).
  set (ma := create o (record (EvRequest getOrCreateSSLCerts) m0)).
  assert (Hfa : fresh storeId0 ipAddress0 (self ma)) by (by repeat split).
  assert (Hta : trace ma = trace m0 ++ [EvRequest getOrCreateSSLCerts; EvNew o])
    by (simpl; by rewrite <- app_assoc).
  assert (Hsa : self ma = replay [EvRequest getOrCreateSSLCerts; EvNew o] (self m0))
    by done.
  assert (Hna : Forall setup_event [EvRequest getOrCreateSSLCerts; EvNew o])
    by (by repeat constructor).
  destruct (exec W initializeWallet ma) as [rb mb] eqn:Eb.
  destruct (exec_run W _ _ _ _ _ _ (initializeWallet_setup storeId0 ipAddress0) Hfa Eb)
    as (Hfb & nb & Htb & Hnb & Hsb).
  destruct rb as [[] | e].
  2:{ eexists _, _, (_ ++ nb). split; [reflexivity |].
      rewrite Htb, Hta, <- app_assoc. split; [done |].
      split; [by apply Forall_app |].
      split; [by rewrite replay_app, <- Hsa |]. intros probe Hp. discriminate. }
  destruct (exec W (checkStoreExists (Some rootHash)) mb) as [rc mc] eqn:Ecs.
  destruct (exec_run W _ _ _ _ _ _
              (checkStoreExists_setup storeId0 ipAddress0 (Some rootHash)) Hfb Ecs)
    as (Hfc & nc & Htc & Hnc & Hsc).
  exists rc, mc, ([EvRequest getOrCreateSSLCerts; EvNew o] ++ nb ++ nc).
  split; [by destruct rc |].
  split; [by rewrite Htc, Htb, Hta, <- !app_assoc |].
  split; [apply Forall_app; split; [done |]; apply Forall_app; by split |].
  split; [by rewrite !replay_app, <- Hsa, <- Hsb |].
  intros probe Hp. split; [done |]. exists o.
  apply elem_of_app. left. apply elem_of_cons. right. apply elem_of_cons. by left.
Qed.

(** *** Credentials *)

Definition prompting_log (storeId0 : string) : Event :=
  EvUi (console_log ("Store " +:+ storeId0
                       +:+ " does not exist. Prompting for credentials...")).

Lemma credentials_phase_exists (storeId0 : string) (m1 : Machine) :
  credentials_phase W storeId0 true m1 = Some (Resolved tt, m1).
Proof. reflexivity. Qed.

Lemma credentials_phase_missing (storeId0 : string) (m1 : Machine) :
  let asked :=
    record (EvRequest (promptCredentials (ipAddress (self m1))))
      (record (prompting_log storeId0) m1) in
  credentials_phase W storeId0 false m1 =
  Some match W (trace m1 ++ [prompting_log storeId0])
               (promptCredentials (ipAddress (self m1))) with
       | Resolved c =>
           (Resolved tt,
            store F_password (cred_password c)
              (store F_username (cred_username c) asked))
       | Rejected e => (Rejected e, asked)
       end.
Proof.
  unfold credentials_phase, run_bind, lift. simpl.
  by destruct (W _ (promptCredentials _)).
Qed.

End PhaseRuns.

(** ** The claims about the start of the two operations *)

Definition skipping_log (rootHash : string) : Event :=
  EvUi (console_log ("Root hash " +:+ rootHash
                       +:+ " already exists in the store. Skipping upload.")).

Lemma setup_event_quiet (e : Event) :
  setup_event e ->
  is_prompt e = false /\ is_session_start e = false /\ is_nonce_request e = false /\
  is_put e = false /\ is_commit e = false /\ is_get e = false /\
  is_commit_entry e = false /\ is_session_write e = false /\
  session_read e = None /\ is_pool_event e = false /\ auth_of e = None.
Proof.
  destruct e as [r | o | f v | u | l n | i | i ok]; simpl; try tauto;
    try (destruct r; try tauto; destruct url; tauto);
    try (destruct f; tauto);
    try (intros ->; tauto).
Qed.

Section StartClaims.

Context (imports : Imports) (W : World).

(** The root hash is already on the peer: what is left of [uploadStore]
    after the probe is the credentials step and the skip message. *)
Lemma uploadStore_short_circuit (storeId0 rootHash ipAddress0 : string)
    (schedule : list Choice) (m0 m1 : Machine) (se : bool) :
  probe_phase W storeId0 rootHash ipAddress0 m0 = Some (Resolved (se, true), m1) ->
  uploadStore imports W storeId0 rootHash ipAddress0 schedule m0 =
  match credentials_phase W storeId0 se m1 with
  | Some (Resolved _, m2) => Some (Resolved tt, record (skipping_log rootHash) m2)
  | Some (Rejected e, m2) => Some (Rejected e, m2)
  | None => None
  end.
Proof.
  intros Hp. rewrite uploadStore_phases. unfold run_bind at 1. rewrite Hp.
  cbv beta iota. unfold run_bind, fst, snd.
  destruct (credentials_phase W storeId0 se m1) as [[[[] | e] m2] |]; reflexivity.
Qed.

Lemma probe_phase_facts (storeId0 rootHash ipAddress0 : string) (m0 m1 : Machine)
    (probe : bool * bool) :
  probe_phase W storeId0 rootHash ipAddress0 m0 = Some (Resolved probe, m1) ->
  fresh storeId0 ipAddress0 (self m1) /\
  exists setup, trace m1 = trace m0 ++ setup /\ Forall setup_event setup /\
                self m1 = replay setup (self m0) /\ exists o, EvNew o ∈ setup.
Proof.
  intros Hp.
  destruct (probe_phase_run W storeId0 rootHash ipAddress0 m0)
    as (r & m1' & setup & Hr & Ht & Hn & Hs & Hf).
  rewrite Hp in Hr. inversion Hr; subst r m1'; clear Hr.
  destruct (Hf probe eq_refl) as [Hfr Hnew].
  split; [done |]. by exists setup.
Qed.

End StartClaims.

(** A store the peer lacks although it reports the root hash, and an
    operator whose terminal cannot prompt. *)
Definition root_hash_without_store_no_terminal : Scenario := {|
  store_exists_header := Some "false";
  has_root_hash_header := Some "true";
  prompt_reply := Rejected (Error "no terminal");
  file_exists_header := fun _ => Some "false";
  put_reply := fun _ => Resolved tt;
  content_length_header := Some "20";
  local_files := [];
|}.

(** The same peer, and an operator who answers. *)
Definition root_hash_without_store : Scenario := {|
  store_exists_header := Some "false";
  has_root_hash_header := Some "true";
  prompt_reply := Resolved {| cred_username := "alice"; cred_password := "secret" |};
  file_exists_header := fun _ => Some "false";
  put_reply := fun _ => Resolved tt;
  content_length_header := Some "20";
  local_files := [];
|}.

(** A peer that has the store and the root hash. *)
Definition replicated : Scenario := {|
  store_exists_header := Some "true";
  has_root_hash_header := Some "true";
  prompt_reply := Rejected (Error "no terminal");
  file_exists_header := fun _ => Some "false";
  put_reply := fun _ => Resolved tt;
  content_length_header := Some "20";
  local_files := [];
|}.

(** The machine after construction, wallet and probe in the scripted
    worlds, the probe having found the store or not. *)
Definition demo_probed (found : bool) : Machine :=
  let o := {| storeId := "store1"; sessionId := ""; publicKey := "";
              wallet := None; ipAddress := "10.0.0.1";
              certPath := "client.cert"; keyPath := "client.key";
              username := None; password := None |} in
  {| self := assign F_publicKey "a1b2" (assign F_wallet "wallet" o);
     trace :=
       [EvRequest getOrCreateSSLCerts; EvNew o;
        EvRequest (Wallet_load "default"); EvAssign F_wallet "wallet";
        EvRequest (getPublicSyntheticKey "wallet"); EvAssign F_publicKey "a1b2";
        EvUi (spinner_start "Checking if store store1 exists...");
        EvRequest (fs_readFileSync "client.cert");
        EvRequest (fs_readFileSync "client.key");
        EvRequest (axios_head (StoreUrl "10.0.0.1" "store1" (Some "root1"))
                     demo_agent);
        EvUi (if found
              then spinner_success "Store store1 exists on peer!"
              else spinner_error
                     "Store store1 does not exist. Credentials will be required to push.")]
  |}.

Section ShortCircuit.

Context (imports : Imports) (W : World).

(** C2, as the code has it. Skip-if-already-replicated: whenever the store
    probe reports rootHashExists = true, [uploadStore] ends without a
    start-session POST, without a nonce request, without a PUT and without
    a commit POST, whatever the schedule. It returns normally unless the
    credential prompt, which the code runs first when the store does not
    exist, rejects; it then fails with the error of the prompt. *)
Theorem uploadStore_skips_replicated_root_hash
    (storeId0 rootHash ipAddress0 : string) (schedule : list Choice)
    (m0 m1 : Machine) (se : bool) :
  probe_phase W storeId0 rootHash ipAddress0 m0 = Some (Resolved (se, true), m1) ->
  exists res m new,
    uploadStore imports W storeId0 rootHash ipAddress0 schedule m0 = Some (res, m) /\
    trace m = trace m0 ++ new /\
    Forall (fun e => is_session_start e = false /\ is_nonce_request e = false /\
                     is_put e = false /\ is_commit e = false) new /\
    (res = Resolved tt <->
     se = true \/
     exists c, W (trace m1 ++ [prompting_log storeId0]) (promptCredentials ipAddress0)
               = Resolved c) /\
    (forall e, res = Rejected e <->
     se = false /\
     W (trace m1 ++ [prompting_log storeId0]) (promptCredentials ipAddress0)
       = Rejected e).
Proof.
  intros Hp.
  destruct (probe_phase_facts W _ _ _ _ _ _ Hp)
    as ((_ & Hip & _) & setup & Ht & Hn & _).
  assert (Hq : Forall (fun e => is_session_start e = false /\
                 is_nonce_request e = false /\ is_put e = false /\
                 is_commit e = false) setup).
  { eapply Forall_impl; [exact Hn |]. intros e He.
    apply setup_event_quiet in He. tauto. }
  rewrite (uploadStore_short_circuit imports W _ _ _ schedule _ _ _ Hp).
  destruct se.
  - rewrite credentials_phase_exists.
    exists (Resolved tt), (record (skipping_log rootHash) m1),
           (setup ++ [skipping_log rootHash]).
    split; [done |]. split; [by simpl; rewrite Ht, <- app_assoc |].
    split; [apply Forall_app; split; [done | by repeat constructor] |].
    split; [split; [by left | done] |].
    intros e. split; [done | by intros [? _]].
  - rewrite credentials_phase_missing, Hip.
    destruct (W (trace m1 ++ [prompting_log storeId0])
                (promptCredentials ipAddress0)) as [c | e] eqn:Ew.
    + eexists (Resolved tt), _, (setup ++ [_; _; _; _; _]).
      split; [reflexivity |]. split; [by simpl; rewrite Ht, <- !app_assoc |].
      split; [apply Forall_app; split; [done | by repeat constructor] |].
      split; [split; [intros _; right; by exists c | done] |].
      intros e. split; [done | by intros [_ ?]].
    + eexists (Rejected e), _, (setup ++ [_; _]).
      split; [reflexivity |]. split; [by simpl; rewrite Ht, <- !app_assoc |].
      split; [apply Forall_app; split; [done | by repeat constructor] |].
      split; [split; [done |]; intros [Hse | [c Hc]]; discriminate |].
      intros e'. split; [by intros [= ->] | by intros [_ [= ->]]].
Qed.

(** C7, as the code has it. The credential step precedes the short-circuit:
    when the probe reports rootHashExists = true and the store exists,
    [uploadStore] logs the skip and returns; when the store does not exist
    it first prompts for credentials, once, and only then (the prompt
    having resolved, and the credentials being stored) logs the skip and
    returns; a prompt that rejects ends the operation with that error.
    The probe itself never prompts. *)
Theorem uploadStore_prompts_before_short_circuit
    (storeId0 rootHash ipAddress0 : string) (schedule : list Choice)
    (m0 m1 : Machine) (se : bool) :
  probe_phase W storeId0 rootHash ipAddress0 m0 = Some (Resolved (se, true), m1) ->
  let asked :=
    record (EvRequest (promptCredentials ipAddress0))
      (record (prompting_log storeId0) m1) in
  let reply :=
    W (trace m1 ++ [prompting_log storeId0]) (promptCredentials ipAddress0) in
  (exists setup, trace m1 = trace m0 ++ setup /\
                 Forall (fun e => is_prompt e = false) setup) /\
  (se = true ->
   uploadStore imports W storeId0 rootHash ipAddress0 schedule m0 =
     Some (Resolved tt, record (skipping_log rootHash) m1)) /\
  (se = false -> forall c, reply = Resolved c ->
   uploadStore imports W storeId0 rootHash ipAddress0 schedule m0 =
     Some (Resolved tt,
           record (skipping_log rootHash)
             (store F_password (cred_password c)
                (store F_username (cred_username c) asked)))) /\
  (se = false -> forall e, reply = Rejected e ->
   uploadStore imports W storeId0 rootHash ipAddress0 schedule m0 =
     Some (Rejected e, asked)).
Proof.
  intros Hp asked reply.
  destruct (probe_phase_facts W _ _ _ _ _ _ Hp)
    as ((_ & Hip & _) & setup & Ht & Hn & _).
  rewrite (uploadStore_short_circuit imports W _ _ _ schedule _ _ _ Hp).
  split; [| split; [| split]].
  - exists setup. split; [done |].
    eapply Forall_impl; [exact Hn |]. intros e He.
    apply setup_event_quiet in He. tauto.
  - intros ->. by rewrite credentials_phase_exists.
  - intros -> c Hc. rewrite credentials_phase_missing, Hip.
    fold reply. by rewrite Hc.
  - intros -> e He. rewrite credentials_phase_missing, Hip.
    fold reply. by rewrite He.
Qed.

End ShortCircuit.

Lemma uploadStore_skips_replicated_root_hash_witness :
  exists res m new,
    uploadStore demo_imports (scripted replicated) "store1" "root1" "10.0.0.1"
      [] boot = Some (res, m) /\
    trace m = trace boot ++ new /\
    Forall (fun e => is_session_start e = false /\ is_nonce_request e = false /\
                     is_put e = false /\ is_commit e = false) new /\
    (res = Resolved tt <->
     true = true \/
     exists c, scripted replicated
                 (trace (demo_probed true) ++ [prompting_log "store1"])
                 (promptCredentials "10.0.0.1") = Resolved c) /\
    (forall e, res = Rejected e <->
     true = false /\
     scripted replicated (trace (demo_probed true) ++ [prompting_log "store1"])
       (promptCredentials "10.0.0.1") = Rejected e).
Proof.
  apply (uploadStore_skips_replicated_root_hash demo_imports (scripted replicated)
           "store1" "root1" "10.0.0.1" [] boot (demo_probed true) true).
  vm_compute. reflexivity.
Defined.

(** C2, as the spec has it, fails: the probe reports rootHashExists = true,
    the store does not exist, the prompt rejects, and [uploadStore] ends
    with the prompt's error instead of returning normally. *)
Lemma uploadStore_skip_fails_at_prompt :
  probe_phase (scripted root_hash_without_store_no_terminal)
    "store1" "root1" "10.0.0.1" boot
  = Some (Resolved (false, true), demo_probed false) /\
  uploadStore demo_imports (scripted root_hash_without_store_no_terminal)
    "store1" "root1" "10.0.0.1" [] boot
  = Some (Rejected (Error "no terminal"),
          record (EvRequest (promptCredentials "10.0.0.1"))
            (record (prompting_log "store1") (demo_probed false))).
Proof. split; vm_compute; reflexivity. Qed.

Lemma uploadStore_prompts_before_short_circuit_witness :
  uploadStore demo_imports (scripted root_hash_without_store)
    "store1" "root1" "10.0.0.1" [] boot =
  Some (Resolved tt,
        record (skipping_log "root1")
          (store F_password "secret"
             (store F_username "alice"
                (record (EvRequest (promptCredentials "10.0.0.1"))
                   (record (prompting_log "store1") (demo_probed false)))))).
Proof.
  refine (proj1 (proj2 (proj2
    (uploadStore_prompts_before_short_circuit demo_imports
       (scripted root_hash_without_store) "store1" "root1" "10.0.0.1" []
       boot (demo_probed false) false _))) eq_refl
    {| cred_username := "alice"; cred_password := "secret" |} eq_refl).
  vm_compute. reflexivity.
Defined.

(** C7, as the spec has it, fails: the probe reports rootHashExists = true
    for a store that does not exist, and [uploadStore], which returns
    normally, has invoked the credential prompt. *)
Lemma uploadStore_short_circuit_prompts :
  probe_phase (scripted root_hash_without_store) "store1" "root1" "10.0.0.1" boot
  = Some (Resolved (false, true), demo_probed false) /\
  exists m,
    uploadStore demo_imports (scripted root_hash_without_store)
      "store1" "root1" "10.0.0.1" [] boot = Some (Resolved tt, m) /\
    Exists (fun e => is_prompt e = true) (trace m).
Proof.
  split; [vm_compute; reflexivity |].
  eexists. split; [vm_compute; reflexivity |].
  cbn [trace].
  repeat (first [by apply Exists_cons_hd | apply Exists_cons_tl]).
Qed.

(** ** Session start, file set and commit *)

(** How many events of a kind a history has. *)
Fixpoint count (f : Event -> bool) (evs : list Event) : nat :=
  match evs with
  | [] => 0
  | e :: evs' => (if f e then 1 else 0) + count f evs'
  end.

Lemma count_app (f : Event -> bool) (l1 l2 : list Event) :
  count f (l1 ++ l2) = count f l1 + count f l2.
Proof. induction l1 as [| e l1 IH]; simpl; [done |]. rewrite IH. lia. Qed.

Lemma count_none (f : Event -> bool) (l : list Event) :
  Forall (fun e => f e = false) l -> count f l = 0.
Proof. induction 1 as [| e l He _ IH]; simpl; [done |]. by rewrite He, IH. Qed.

Lemma count_zero_none (f : Event -> bool) (l : list Event) :
  count f l = 0 -> Forall (fun e => f e = false) l.
Proof.
  induction l as [| e l IH]; simpl; [by constructor |].
  destruct (f e) eqn:Ef; [lia |]. intros H. constructor; auto.
Qed.

(** What [startUploadSession] may leave, [a] being the credentials of the
    object it runs on. *)
Definition start_event (a : option Credentials) (e : Event) : Prop :=
  match e with
  | EvRequest (fs_existsSync _) => True
  | EvRequest (fs_readFileSync _) => True
  | EvRequest (axios_post_upload _ _ _ _ a') => a' = a
  | EvUi u => is_commit_entry (EvUi u) = false
  | EvAssign F_sessionId _ => True
  | _ => False
  end.

(** The start-session POST of [startUploadSession] on the object [o]. *)
Definition session_post (imports : Imports) (o : PropagationServer)
    (rootHash : string) (agent : Agent) : Request :=
  axios_post_upload (UploadUrl (ipAddress o) (storeId o) rootHash)
    (path_join imports [STORE_PATH imports; storeId o; rootHash +:+ ".dat"])
    (rootHash +:+ ".dat") agent (basic_auth o).

Section SessionRuns.

Context (imports : Imports) (W : World).

Lemma is_read_start_event a (l : list Event) :
  Forall is_read l ->
  Forall (fun e => start_event a e /\ is_session_write e = false /\
                   is_session_start e = false) l.
Proof. intros H. eapply Forall_impl; [exact H |]. intros e [f ->]. done. Qed.

Lemma startUploadSession_run (rootHash : string) (m : Machine) res m' :
  exec W (startUploadSession imports rootHash) m = (res, m') ->
  exists new,
    trace m' = trace m ++ new /\
    Forall (start_event (basic_auth (self m))) new /\
    ((exists e, res = Rejected e /\ self m' = self m /\
                Forall (fun e => is_session_write e = false) new) \/
     (exists hist agent sid done,
        res = Resolved tt /\
        new = hist ++ [EvRequest (session_post imports (self m) rootHash agent);
                       EvAssign F_sessionId sid; EvUi done] /\
        W (trace m ++ hist) (session_post imports (self m) rootHash agent)
          = Resolved sid /\
        Forall (fun e => is_session_write e = false /\ is_session_start e = false)
          hist /\
        self m' = assign F_sessionId sid (self m))).
Proof.
  unfold startUploadSession.
  rewrite exec_this_bind, exec_out_bind, exec_try_catch, exec_this_bind.
  cbv zeta. rewrite exec_await_bind.
  set (spin := EvUi (spinner_start _)).
  set (dat := path_join imports _).
  change (trace (record spin m)) with (trace m ++ [spin]).
  change (self (record spin m)) with (self m).
  destruct (W (trace m ++ [spin]) (fs_existsSync dat)) as [[] | e] eqn:Ex.
  - (* the file is there *)
    cbv match beta. simpl negb. cbv iota.
    rewrite exec_bind.
    destruct (exec W createHttpsAgent (record (EvRequest (fs_existsSync dat))
                                         (record spin m))) as [[agent | e] ma] eqn:Ea.
    + destruct (createHttpsAgent_run W _ _ _ Ea) as (Hs & reads & Ht & Hr).
      simpl in Hs, Ht.
      rewrite exec_this_bind, Hs. cbv zeta.
      rewrite exec_await_bind.
      set (post := axios_post_upload _ _ _ _ _).
      destruct (W (trace ma) post) as [sid | e] eqn:Ep.
      * simpl. intros H. inversion H; subst res m'; clear H.
        eexists. split; [simpl; rewrite Ht, <- !app_assoc; reflexivity |].
        pose proof (is_read_start_event (basic_auth (self m)) reads Hr) as Hr'.
        split.
        { constructor; [done |]. constructor; [done |]. apply Forall_app. split.
          - eapply Forall_impl; [exact Hr' | by intros ? (? & ? & ?)].
          - by repeat constructor. }
        right. exists ([spin; EvRequest (fs_existsSync dat)] ++ reads), agent, sid.
        eexists. split; [done |].
        split; [by rewrite <- !app_assoc |].
        split; [rewrite Ht, <- !app_assoc in Ep; exact Ep |].
        split; [| simpl; rewrite Hs; reflexivity].
        constructor; [done |]. constructor; [done |].
        eapply Forall_impl; [exact Hr' | by intros ? (? & ? & ?)].
      * simpl. intros H. inversion H; subst res m'; clear H.
        eexists. split; [simpl; rewrite Ht, <- !app_assoc; reflexivity |].
        pose proof (is_read_start_event (basic_auth (self m)) reads Hr) as Hr'.
        split.
        { constructor; [done |]. constructor; [done |]. apply Forall_app. split.
          - eapply Forall_impl; [exact Hr' | by intros ? (? & ? & ?)].
          - by repeat constructor. }
        left. exists e. split; [done |]. split; [done |].
        constructor; [done |]. constructor; [done |]. apply Forall_app. split.
        -- eapply Forall_impl; [exact Hr' | by intros ? (? & ? & ?)].
        -- by repeat constructor.
    + destruct (createHttpsAgent_run W _ _ _ Ea) as (Hs & reads & Ht & Hr).
      simpl in Hs, Ht.
      simpl. intros H. inversion H; subst res m'; clear H.
      eexists. split; [simpl; rewrite Ht, <- !app_assoc; reflexivity |].
      pose proof (is_read_start_event (basic_auth (self m)) reads Hr) as Hr'.
      split.
      { constructor; [done |]. constructor; [done |]. apply Forall_app. split.
        - eapply Forall_impl; [exact Hr' | by intros ? (? & ? & ?)].
        - by repeat constructor. }
      left. exists e. split; [done |]. split; [done |].
      constructor; [done |]. constructor; [done |]. apply Forall_app. split.
      * eapply Forall_impl; [exact Hr' | by intros ? (? & ? & ?)].
      * by repeat constructor.
  - (* the file is missing *)
    simpl. intros H. inversion H; subst res m'; clear H.
    eexists. split; [simpl; rewrite <- !app_assoc; reflexivity |].
    split; [by repeat constructor |].
    left. eexists. split; [done |]. split; [done |]. by repeat constructor.
  - (* existsSync threw *)
    simpl. intros H. inversion H; subst res m'; clear H.
    eexists. split; [simpl; rewrite <- !app_assoc; reflexivity |].
    split; [by repeat constructor |].
    left. eexists. split; [done |]. split; [done |]. by repeat constructor.
Qed.

End SessionRuns.

Lemma prefix_app (s x : string) : String.prefix s (s +:+ x) = true.
Proof.
  induction s as [| c s IH]; simpl.
  - by destruct x.
  - destruct (ascii_dec c c); [exact IH | congruence].
Qed.

Lemma is_commit_entry_spinner (st : string) :
  is_commit_entry
    (EvUi (spinner_start ("Committing upload session for store " +:+ st +:+ "...")))
  = true.
Proof. unfold is_commit_entry. apply prefix_app. Qed.

Section CommitRun.

Context (W : World).

Lemma commitUploadSession_run (m : Machine) res m' :
  exec W commitUploadSession m = (res, m') ->
  self m' = self m /\
  exists entry rest,
    trace m' = trace m ++ entry :: rest /\
    is_commit_entry entry = true /\
    Forall (frozen (self m)) (entry :: rest) /\
    Forall (fun e => is_commit_entry e = false) rest /\
    count is_commit rest <= 1 /\
    (forall d, res = Resolved d -> count is_commit rest = 1).
Proof.
  intros He.
  destruct (exec_frozen W (frozen (self m)) commitUploadSession m res m'
              (commitUploadSession_frozen (self m)) He) as (Hs & new & Ht & Hf).
  split; [done |].
  revert He. unfold commitUploadSession.
  rewrite exec_this_bind, exec_out_bind, exec_try_catch, exec_bind.
  set (spin := EvUi (spinner_start _)).
  destruct (exec W createHttpsAgent (record spin m)) as [[agent | e] ma] eqn:Ea;
    destruct (createHttpsAgent_run W _ _ _ Ea) as (Hsa & reads & Hta & Hr);
    simpl in Hsa, Hta.
  - rewrite exec_this_bind, Hsa. cbv zeta. rewrite exec_await_bind.
    set (post := axios_post_commit _ _ _).
    assert (Hreads : count is_commit reads = 0 /\
                     Forall (fun e => is_commit_entry e = false) reads).
    { split; [apply count_none |]; (eapply Forall_impl; [exact Hr |]);
        intros ? [f ->]; done. }
    destruct Hreads as [Hc0 Hne].
    destruct (W (trace ma) post) as [d | e] eqn:Ep; simpl; intros H;
      inversion H; subst res m'; clear H; simpl in Ht;
      rewrite Hta, <- !app_assoc in Ht; apply app_inv_head in Ht; subst new.
    + exists spin. eexists. split; [cbn [trace record]; rewrite Hta, <- !app_assoc; reflexivity |].
      split; [apply is_commit_entry_spinner |]. split; [exact Hf |].
      split; [apply Forall_app; split; [done | by repeat constructor] |].
      rewrite count_app, Hc0. simpl. split; [lia | done].
    + exists spin. eexists. split; [cbn [trace record]; rewrite Hta, <- !app_assoc; reflexivity |].
      split; [apply is_commit_entry_spinner |]. split; [exact Hf |].
      split; [apply Forall_app; split; [done | by repeat constructor] |].
      rewrite count_app, Hc0. simpl. split; [lia | discriminate].
  - simpl. intros H. inversion H; subst res m'; clear H. simpl in Ht.
    rewrite Hta, <- !app_assoc in Ht. apply app_inv_head in Ht. subst new.
    exists spin. eexists. split; [cbn [trace record]; rewrite Hta, <- !app_assoc; reflexivity |].
    split; [apply is_commit_entry_spinner |]. split; [exact Hf |].
    assert (Hreads : count is_commit reads = 0 /\
                     Forall (fun e => is_commit_entry e = false) reads).
    { split; [apply count_none |]; (eapply Forall_impl; [exact Hr |]);
        intros ? [f ->]; done. }
    destruct Hreads as [Hc0 Hne].
    split; [apply Forall_app; split; [done | by repeat constructor] |].
    rewrite count_app, Hc0. simpl. split; [lia | discriminate].
Qed.

End CommitRun.

(** ** Every way an upload can go *)

(** What a task that uploaded a file cannot end well without: a PUT for
    the data path of the file, or the message that the peer has it. *)
Definition file_served (t : Task) (e : Event) : Prop :=
  (exists ip store session file headers agent,
     e = EvRequest (axios_put (UploadFileUrl ip store session (dataPath t))
                      file headers agent)) \/
  e = EvUi (console_log ("File " +:+ label t +:+ " already exists. Skipping upload.")).

(** What a task that downloaded a file cannot end well without: the stream
    of a reply piped into the place of the file under STORE_PATH. *)
Definition file_fetched (imports : Imports) (t : Task) (e : Event) : Prop :=
  exists stream store,
    e = EvRequest (stream_to_file stream
                     (path_join imports [STORE_PATH imports; store; dataPath t])).

Lemma lookup_map {A B : Type} (g : A -> B) (l : list A) (i : nat) (x : A) :
  l !! i = Some x -> map g l !! i = Some (g x).
Proof.
  revert i. induction l as [| y l IH]; intros [| i] H; simpl in *; try done.
  - by injection H as ->.
  - by apply IH.
Qed.

Ltac owes_walk solve_owed :=
  repeat (cbn [owes bind try_catch];
          match goal with
          | |- forall _, _ => intro
          | |- True => exact I
          | |- _ \/ _ => first [left; solve [solve_owed] | right]
          | |- context [match ?x with Resolved _ => _ | Rejected _ => _ end] =>
              destruct x
          | |- context [if ?b then _ else _] => destruct b
          end).

Lemma uploadFile_owes (imports : Imports) (t : Task) :
  owes (file_served t) (uploadFile imports (label t) (dataPath t)).
Proof.
  unfold uploadFile, getFileNonce, createHttpsAgent, try_finally, await, this, out.
  owes_walk ltac:(first [by right | left; by eexists _, _, _, _, _, _]).
Qed.

Lemma downloadFile_owes (imports : Imports) (t : Task) :
  owes (file_fetched imports t) (downloadFile imports (label t) (dataPath t)).
Proof.
  unfold downloadFile, createHttpsAgent, try_finally, await, this, out.
  owes_walk ltac:(by eexists _, _).
Qed.

Section UploadOutcomes.

Context (imports : Imports) (W : World).
Context (storeId0 rootHash ipAddress0 : string).

(** The session was started: [hist] is what [startUploadSession] left
    before the POST, [post] the POST, [sid] the session of its reply. *)
Record session_started (m2 : Machine) (hist : list Event) (agent : Agent)
    (sid : string) (done : Ui) : Prop := {
  ss_events : Forall (start_event (basic_auth (self m2))) hist;
  ss_quiet :
    Forall (fun e => is_session_write e = false /\ is_session_start e = false) hist;
  ss_reply :
    W (trace m2 ++ hist) (session_post imports (self m2) rootHash agent)
      = Resolved sid;
  ss_done : is_commit_entry (EvUi done) = false;
}.

(** The events of a started session: the POST, the assignment of the
    session and the message. *)
Definition session_events (m2 : Machine) (agent : Agent) (sid : string)
    (done : Ui) : list Event :=
  [EvRequest (session_post imports (self m2) rootHash agent);
   EvAssign F_sessionId sid; EvUi done].

(** The scheduler ran [n] upload tasks to their end on the object [o]. *)
Record pool_ran (o : PropagationServer) (n : nat) (evs : list Event) : Prop := {
  pr_events : Forall (fun e => upload_task_event o e \/ is_task_mark e = true) evs;
  pr_peak : peak_ok 3 evs;
  pr_ended : forall i, i < n -> exists ok, EvTaskEnd i ok ∈ evs;
}.

Definition files_request : Event :=
  EvRequest (getFileSetForRootHash storeId0 rootHash).

(** The four ways the part after the credentials can go. *)
Inductive transfer_outcome (m2 : Machine) (res : Settled unit) (m : Machine) : Prop :=
| start_fails (start : list Event) (e : JsError) :
    res = Rejected e ->
    trace m = trace m2 ++ start ->
    self m = self m2 ->
    Forall (start_event (basic_auth (self m2))) start ->
    Forall (fun e => is_session_write e = false) start ->
    transfer_outcome m2 res m
| files_fail (hist : list Event) (agent : Agent) (sid : string) (done : Ui)
    (e : JsError) :
    session_started m2 hist agent sid done ->
    res = Rejected e ->
    trace m = trace m2 ++ hist
                ++ session_events m2 agent sid done ++ [files_request] ->
    self m = assign F_sessionId sid (self m2) ->
    transfer_outcome m2 res m
| pool_rejects (hist : list Event) (agent : Agent) (sid : string) (done : Ui)
    (files : list FileEntry) (evs : list Event) (e : JsError) :
    session_started m2 hist agent sid done ->
    W (trace m2 ++ hist ++ session_events m2 agent sid done)
      (getFileSetForRootHash storeId0 rootHash) = Resolved files ->
    pool_ran (assign F_sessionId sid (self m2)) (length files) evs ->
    ~ Forall (fun e => is_task_failure e = false) evs ->
    res = Rejected e ->
    trace m = trace m2 ++ hist
                ++ session_events m2 agent sid done
                ++ [files_request; EvPool 3 (length files)] ++ evs ->
    self m = assign F_sessionId sid (self m2) ->
    transfer_outcome m2 res m
| commit_runs (hist : list Event) (agent : Agent) (sid : string) (done : Ui)
    (files : list FileEntry) (evs : list Event) (entry : Event) (rest : list Event) :
    session_started m2 hist agent sid done ->
    W (trace m2 ++ hist ++ session_events m2 agent sid done)
      (getFileSetForRootHash storeId0 rootHash) = Resolved files ->
    pool_ran (assign F_sessionId sid (self m2)) (length files) evs ->
    Forall (fun e => is_task_failure e = false) evs ->
    is_commit_entry entry = true ->
    Forall (frozen (assign F_sessionId sid (self m2))) (entry :: rest) ->
    Forall (fun e => is_commit_entry e = false) rest ->
    count is_commit rest <= 1 ->
    (res = Resolved tt -> count is_commit rest = 1) ->
    trace m = trace m2 ++ hist
                ++ session_events m2 agent sid done
                ++ [files_request; EvPool 3 (length files)] ++ evs ++ entry :: rest ->
    self m = assign F_sessionId sid (self m2) ->
    (forall i f, files !! i = Some f -> EvTaskEnd i true ∈ evs ->
       Exists (file_served {| label := name f; dataPath := path f |}) evs) ->
    transfer_outcome m2 res m.

Lemma upload_task_event_not_pool o e :
  upload_task_event o e -> is_pool_event e = false.
Proof.
  intros [Hf _]. destruct e as [r | | | | | |]; simpl in *; try done.
Qed.

Lemma transfer_phase_run (schedule : list Choice) (m2 : Machine) res m :
  transfer_phase imports W storeId0 rootHash schedule m2 = Some (res, m) ->
  transfer_outcome m2 res m.
Proof.
  unfold transfer_phase, run_bind, lift.
  destruct (exec W (startUploadSession imports rootHash) m2) as [r3 m3] eqn:E3.
  destruct (startUploadSession_run imports W _ _ _ _ E3)
    as (start & Ht3 & Hev3 & [(e & -> & Hs3 & Hq3)
                             | (hist & agent & sid & done & -> & -> & Hrep & Hq & Hs3)]).
  { intros H. inversion H; subst res m; clear H. by eapply start_fails. }
  assert (Hss : session_started m2 hist agent sid done).
  { apply Forall_app in Hev3 as [Hh Ht]. apply Forall_cons in Ht as [Hp Ht].
    apply Forall_cons in Ht as [_ Ht]. apply Forall_cons in Ht as [Hd _].
    by constructor. }
  fold (session_events m2 agent sid done) in Ht3.
  rewrite exec_await.
  fold files_request. rewrite Ht3.
  destruct (W _ (getFileSetForRootHash storeId0 rootHash)) as [files | e] eqn:Ef.
  2:{ intros H. inversion H; subst res m; clear H.
      eapply files_fail; eauto. simpl. rewrite Ht3, <- !app_assoc. reflexivity. }
  cbv beta iota.
  set (m4 := record files_request m3).
  destruct (asyncPool W 3 _ _ schedule m4) as [[r5 m5] |] eqn:E5; [| done].
  destruct (asyncPool_run W 3 _ _ schedule
              (upload_task_event (self m4)) m4 r5 m5
              (upload_task_event_not_pool (self m4))
              (fun t => uploadFile_frozen imports (self m4) _ _) E5)
    as (Hs5 & evs & Ht5 & Hev5 & Hpk & Hend & Hres).
  destruct (asyncPool_serves W 3 _ _ schedule file_served m4 r5 m5
              (uploadFile_owes imports) E5) as (evs' & Hts & Hsv).
  rewrite Ht5 in Hts. apply app_inv_head in Hts. injection Hts as <-.
  assert (Hserved : forall i f, files !! i = Some f -> EvTaskEnd i true ∈ evs ->
            Exists (file_served {| label := name f; dataPath := path f |}) evs).
  { intros i f Hf. apply Hsv.
    exact (lookup_map (fun file => {| label := name file; dataPath := path file |})
             files i f Hf). }
  rewrite length_map in Ht5, Hend.
  change (self m4) with (self m3) in *. rewrite Hs3 in *.
  assert (Hpr : pool_ran (assign F_sessionId sid (self m2)) (length files) evs)
    by (by constructor).
  assert (Ht5' : trace m5 = trace m2 ++ hist
            ++ session_events m2 agent sid done
            ++ [files_request; EvPool 3 (length files)] ++ evs).
  { rewrite Ht5. unfold m4. simpl. rewrite Ht3, <- !app_assoc. reflexivity. }
  destruct r5 as [[] | e].
  2:{ intros H. inversion H; subst res m; clear H.
      apply (pool_rejects m2 _ _ hist agent sid done files evs e); auto.
      intros Hall. apply Hres in Hall. discriminate. }
  assert (Hok : Forall (fun e => is_task_failure e = false) evs) by (by apply Hres).
  destruct (exec W commitUploadSession m5) as [r6 m6] eqn:E6.
  destruct (commitUploadSession_run W _ _ _ E6)
    as (Hs6 & entry & rest & Ht6 & Hentry & Hfz & Hne & Hc1 & Hc).
  rewrite Hs5 in Hfz.
  destruct r6 as [d | e]; simpl; intros H; injection H as <- <-.
  all: fold files_request in Ht5'.
  - eapply (commit_runs m2 _ _ hist agent sid done files evs entry
              (rest ++ [EvUi (console_log ("✔ All files have been uploaded to DataStore "
                                             +:+ storeId0 +:+ "."))]));
      eauto.
    + apply Forall_cons in Hfz as [Hf1 Hf2]. constructor; [done |].
      apply Forall_app. split; [done | by repeat constructor].
    + apply Forall_app. split; [done | by repeat constructor].
    + rewrite count_app. simpl. lia.
    + intros _. rewrite count_app. simpl. rewrite (Hc d eq_refl). lia.
    + simpl. rewrite Ht6, Ht5', <- !app_assoc. simpl. reflexivity.
    + simpl. by rewrite Hs6, Hs5.
  - eapply (commit_runs m2 _ _ hist agent sid done files evs entry rest); eauto.
    + discriminate.
    + rewrite Ht6, Ht5', <- !app_assoc. simpl. reflexivity.
    + by rewrite Hs6, Hs5.
Qed.

(** The probe went through: [setup] is what it left. *)
Record probed (m0 m1 : Machine) (setup : list Event) : Prop := {
  pb_trace : trace m1 = trace m0 ++ setup;
  pb_events : Forall setup_event setup;
  pb_fresh : fresh storeId0 ipAddress0 (self m1);
  pb_self : self m1 = replay setup (self m0);
  pb_new : exists o, EvNew o ∈ setup;
}.

Definition prompt_request : Event := EvRequest (promptCredentials ipAddress0).

(** The credentials step went through: nothing when the store exists,
    else the log, the prompt and the two assignments. *)
Definition credentials_done (m1 : Machine) (se : bool) (creds : list Event)
    (m2 : Machine) : Prop :=
  trace m2 = trace m1 ++ creds /\
  ((se = true /\ creds = [] /\ self m2 = self m1) \/
   (se = false /\
    exists c,
      W (trace m1 ++ [prompting_log storeId0]) (promptCredentials ipAddress0)
        = Resolved c /\
      creds = [prompting_log storeId0; prompt_request;
               EvAssign F_username (cred_username c);
               EvAssign F_password (cred_password c)] /\
      self m2 = assign F_password (cred_password c)
                  (assign F_username (cred_username c) (self m1)))).

(** Every way [uploadStore] can go. *)
Inductive upload_outcome (m0 : Machine) (res : Settled unit) (m : Machine) : Prop :=
| probe_fails (setup : list Event) (e : JsError) :
    probe_phase W storeId0 rootHash ipAddress0 m0 = Some (Rejected e, m) ->
    res = Rejected e ->
    trace m = trace m0 ++ setup ->
    Forall setup_event setup ->
    self m = replay setup (self m0) ->
    upload_outcome m0 res m
| prompt_fails (setup : list Event) (m1 : Machine) (rhx : bool) (e : JsError) :
    probe_phase W storeId0 rootHash ipAddress0 m0 = Some (Resolved (false, rhx), m1) ->
    probed m0 m1 setup ->
    W (trace m1 ++ [prompting_log storeId0]) (promptCredentials ipAddress0)
      = Rejected e ->
    res = Rejected e ->
    trace m = trace m1 ++ [prompting_log storeId0; prompt_request] ->
    self m = self m1 ->
    upload_outcome m0 res m
| skipped (setup : list Event) (m1 : Machine) (se : bool) (creds : list Event)
    (m2 : Machine) :
    probe_phase W storeId0 rootHash ipAddress0 m0 = Some (Resolved (se, true), m1) ->
    probed m0 m1 setup ->
    credentials_done m1 se creds m2 ->
    res = Resolved tt ->
    trace m = trace m2 ++ [skipping_log rootHash] ->
    self m = self m2 ->
    upload_outcome m0 res m
| transferred (setup : list Event) (m1 : Machine) (se : bool) (creds : list Event)
    (m2 : Machine) :
    probe_phase W storeId0 rootHash ipAddress0 m0 = Some (Resolved (se, false), m1) ->
    probed m0 m1 setup ->
    credentials_done m1 se creds m2 ->
    transfer_outcome m2 res m ->
    upload_outcome m0 res m.

Lemma uploadStore_run (schedule : list Choice) (m0 : Machine) res m :
  uploadStore imports W storeId0 rootHash ipAddress0 schedule m0 = Some (res, m) ->
  upload_outcome m0 res m.
Proof.
  rewrite uploadStore_phases. unfold run_bind at 1.
  destruct (probe_phase_run W storeId0 rootHash ipAddress0 m0)
    as (r1 & m1 & setup & Hp & Ht1 & Hn1 & Hs1 & Hf1).
  rewrite Hp. destruct r1 as [[se rhx] | e].
  2:{ intros H. inversion H; subst res m; clear H. by eapply probe_fails. }
  destruct (Hf1 _ eq_refl) as [Hfresh Hnew].
  assert (Hpb : probed m0 m1 setup) by (by constructor).
  destruct Hfresh as (_ & Hip & _).
  unfold run_bind at 1. unfold fst, snd.
  assert (Hcreds :
    (exists creds m2, credentials_phase W storeId0 se m1 = Some (Resolved tt, m2) /\
                      credentials_done m1 se creds m2) \/
    (exists e, se = false /\
       W (trace m1 ++ [prompting_log storeId0]) (promptCredentials ipAddress0)
         = Rejected e /\
       credentials_phase W storeId0 se m1 =
         Some (Rejected e, record prompt_request (record (prompting_log storeId0) m1)))).
  { destruct se.
    - left. exists [], m1. split; [done |]. split; [by rewrite app_nil_r |].
      left. done.
    - rewrite credentials_phase_missing, Hip.
      destruct (W (trace m1 ++ [prompting_log storeId0])
                  (promptCredentials ipAddress0)) as [c | e] eqn:Ew.
      + left. eexists _, _. split; [reflexivity |].
        split; [simpl; rewrite <- !app_assoc; reflexivity |].
        right. split; [done |]. exists c. done.
      + right. exists e. done. }
  destruct Hcreds as [(creds & m2 & Hc & Hcd) | (e & -> & Hw & Hc)]; rewrite Hc.
  2:{ intros H. inversion H; subst res m; clear H.
      eapply prompt_fails; eauto. simpl. by rewrite <- !app_assoc. }
  destruct rhx.
  - unfold lift. simpl. intros H. inversion H; subst res m; clear H.
    eapply skipped; eauto.
  - intros H. eapply transferred; eauto. eapply transfer_phase_run; eauto.
Qed.

End UploadOutcomes.

(** ** What the events of each phase are not *)

Ltac table :=
  intros; simpl in *; try contradiction; try discriminate;
  repeat match goal with H : _ /\ _ |- _ => destruct H end;
  subst; repeat split; intros; simpl in *;
  try done; try congruence; try (by left); try (by right).

Lemma start_event_quiet (a : option Credentials) (e : Event) :
  start_event a e ->
  is_prompt e = false /\ is_commit e = false /\ is_commit_entry e = false /\
  is_pool_event e = false /\ is_task_failure e = false /\
  session_read e = None /\ (forall a', auth_of e = Some a' -> a' = a) /\
  (forall o, e <> EvNew o) /\
  (is_session_write e = false -> inert e).
Proof.
  destruct e as [r | o | f v | u | l n | i | i ok]; [destruct r | | destruct f | ..];
    table.
Qed.

Lemma frozen_quiet (o : PropagationServer) (e : Event) :
  frozen o e ->
  is_prompt e = false /\ is_session_start e = false /\
  is_session_write e = false /\ is_pool_event e = false /\
  is_task_failure e = false /\
  (session_read e = None \/ session_read e = Some (sessionId o)) /\
  (forall a, auth_of e = Some a -> a = basic_auth o) /\ inert e.
Proof.
  destruct e as [r | o' | f v | u | l n | i | i ok];
    [destruct r; try destruct url | ..]; table.
Qed.

Lemma task_mark_quiet (e : Event) :
  is_task_mark e = true ->
  is_prompt e = false /\ is_session_start e = false /\ is_commit e = false /\
  is_commit_entry e = false /\ is_session_write e = false /\
  session_read e = None /\ auth_of e = None /\ inert e.
Proof. destruct e; simpl; try discriminate; tauto. Qed.

Lemma pool_event_not_mark (e : Event) :
  is_pool_event e = false -> is_task_mark e = false.
Proof. by destruct e. Qed.

(** *** Cutting a history at an event *)

Lemma split_at_first {A : Type} (Q : A -> bool) (l1 l2 pre post : list A) (x : A) :
  l1 ++ l2 = pre ++ x :: post ->
  Forall (fun y => Q y = false) l1 -> Q x = true ->
  exists pre', pre = l1 ++ pre' /\ l2 = pre' ++ x :: post.
Proof.
  revert pre. induction l1 as [| y l1 IH]; intros pre Heq Hall Hx; simpl in *.
  - by exists pre.
  - apply Forall_cons in Hall as [Hy Hall].
    destruct pre as [| z pre]; simpl in Heq; inversion Heq; subst.
    + congruence.
    + destruct (IH pre H1 Hall Hx) as (pre' & -> & ->). by exists pre'.
Qed.

Lemma split_unique {A : Type} (Q : A -> bool) (l1 l2 pre post : list A) (x y : A) :
  l1 ++ x :: l2 = pre ++ y :: post ->
  Forall (fun z => Q z = false) l1 -> Forall (fun z => Q z = false) l2 ->
  Q x = true -> Q y = true ->
  pre = l1 /\ y = x /\ post = l2.
Proof.
  intros Heq H1 H2 Hx Hy.
  destruct (split_at_first Q l1 (x :: l2) pre post y Heq H1 Hy) as (pre' & -> & Hl).
  destruct pre' as [| z pre']; simpl in Hl.
  - inversion Hl; subst. by rewrite app_nil_r.
  - inversion Hl; subst. apply Forall_app in H2 as [_ H2].
    apply Forall_cons in H2 as [H2 _]. congruence.
Qed.

(** An event that is none of the things the claims count. *)
Definition quiet (e : Event) : Prop :=
  is_session_start e = false /\ is_commit e = false /\ is_commit_entry e = false /\
  is_pool_event e = false /\ is_task_failure e = false /\
  is_session_write e = false /\ session_read e = None /\ auth_of e = None.

Lemma setup_quiet (l : list Event) : Forall setup_event l -> Forall quiet l.
Proof.
  intros H. eapply Forall_impl; [exact H |]. intros e. unfold quiet.
  destruct e as [r | o | f v | u | n k | i | i ok];
    [destruct r; try destruct url | | destruct f | ..]; table.
Qed.

Lemma start_quiet (a : option Credentials) (l : list Event) :
  Forall (start_event a) l ->
  Forall (fun e => is_session_write e = false /\ is_session_start e = false) l ->
  Forall quiet l.
Proof.
  intros H1 H2. apply Forall_forall. intros e He.
  rewrite Forall_forall in H1, H2. specialize (H1 e He). specialize (H2 e He).
  revert H1 H2. unfold quiet.
  destruct e as [r | o | f v | u | n k | i | i ok];
    [destruct r | | destruct f | ..]; table.
Qed.

Section Shapes.

Context (imports : Imports) (W : World).
Context (storeId0 rootHash ipAddress0 : string).

Lemma credentials_quiet (m1 : Machine) (se : bool) (creds : list Event) (m2 : Machine) :
  credentials_done W storeId0 ipAddress0 m1 se creds m2 -> Forall quiet creds.
Proof.
  intros [_ [(_ & -> & _) | (_ & c & _ & -> & _)]]; [constructor |].
  repeat constructor.
Qed.

Lemma pool_ran_apart o n evs :
  pool_ran o n evs ->
  Forall (fun e => is_commit e = false /\ is_commit_entry e = false) evs.
Proof.
  intros [Hev _ _]. eapply Forall_impl; [exact Hev |].
  intros e [(_ & H1 & H2) | Hm]; [done |].
  apply task_mark_quiet in Hm. tauto.
Qed.

Lemma pool_ran_all_ended o n evs :
  pool_ran o n evs -> Forall (fun e => is_task_failure e = false) evs ->
  forall i, i < n -> EvTaskEnd i true ∈ evs.
Proof.
  intros [_ _ Hend] Hok i Hi. destruct (Hend i Hi) as [[] Hin]; [done |].
  rewrite Forall_forall in Hok. specialize (Hok _ Hin). discriminate.
Qed.

(** Where the commit is in a run of [uploadStore]: nowhere, or at the end,
    after a scheduler that ran every task to a successful end. *)
Lemma commit_shape (m0 : Machine) res m :
  upload_outcome imports W storeId0 rootHash ipAddress0 m0 res m ->
  exists before after,
    trace m = trace m0 ++ before ++ after /\
    Forall (fun e => is_commit e = false /\ is_commit_entry e = false) before /\
    ((after = [] /\
      (res = Resolved tt -> Forall (fun e => is_session_start e = false) before) /\
      (forall n, EvPool 3 n ∈ before ->
                 ~ Forall (fun e => is_task_failure e = false) before)) \/
     (exists entry rest hist files evs,
        after = entry :: rest /\
        is_commit_entry entry = true /\ is_commit entry = false /\
        Forall (fun e => is_commit_entry e = false) rest /\
        count is_commit rest <= 1 /\
        (res = Resolved tt -> count is_commit rest = 1) /\
        Forall (fun e => is_task_failure e = false) (before ++ after) /\
        before = hist ++ files_request storeId0 rootHash
                   :: EvPool 3 (length files) :: evs /\
        W (trace m0 ++ hist) (getFileSetForRootHash storeId0 rootHash)
          = Resolved files /\
        (forall i, i < length files -> EvTaskEnd i true ∈ evs) /\
        forall f, f ∈ files ->
          Exists (file_served {| label := name f; dataPath := path f |}) evs)).
Proof.
  assert (Hq : forall l, Forall quiet l ->
     Forall (fun e => is_commit e = false /\ is_commit_entry e = false) l /\
     Forall (fun e => is_session_start e = false) l /\
     Forall (fun e => is_task_failure e = false) l /\
     forall n, EvPool 3 n ∉ l).
  { intros l Hl. repeat split.
    1-3: eapply Forall_impl; [exact Hl |]; unfold quiet; intros e He; tauto.
    intros n Hn. rewrite Forall_forall in Hl. specialize (Hl _ Hn).
    unfold quiet in Hl. simpl in Hl. destruct Hl as (_ & _ & _ & ? & _). done. }
  intros [setup e _ -> Ht Hn Hs
         | setup m1 rhx e Hp [Ht1 Hn1 _ _ _] Hw -> Ht Hs
         | setup m1 se creds m2 Hp [Ht1 Hn1 _ _ _] Hcd -> Ht Hs
         | setup m1 se creds m2 Hp [Ht1 Hn1 _ _ _] Hcd Hto].
  - (* the probe failed *)
    exists setup, []. rewrite app_nil_r. split; [done |].
    destruct (Hq _ (setup_quiet _ Hn)) as (H1 & H2 & H3 & H4).
    split; [done |]. left. split; [done |]. split; [done |].
    intros n Hin. by apply H4 in Hin.
  - (* the prompt failed *)
    exists (setup ++ [prompting_log storeId0; prompt_request ipAddress0]), [].
    rewrite app_nil_r. split; [by rewrite Ht, Ht1, <- app_assoc |].
    assert (Hall : Forall quiet
              (setup ++ [prompting_log storeId0; prompt_request ipAddress0])).
    { apply Forall_app. split; [by apply setup_quiet | by repeat constructor]. }
    destruct (Hq _ Hall) as (H1 & H2 & H3 & H4).
    split; [done |]. left. split; [done |]. split; [done |].
    intros n Hin. by apply H4 in Hin.
  - (* the root hash was there *)
    pose proof Hcd as [Ht2 _].
    exists (setup ++ creds ++ [skipping_log rootHash]), [].
    rewrite app_nil_r. split; [by rewrite Ht, Ht2, Ht1, <- !app_assoc |].
    assert (Hall : Forall quiet (setup ++ creds ++ [skipping_log rootHash])).
    { apply Forall_app. split; [by apply setup_quiet |].
      apply Forall_app. split; [by eapply credentials_quiet |].
      by repeat constructor. }
    destruct (Hq _ Hall) as (H1 & H2 & H3 & H4).
    split; [done |]. left. split; [done |]. split; [done |].
    intros n Hin. by apply H4 in Hin.
  - pose proof Hcd as [Ht2 _].
    assert (Hpre : Forall quiet (setup ++ creds)).
    { apply Forall_app. split; [by apply setup_quiet | by eapply credentials_quiet]. }
    assert (Ht12 : trace m2 = trace m0 ++ setup ++ creds)
      by (by rewrite Ht2, Ht1, <- app_assoc).
    destruct (Hq _ Hpre) as (H1 & _ & H3 & H4).
    destruct Hto as [start e -> Ht _ Hev Hnw
                    | hist agent sid done e [Hev Hqu Hrep Hdone] -> Ht _
                    | hist agent sid done files evs e
                        [Hev Hqu Hrep Hdone] Hfiles Hpr Hfail -> Ht _
                    | hist agent sid done files evs entry rest
                        [Hev Hqu Hrep Hdone] Hfiles Hpr Hok Hentry Hfz
                        Hne Hc1 Hc Ht _ Hsv].
    + (* the session did not start *)
      exists ((setup ++ creds) ++ start), []. rewrite app_nil_r.
      split; [by rewrite Ht, Ht12, <- !app_assoc |].
      split.
      { apply Forall_app. split; [done |].
        eapply Forall_impl; [exact Hev |]. intros x Hx.
        apply start_event_quiet in Hx. tauto. }
      left. split; [done |]. split; [done |].
      intros n Hin. apply elem_of_app in Hin as [Hin | Hin]; [by apply H4 in Hin |].
      rewrite Forall_forall in Hev. specialize (Hev _ Hin). done.
    + (* the file set could not be read *)
      assert (Hh : Forall quiet hist) by (by eapply start_quiet).
      destruct (Hq _ Hh) as (H1' & _ & H3' & H4').
      exists ((setup ++ creds) ++ hist ++ session_events imports rootHash m2 agent sid done
                ++ [files_request storeId0 rootHash]), [].
      rewrite app_nil_r. split; [by rewrite Ht, Ht12, <- !app_assoc |].
      split.
      { apply Forall_app. split; [done |]. apply Forall_app. split; [done |].
        by repeat constructor. }
      left. split; [done |]. split; [done |].
      intros n Hin.
      apply elem_of_app in Hin as [Hin | Hin]; [by apply H4 in Hin |].
      apply elem_of_app in Hin as [Hin | Hin]; [by apply H4' in Hin |].
      apply elem_of_app in Hin as [Hin | Hin].
      * unfold session_events in Hin. rewrite !elem_of_cons, elem_of_nil in Hin.
        destruct Hin as [Hin | [Hin | [Hin | []]]]; discriminate.
      * apply list_elem_of_singleton in Hin. discriminate.
    + (* a task failed *)
      assert (Hh : Forall quiet hist) by (by eapply start_quiet).
      destruct (Hq _ Hh) as (H1' & _ & H3' & H4').
      exists ((setup ++ creds) ++ hist ++ session_events imports rootHash m2 agent sid done
                ++ [files_request storeId0 rootHash; EvPool 3 (length files)]
                ++ evs), [].
      rewrite app_nil_r. split; [by rewrite Ht, Ht12, <- !app_assoc |].
      split.
      { apply Forall_app. split; [done |]. apply Forall_app. split; [done |].
        apply Forall_app. split; [by repeat constructor |].
        apply Forall_app. split; [by repeat constructor | by eapply pool_ran_apart]. }
      left. split; [done |]. split; [done |].
      intros n _ Hall. apply Hfail.
      rewrite !Forall_app in Hall. tauto.
    + (* every task succeeded *)
      assert (Hh : Forall quiet hist) by (by eapply start_quiet).
      destruct (Hq _ Hh) as (H1' & _ & H3' & H4').
      exists ((setup ++ creds) ++ hist ++ session_events imports rootHash m2 agent sid done
                ++ [files_request storeId0 rootHash; EvPool 3 (length files)]
                ++ evs), (entry :: rest).
      split; [by rewrite Ht, Ht12, <- !app_assoc |].
      split.
      { apply Forall_app. split; [done |]. apply Forall_app. split; [done |].
        apply Forall_app. split; [by repeat constructor |].
        apply Forall_app. split; [by repeat constructor | by eapply pool_ran_apart]. }
      right.
      exists entry, rest,
        ((setup ++ creds) ++ hist ++ session_events imports rootHash m2 agent sid done),
        files, evs.
      split; [done |]. split; [done |].
      split; [by destruct entry as [| | | [] | | |] |].
      split; [done |]. split; [done |]. split; [done |].
      split.
      { apply Forall_app. split.
        - apply Forall_app. split; [done |]. apply Forall_app. split; [done |].
          apply Forall_app. split; [by repeat constructor |].
          apply Forall_app. split; [by repeat constructor | done].
        - eapply Forall_impl; [exact Hfz |]. intros x Hx.
          apply frozen_quiet in Hx. tauto. }
      split; [by rewrite <- !app_assoc |].
      split.
      { rewrite Ht12 in Hfiles. rewrite <- !app_assoc.
        rewrite <- !app_assoc in Hfiles. exact Hfiles. }
      split; [by eapply pool_ran_all_ended |].
      intros f Hf. apply list_elem_of_lookup_1 in Hf as [i Hi].
      apply (Hsv i f Hi). eapply pool_ran_all_ended; [exact Hpr | exact Hok |].
      eapply lookup_lt_Some. exact Hi.
Qed.

End Shapes.

(** * Further properties of the code *)

(** ** formatFilename *)

Lemma length_padEnd (s : JsString) (n : nat) :
  length (padEnd s n) = max (length s) n.
Proof. unfold padEnd. rewrite length_app, repeat_length. lia. Qed.

Lemma padEnd_full (s : JsString) (n : nat) : n <= length s -> padEnd s n = s.
Proof.
  intros H. unfold padEnd. replace (n - length s) with 0 by lia.
  apply app_nil_r.
Qed.

Lemma slice_tail (s : JsString) (k : nat) :
  0 < k -> k <= length s ->
  slice s (- Z.of_nat k) = drop (length s - k) s.
Proof.
  intros H0 Hk. unfold slice.
  destruct (Z.ltb_spec (- Z.of_nat k) 0) as [_ | Hz]; [| lia].
  f_equal. lia.
Qed.

(** X1. Consistent padding: with a column of at least 12 characters (the
    length of "Unknown File"; the code always uses 30), [formatFilename]
    returns a string of exactly [maxLength] UTF-16 code units, whatever
    the name: missing, empty, short or too long, ASCII or not. *)
Theorem formatFilename_length (filename : option string) (maxLength : nat) :
  12 <= maxLength ->
  length (formatFilename filename maxLength) = maxLength.
Proof.
  intros Hn. unfold formatFilename.
  destruct (truthy filename) eqn:Ht; cbn [negb].
  - set (name := utf16 (default "" filename)).
    destruct (Nat.ltb_spec maxLength (length name)) as [Hlong | Hfit].
    + rewrite length_padEnd, length_app.
      replace (- (Z.of_nat maxLength - 3))%Z with (- Z.of_nat (maxLength - 3))%Z
        by lia.
      rewrite slice_tail by lia. rewrite length_drop.
      change (length (utf16 "...")) with 3. lia.
    + rewrite length_padEnd. lia.
  - rewrite length_padEnd. change (length (utf16 "Unknown File")) with 12. lia.
Qed.

Lemma formatFilename_length_witness :
  length (formatFilename (Some "a/very/long/path/to/some/file/name.dat") 30) = 30.
Proof. apply (formatFilename_length _ 30). lia. Defined.

(** X2. A name longer than the column keeps its end: for a column of more
    than 3 characters and a name of more than [maxLength] UTF-16 code
    units, the result is "..." followed by the last [maxLength - 3] code
    units of the name, with no padding. *)
Theorem formatFilename_keeps_tail (name : string) (maxLength : nat) :
  3 < maxLength -> maxLength < length (utf16 name) ->
  exists head tail,
    utf16 name = head ++ tail /\
    length tail = maxLength - 3 /\
    formatFilename (Some name) maxLength = utf16 "..." ++ tail.
Proof.
  intros H3 Hlong.
  exists (take (length (utf16 name) - (maxLength - 3)) (utf16 name)),
         (drop (length (utf16 name) - (maxLength - 3)) (utf16 name)).
  split; [by rewrite take_drop |].
  split; [rewrite length_drop; lia |].
  unfold formatFilename.
  assert (Ht : truthy (Some name) = true).
  { destruct name; [simpl in Hlong; lia | done]. }
  rewrite Ht. cbn [negb default from_option id].
  destruct (Nat.ltb_spec maxLength (length (utf16 name))) as [_ | Hfit]; [| lia].
  replace (- (Z.of_nat maxLength - 3))%Z with (- Z.of_nat (maxLength - 3))%Z by lia.
  rewrite slice_tail by lia.
  apply padEnd_full. rewrite length_app, length_drop.
  change (length (utf16 "...")) with 3. lia.
Qed.

Lemma formatFilename_keeps_tail_witness :
  exists head tail,
    utf16 "a/very/long/path/to/some/file/name.dat" = head ++ tail /\
    length tail = 30 - 3 /\
    formatFilename (Some "a/very/long/path/to/some/file/name.dat") 30
      = utf16 "..." ++ tail.
Proof.
  apply (formatFilename_keeps_tail "a/very/long/path/to/some/file/name.dat" 30);
    [lia | vm_compute; lia].
Defined.

(** ** Progress bars *)

Definition is_bar_start (e : Event) : bool :=
  match e with
  | EvUi (progressBar_start _ _) => true
  | _ => false
  end.

Definition is_bar_stop (e : Event) : bool :=
  match e with
  | EvUi progressBar_stop => true
  | _ => false
  end.

(** [bars s ok err p]: started with a progress bar running or not ([s]),
    [p] starts a bar only when none runs and stops one only when one runs,
    and it ends with the bar in state [ok] when it returns and in state
    [err] when it throws. *)
Fixpoint bars {A : Type} (s ok err : bool) (p : Prog A) : Prop :=
  match p with
  | Ret _ => s = ok
  | Throw _ => s = err
  | Call r k => forall x, bars s ok err (k x)
  | This k => forall o, bars s ok err (k o)
  | Assign _ _ k => bars s ok err k
  | New _ k => bars s ok err k
  | Out (progressBar_start _ _) k => s = false /\ bars true ok err k
  | Out progressBar_stop k => s = true /\ bars false ok err k
  | Out _ k => bars s ok err k
  end.

Definition running_bars (s : bool) : nat := if s then 1 else 0.

Lemma exec_bars (W : World) {A : Type} (p : Prog A) (s ok err : bool)
    (m : Machine) res m' :
  bars s ok err p -> exec W p m = (res, m') ->
  exists new,
    trace m' = trace m ++ new /\
    running_bars s + count is_bar_start new =
    count is_bar_stop new
    + running_bars match res with Resolved _ => ok | Rejected _ => err end.
Proof.
  revert s m. induction p as [a | e | r k IH | k IH | f v k IH | o k IH | u k IH];
    intros s m Hb He; simpl in *.
  - injection He as <- <-. exists []. rewrite app_nil_r, Hb. simpl.
    split; [done | lia].
  - injection He as <- <-. exists []. rewrite app_nil_r, Hb. simpl.
    split; [done | lia].
  - destruct (IH _ _ _ (Hb _) He) as (new & Ht & Hc).
    exists (EvRequest r :: new). simpl in *. by rewrite Ht, <- app_assoc.
  - exact (IH _ _ _ (Hb _) He).
  - destruct (IH _ _ Hb He) as (new & Ht & Hc).
    exists (EvAssign f v :: new). simpl in *. by rewrite Ht, <- app_assoc.
  - destruct (IH _ _ Hb He) as (new & Ht & Hc).
    exists (EvNew o :: new). simpl in *. by rewrite Ht, <- app_assoc.
  - assert (Hk : exists s',
      bars s' ok err k /\
      running_bars s + (if is_bar_start (EvUi u) then 1 else 0) =
      (if is_bar_stop (EvUi u) then 1 else 0) + running_bars s').
    { destruct u; simpl in *; try (exists s; split; [done | lia]).
      - destruct Hb as [-> Hb]. exists true. done.
      - destruct Hb as [-> Hb]. exists false. done. }
    destruct Hk as (s' & Hb' & Hd). destruct (IH _ _ Hb' He) as (new & Ht & Hc).
    exists (EvUi u :: new). simpl in Ht. rewrite Ht, <- app_assoc.
    split; [done |]. cbn [count]. lia.
Qed.

Ltac bars_walk :=
  repeat (cbn [bars bind try_catch];
          match goal with
          | |- forall _, _ => intro
          | |- _ /\ _ => split
          | |- ?a = ?a => reflexivity
          | |- context [match ?x with Resolved _ => _ | Rejected _ => _ end] =>
              destruct x
          | |- context [if ?b then _ else _] => destruct b
          end).

Lemma uploadFile_bars (imports : Imports) (label0 dataPath0 : string) :
  bars false false false (uploadFile imports label0 dataPath0).
Proof.
  unfold uploadFile, getFileNonce, createHttpsAgent, try_finally, await, this, out.
  bars_walk.
Qed.

Lemma fetchFile_bars (dataPath0 : string) :
  bars false false false (fetchFile dataPath0).
Proof.
  unfold fetchFile, createHttpsAgent, try_finally, await, this, out.
  bars_walk.
Qed.

Lemma downloadFile_bars (imports : Imports) (label0 dataPath0 : string) :
  bars false false false (downloadFile imports label0 dataPath0).
Proof.
  unfold downloadFile, createHttpsAgent, try_finally, await, this, out.
  bars_walk.
Qed.

(** [starts_le n p]: no run of [p] starts more than [n] progress bars. *)
Fixpoint starts_le {A : Type} (n : nat) (p : Prog A) : Prop :=
  match p with
  | Ret _ => True
  | Throw _ => True
  | Call r k => forall x, starts_le n (k x)
  | This k => forall o, starts_le n (k o)
  | Assign _ _ k => starts_le n k
  | New _ k => starts_le n k
  | Out (progressBar_start _ _) k =>
      match n with
      | O => False
      | S n' => starts_le n' k
      end
  | Out _ k => starts_le n k
  end.

Lemma exec_starts_le (W : World) {A : Type} (p : Prog A) (n : nat)
    (m : Machine) res m' :
  starts_le n p -> exec W p m = (res, m') ->
  exists new, trace m' = trace m ++ new /\ count is_bar_start new <= n.
Proof.
  revert n m. induction p as [a | e | r k IH | k IH | f v k IH | o k IH | u k IH];
    intros n m Hb He; simpl in *.
  - injection He as <- <-. exists []. rewrite app_nil_r. simpl. split; [done | lia].
  - injection He as <- <-. exists []. rewrite app_nil_r. simpl. split; [done | lia].
  - destruct (IH _ _ _ (Hb _) He) as (new & Ht & Hc).
    exists (EvRequest r :: new). simpl in *. by rewrite Ht, <- app_assoc.
  - exact (IH _ _ _ (Hb _) He).
  - destruct (IH _ _ Hb He) as (new & Ht & Hc).
    exists (EvAssign f v :: new). simpl in *. by rewrite Ht, <- app_assoc.
  - destruct (IH _ _ Hb He) as (new & Ht & Hc).
    exists (EvNew o :: new). simpl in *. by rewrite Ht, <- app_assoc.
  - assert (Hk : exists n',
      starts_le n' k /\ (if is_bar_start (EvUi u) then 1 else 0) + n' <= n).
    { destruct u; simpl in *; try (exists n; split; [done | lia]).
      destruct n as [| n']; [done |]. exists n'. split; [done | lia]. }
    destruct Hk as (n' & Hb' & Hd). destruct (IH _ _ Hb' He) as (new & Ht & Hc).
    exists (EvUi u :: new). simpl in Ht. rewrite Ht, <- app_assoc.
    split; [done |]. cbn [count]. lia.
Qed.

Ltac starts_walk :=
  repeat (cbn [starts_le bind try_catch];
          match goal with
          | |- forall _, _ => intro
          | |- True => exact I
          | |- context [match ?x with Resolved _ => _ | Rejected _ => _ end] =>
              destruct x
          | |- context [if ?b then _ else _] => destruct b
          end).

Lemma uploadFile_starts (imports : Imports) (label0 dataPath0 : string) :
  starts_le 1 (uploadFile imports label0 dataPath0).
Proof.
  unfold uploadFile, getFileNonce, createHttpsAgent, try_finally, await, this, out.
  starts_walk.
Qed.

Lemma fetchFile_starts (dataPath0 : string) : starts_le 1 (fetchFile dataPath0).
Proof.
  unfold fetchFile, createHttpsAgent, try_finally, await, this, out.
  starts_walk.
Qed.

Lemma downloadFile_starts (imports : Imports) (label0 dataPath0 : string) :
  starts_le 1 (downloadFile imports label0 dataPath0).
Proof.
  unfold downloadFile, createHttpsAgent, try_finally, await, this, out.
  starts_walk.
Qed.

(** *** Calls that never settle

    [exec] takes every awaited call to settle. A promise may also stay
    pending for ever; the [await] then never returns, nothing after it
    runs, no [catch] and no [finally] block either. [exec_until] is the run
    of a program in a world where the requests [stalls] picks out are never
    settled: [None] is the outcome of a call that never returns. The
    promise [uploadFile] awaits after the PUT is of this kind whenever the
    stream has ended before the listeners are attached. *)
Definition Stalls : Type := list Event -> Request -> bool.

Fixpoint exec_until (W : World) (stalls : Stalls) {A : Type} (p : Prog A)
    (m : Machine) : option (Settled A) * Machine :=
  match p with
  | Ret a => (Some (Resolved a), m)
  | Throw e => (Some (Rejected e), m)
  | Call r k =>
      if stalls (trace m) r then (None, record (EvRequest r) m)
      else exec_until W stalls (k (W (trace m) r)) (record (EvRequest r) m)
  | This k => exec_until W stalls (k (self m)) m
  | Assign f v k => exec_until W stalls k (store f v m)
  | New o k => exec_until W stalls k (create o m)
  | Out u k => exec_until W stalls k (record (EvUi u) m)
  end.

(** The stream of an upload that has ended by the time the PUT has
    resolved: its end is never seen. *)
Definition stream_has_ended : Stalls :=
  fun _ r =>
    match r with
    | upload_stream_end _ => true
    | _ => false
    end.

(** A run that settles is a run of [exec]. *)
Lemma exec_until_settled (W : World) (stalls : Stalls) {A : Type} (p : Prog A)
    (m : Machine) (res : Settled A) (m' : Machine) :
  exec_until W stalls p m = (Some res, m') -> exec W p m = (res, m').
Proof.
  revert m. induction p as [a | e | r k IH | k IH | f v k IH | o k IH | u k IH];
    intros m He; simpl in *; try (by injection He as <- <-); eauto.
  destruct (stalls (trace m) r); [discriminate | eauto].
Qed.

(** Where nothing stalls, [exec_until] is [exec]. *)
Lemma exec_until_never (W : World) {A : Type} (p : Prog A) (m : Machine) :
  exec_until W (fun _ _ => false) p m = (Some (fst (exec W p m)), snd (exec W p m)).
Proof.
  revert m. induction p as [a | e | r k IH | k IH | f v k IH | o k IH | u k IH];
    intros m; simpl; eauto.
Qed.

Lemma exec_until_bars (W : World) (stalls : Stalls) {A : Type} (p : Prog A)
    (s ok err : bool) (m : Machine) out m' :
  bars s ok err p -> exec_until W stalls p m = (out, m') ->
  exists new s',
    trace m' = trace m ++ new /\
    running_bars s + count is_bar_start new
      = count is_bar_stop new + running_bars s' /\
    match out with
    | Some (Resolved _) => s' = ok
    | Some (Rejected _) => s' = err
    | None => True
    end.
Proof.
  revert s m. induction p as [a | e | r k IH | k IH | f v k IH | o k IH | u k IH];
    intros s m Hb He; simpl in *.
  - injection He as <- <-. exists [], s. rewrite app_nil_r. simpl.
    split; [done |]. split; [lia | done].
  - injection He as <- <-. exists [], s. rewrite app_nil_r. simpl.
    split; [done |]. split; [lia | done].
  - destruct (stalls (trace m) r).
    + injection He as <- <-. exists [EvRequest r], s. simpl.
      split; [done |]. split; [lia | done].
    + destruct (IH _ _ _ (Hb _) He) as (new & s' & Ht & Hc & Ho).
      exists (EvRequest r :: new), s'. simpl in *. by rewrite Ht, <- app_assoc.
  - exact (IH _ _ _ (Hb _) He).
  - destruct (IH _ _ Hb He) as (new & s' & Ht & Hc & Ho).
    exists (EvAssign f v :: new), s'. simpl in *. by rewrite Ht, <- app_assoc.
  - destruct (IH _ _ Hb He) as (new & s' & Ht & Hc & Ho).
    exists (EvNew o :: new), s'. simpl in *. by rewrite Ht, <- app_assoc.
  - assert (Hk : exists s1,
      bars s1 ok err k /\
      running_bars s + (if is_bar_start (EvUi u) then 1 else 0) =
      (if is_bar_stop (EvUi u) then 1 else 0) + running_bars s1).
    { destruct u; simpl in *; try (exists s; split; [done | lia]).
      - destruct Hb as [-> Hb]. exists true. done.
      - destruct Hb as [-> Hb]. exists false. done. }
    destruct Hk as (s1 & Hb' & Hd).
    destruct (IH _ _ Hb' He) as (new & s' & Ht & Hc & Ho).
    exists (EvUi u :: new), s'. simpl in Ht. rewrite Ht, <- app_assoc.
    split; [done |]. split; [cbn [count]; lia | done].
Qed.

Lemma exec_until_starts_le (W : World) (stalls : Stalls) {A : Type} (p : Prog A)
    (n : nat) (m : Machine) out m' :
  starts_le n p -> exec_until W stalls p m = (out, m') ->
  exists new, trace m' = trace m ++ new /\ count is_bar_start new <= n.
Proof.
  revert n m. induction p as [a | e | r k IH | k IH | f v k IH | o k IH | u k IH];
    intros n m Hb He; simpl in *.
  - injection He as <- <-. exists []. rewrite app_nil_r. simpl. split; [done | lia].
  - injection He as <- <-. exists []. rewrite app_nil_r. simpl. split; [done | lia].
  - destruct (stalls (trace m) r).
    + injection He as <- <-. exists [EvRequest r]. simpl. split; [done | lia].
    + destruct (IH _ _ _ (Hb _) He) as (new & Ht & Hc).
      exists (EvRequest r :: new). simpl in *. by rewrite Ht, <- app_assoc.
  - exact (IH _ _ _ (Hb _) He).
  - destruct (IH _ _ Hb He) as (new & Ht & Hc).
    exists (EvAssign f v :: new). simpl in *. by rewrite Ht, <- app_assoc.
  - destruct (IH _ _ Hb He) as (new & Ht & Hc).
    exists (EvNew o :: new). simpl in *. by rewrite Ht, <- app_assoc.
  - assert (Hk : exists n',
      starts_le n' k /\ (if is_bar_start (EvUi u) then 1 else 0) + n' <= n).
    { destruct u; simpl in *; try (exists n; split; [done | lia]).
      destruct n as [| n']; [done |]. exists n'. split; [done | lia]. }
    destruct Hk as (n' & Hb' & Hd). destruct (IH _ _ Hb' He) as (new & Ht & Hc).
    exists (EvUi u :: new). simpl in Ht. rewrite Ht, <- app_assoc.
    split; [done |]. cbn [count]. lia.
Qed.

(** The bars of a run, settled or not: [settled] tells which. *)
Definition bars_in_order (m m' : Machine) (settled : bool) : Prop :=
  exists new,
    trace m' = trace m ++ new /\
    count is_bar_stop new <= count is_bar_start new /\
    count is_bar_start new <= 1 /\
    (settled = true -> count is_bar_stop new = count is_bar_start new).

Lemma balanced_run (W : World) (stalls : Stalls) {A : Type} (p : Prog A)
    (m : Machine) out m' :
  bars false false false p -> starts_le 1 p ->
  exec_until W stalls p m = (out, m') ->
  bars_in_order m m' (bool_decide (out <> None)).
Proof.
  intros Hb Hs He.
  destruct (exec_until_bars W stalls p false false false m out m' Hb He)
    as (new & s' & Ht & Hc & Ho).
  destruct (exec_until_starts_le W stalls p 1 m out m' Hs He) as (new' & Ht' & Hc').
  rewrite Ht in Ht'. apply app_inv_head in Ht'. subst new'.
  exists new. split; [done |]. simpl in Hc.
  split; [destruct s'; simpl in Hc; lia |]. split; [done |].
  intros Hset. apply bool_decide_eq_true in Hset.
  destruct out as [[? | ?] |]; [| | done]; subst s'; simpl in Hc; lia.
Qed.

(** Case analysis on the next request of a run [H] of [exec_until]: it
    stalls, or the world rejects it, or the world resolves it. *)
Ltac next_request H :=
  match type of H with
  | context [if ?stalls ?h ?r then _ else _] =>
      let E := fresh "St" in destruct (stalls h r) eqn:E; simpl in H
  | context [match ?W ?h ?r with Resolved _ => _ | Rejected _ => _ end] =>
      let E := fresh "E" in destruct (W h r) eqn:E; simpl in H
  end.

(** X3. Progress bars. In every run of [uploadFile], [fetchFile] and
    [downloadFile], whatever the world replies and whether the call
    returns, throws or never settles, a progress bar is started at most
    once and [progressBar.stop()] is called at most as often; it is called
    exactly as often whenever the call settles (the [finally] blocks). But
    when the promise [uploadFile] awaits after the PUT never settles, the
    bar that was started is never stopped. *)
Theorem progress_bars_are_stopped (imports : Imports) (W : World)
    (stalls : Stalls) (m m' : Machine) :
  (forall l d out,
     exec_until W stalls (uploadFile imports l d) m = (out, m') ->
     bars_in_order m m' (bool_decide (out <> None))) /\
  (forall l d out,
     exec_until W stalls (downloadFile imports l d) m = (out, m') ->
     bars_in_order m m' (bool_decide (out <> None))) /\
  (forall d out,
     exec_until W stalls (fetchFile d) m = (out, m') ->
     bars_in_order m m' (bool_decide (out <> None))) /\
  (forall l d f new,
     exec_until W stalls (uploadFile imports l d) m = (None, m') ->
     trace m' = trace m ++ new ->
     last new = Some (EvRequest (upload_stream_end f)) ->
     Exists (fun e => is_put e = true) new /\
     count is_bar_start new = 1 /\ count is_bar_stop new = 0).
Proof.
  split; [| split; [| split]].
  - intros l d out He.
    eapply balanced_run; [apply uploadFile_bars | apply uploadFile_starts | exact He].
  - intros l d out He.
    eapply balanced_run;
      [apply downloadFile_bars | apply downloadFile_starts | exact He].
  - intros d out He.
    eapply balanced_run; [apply fetchFile_bars | apply fetchFile_starts | exact He].
  - intros l d f new He Ht Hlast.
    unfold uploadFile, getFileNonce, createHttpsAgent in He. simpl in He.
    repeat first [next_request He
                 | match type of He with
                   | context [if is_true_header ?x then _ else _] =>
                       destruct (is_true_header x); simpl in He
                   end].
    all: try discriminate.
    all: injection He as <-; simpl in Ht;
      repeat (rewrite <- app_assoc in Ht; simpl in Ht);
      apply app_inv_head in Ht; subst new.
    all: try discriminate.
    split; [| split; reflexivity].
    repeat first [by apply Exists_cons_hd | apply Exists_cons_tl].
Qed.

(** An accepted PUT whose stream has ended: the call never returns and the
    bar stays. *)
Lemma progress_bars_are_stopped_witness :
  let m' := snd (exec_until (scripted fresh_store) stream_has_ended
                   (uploadFile demo_imports "file1" "data/aa") demo_machine) in
  bars_in_order demo_machine m' false /\
  forall new,
    trace m' = trace demo_machine ++ new ->
    last new = Some (EvRequest (upload_stream_end "/dig/store1/data/aa")) ->
    Exists (fun e => is_put e = true) new /\
    count is_bar_start new = 1 /\ count is_bar_stop new = 0.
Proof.
  pose proof (progress_bars_are_stopped demo_imports (scripted fresh_store)
                stream_has_ended demo_machine
                (snd (exec_until (scripted fresh_store) stream_has_ended
                        (uploadFile demo_imports "file1" "data/aa") demo_machine)))
    as (H1 & _ & _ & H4).
  split.
  - apply (H1 "file1" "data/aa" None). vm_compute. reflexivity.
  - intros new. apply (H4 "file1" "data/aa"). vm_compute. reflexivity.
Defined.

(** ** Errors are passed on *)

(** The two errors the class makes itself. *)
Definition file_not_found (e : JsError) : Prop :=
  exists file, e = Error ("File not found: " +:+ file).

Definition length_missing (e : JsError) : Prop :=
  e = Error "Content-Length header is missing".

Definition no_error (e : JsError) : Prop := False.

(** [passes_on seen p]: whatever [p] throws is one of [seen], which grows
    by every rejection [p] receives. *)
Fixpoint passes_on {A : Type} (seen : JsError -> Prop) (p : Prog A) : Prop :=
  match p with
  | Ret _ => True
  | Throw e => seen e
  | Call r k =>
      (forall a, passes_on seen (k (Resolved a))) /\
      (forall e, passes_on (fun e' => e' = e \/ seen e') (k (Rejected e)))
  | This k => forall o, passes_on seen (k o)
  | Assign _ _ k => passes_on seen k
  | New _ k => passes_on seen k
  | Out _ k => passes_on seen k
  end.

(** The world rejected a request of the history [new] with [e]. *)
Definition rejected_in (W : World) (before new : list Event) (e : JsError) : Prop :=
  exists pre r post,
    new = pre ++ EvRequest r :: post /\ W (before ++ pre) r = Rejected e.

Lemma exec_passes_on (W : World) {A : Type} (p : Prog A) (seen : JsError -> Prop)
    (m : Machine) e m' :
  passes_on seen p -> exec W p m = (Rejected e, m') ->
  exists new, trace m' = trace m ++ new /\ (seen e \/ rejected_in W (trace m) new e).
Proof.
  revert seen m. induction p as [a | e0 | r k IH | k IH | f v k IH | o k IH | u k IH];
    intros seen m Hp He; simpl in *.
  - discriminate.
  - injection He as <- <-. exists []. rewrite app_nil_r. by split; [| left].
  - destruct Hp as [Hok Herr].
    destruct (W (trace m) r) as [a | e1] eqn:Ew.
    + destruct (IH _ _ _ (Hok a) He) as (new & Ht & Hc).
      exists (EvRequest r :: new). simpl in Ht. rewrite Ht, <- app_assoc.
      split; [done |]. destruct Hc as [Hc | (pre & r' & post & -> & Hw)]; [by left |].
      right. exists (EvRequest r :: pre), r', post. split; [done |].
      simpl in Hw. by rewrite <- app_assoc in Hw.
    + destruct (IH _ _ _ (Herr e1) He) as (new & Ht & Hc).
      exists (EvRequest r :: new). simpl in Ht. rewrite Ht, <- app_assoc.
      split; [done |].
      destruct Hc as [[-> | Hc] | (pre & r' & post & -> & Hw)].
      * right. exists [], r, new. split; [done |]. by rewrite app_nil_r.
      * by left.
      * right. exists (EvRequest r :: pre), r', post. split; [done |].
        simpl in Hw. by rewrite <- app_assoc in Hw.
  - exact (IH _ _ _ (Hp _) He).
  - destruct (IH _ _ Hp He) as (new & Ht & Hc).
    exists (EvAssign f v :: new). simpl in Ht. rewrite Ht, <- app_assoc.
    split; [done |]. destruct Hc as [Hc | (pre & r' & post & -> & Hw)]; [by left |].
    right. exists (EvAssign f v :: pre), r', post. split; [done |].
    simpl in Hw. by rewrite <- app_assoc in Hw.
  - destruct (IH _ _ Hp He) as (new & Ht & Hc).
    exists (EvNew o :: new). simpl in Ht. rewrite Ht, <- app_assoc.
    split; [done |]. destruct Hc as [Hc | (pre & r' & post & -> & Hw)]; [by left |].
    right. exists (EvNew o :: pre), r', post. split; [done |].
    simpl in Hw. by rewrite <- app_assoc in Hw.
  - destruct (IH _ _ Hp He) as (new & Ht & Hc).
    exists (EvUi u :: new). simpl in Ht. rewrite Ht, <- app_assoc.
    split; [done |]. destruct Hc as [Hc | (pre & r' & post & -> & Hw)]; [by left |].
    right. exists (EvUi u :: pre), r', post. split; [done |].
    simpl in Hw. by rewrite <- app_assoc in Hw.
Qed.

Ltac passes_walk :=
  repeat (cbn [passes_on bind try_catch];
          match goal with
          | |- forall _, _ => intro
          | |- _ /\ _ => split
          | |- True => exact I
          | |- context [match ?x with Resolved _ => _ | Rejected _ => _ end] =>
              destruct x
          | |- context [if ?b then _ else _] => destruct b
          end);
  cbv beta;
  repeat match goal with
         | |- _ = _ \/ _ => first [left; reflexivity | right]
         end;
  first [eexists; reflexivity | reflexivity].

Section PassesOn.

Context (imports : Imports).

Lemma checkStoreExists_passes_on q : passes_on no_error (checkStoreExists q).
Proof.
  unfold checkStoreExists, createHttpsAgent, await, this, out. passes_walk.
Qed.

Lemma startUploadSession_passes_on rootHash :
  passes_on file_not_found (startUploadSession imports rootHash).
Proof.
  unfold startUploadSession, createHttpsAgent, await, this, out, set. passes_walk.
Qed.

Lemma getFileNonce_passes_on filename : passes_on no_error (getFileNonce filename).
Proof.
  unfold getFileNonce, createHttpsAgent, await, this, out. passes_walk.
Qed.

Lemma uploadFile_passes_on label0 dataPath0 :
  passes_on no_error (uploadFile imports label0 dataPath0).
Proof.
  unfold uploadFile, getFileNonce, createHttpsAgent, try_finally, await, this, out.
  passes_walk.
Qed.

Lemma commitUploadSession_passes_on : passes_on no_error commitUploadSession.
Proof.
  unfold commitUploadSession, createHttpsAgent, await, this, out. passes_walk.
Qed.

Lemma fetchFile_passes_on dataPath0 : passes_on length_missing (fetchFile dataPath0).
Proof.
  unfold fetchFile, createHttpsAgent, try_finally, await, this, out. passes_walk.
Qed.

Lemma getFileDetails_passes_on dataPath0 rootHash :
  passes_on no_error (getFileDetails dataPath0 rootHash).
Proof.
  unfold getFileDetails, createHttpsAgent, await, this, out. passes_walk.
Qed.

Lemma downloadFile_passes_on label0 dataPath0 :
  passes_on length_missing (downloadFile imports label0 dataPath0).
Proof.
  unfold downloadFile, createHttpsAgent, try_finally, await, this, out.
  passes_walk.
Qed.

End PassesOn.

(** X4. No method swallows or replaces an error. When [checkStoreExists],
    [getFileNonce], [uploadFile], [commitUploadSession] or [getFileDetails]
    throws, it throws the very error with which the world rejected one of
    the requests of that call; [startUploadSession] throws such an error or
    its own "File not found: ..."; [fetchFile] and [downloadFile] throw such
    an error or their own "Content-Length header is missing". *)
Theorem errors_are_passed_on (imports : Imports) (W : World) (m : Machine)
    (e : JsError) (m' : Machine) :
  let from_world := exists new, trace m' = trace m ++ new /\
                                rejected_in W (trace m) new e in
  (forall q, exec W (checkStoreExists q) m = (Rejected e, m') -> from_world) /\
  (forall f, exec W (getFileNonce f) m = (Rejected e, m') -> from_world) /\
  (forall l d, exec W (uploadFile imports l d) m = (Rejected e, m') -> from_world) /\
  (exec W commitUploadSession m = (Rejected e, m') -> from_world) /\
  (forall d r, exec W (getFileDetails d r) m = (Rejected e, m') -> from_world) /\
  (forall r, exec W (startUploadSession imports r) m = (Rejected e, m') ->
     file_not_found e \/ from_world) /\
  (forall d, exec W (fetchFile d) m = (Rejected e, m') ->
     length_missing e \/ from_world) /\
  (forall l d, exec W (downloadFile imports l d) m = (Rejected e, m') ->
     length_missing e \/ from_world).
Proof.
  assert (Hnone : forall A (p : Prog A),
            passes_on no_error p -> exec W p m = (Rejected e, m') ->
            exists new, trace m' = trace m ++ new /\ rejected_in W (trace m) new e).
  { intros A p Hp He.
    destruct (exec_passes_on W p _ m e m' Hp He) as (new & Ht & [[] | Hr]).
    by exists new. }
  assert (Hsome : forall A (p : Prog A) seen,
            passes_on seen p -> exec W p m = (Rejected e, m') ->
            seen e \/
            exists new, trace m' = trace m ++ new /\ rejected_in W (trace m) new e).
  { intros A p seen Hp He.
    destruct (exec_passes_on W p _ m e m' Hp He) as (new & Ht & [Hs | Hr]);
      [by left | right; by exists new]. }
  intros from_world. repeat split.
  - intros q. apply Hnone, checkStoreExists_passes_on.
  - intros f. apply Hnone, getFileNonce_passes_on.
  - intros l d. apply Hnone, uploadFile_passes_on.
  - apply Hnone, commitUploadSession_passes_on.
  - intros d r. apply Hnone, getFileDetails_passes_on.
  - intros r. apply Hsome, startUploadSession_passes_on.
  - intros d. apply Hsome, fetchFile_passes_on.
  - intros l d. apply Hsome, downloadFile_passes_on.
Qed.

(** A peer that refuses file bodies. *)
Definition refusing_peer : Scenario := {|
  store_exists_header := Some "true";
  has_root_hash_header := Some "false";
  prompt_reply := Rejected (Error "no terminal");
  file_exists_header := fun _ => Some "false";
  put_reply := fun _ => Rejected (Error "socket hang up");
  content_length_header := Some "20";
  local_files := [ {| name := "file1"; path := "data/aa" |};
                   {| name := "file2"; path := "data/bb" |} ];
|}.

Lemma errors_are_passed_on_witness :
  exists new,
    trace (snd (exec (scripted refusing_peer) (uploadFile demo_imports "file1" "data/aa")
                  demo_machine)) = trace demo_machine ++ new /\
    rejected_in (scripted refusing_peer) (trace demo_machine) new
      (Error "socket hang up").
Proof.
  apply (proj1 (proj2 (proj2
           (errors_are_passed_on demo_imports (scripted refusing_peer) demo_machine
              (Error "socket hang up") _))) "file1" "data/aa").
  vm_compute. reflexivity.
Defined.

(** ** No request is repeated *)

(** [at_most f n p]: no run of [p] leaves more than [n] events of the kind
    [f]. *)
Fixpoint at_most {A : Type} (f : Event -> bool) (n : nat) (p : Prog A) : Prop :=
  match p with
  | Ret _ => True
  | Throw _ => True
  | Call r k =>
      if f (EvRequest r)
      then match n with
           | O => False
           | S n' => forall x, at_most f n' (k x)
           end
      else forall x, at_most f n (k x)
  | This k => forall o, at_most f n (k o)
  | Assign fd v k =>
      if f (EvAssign fd v)
      then match n with
           | O => False
           | S n' => at_most f n' k
           end
      else at_most f n k
  | New o k =>
      if f (EvNew o)
      then match n with
           | O => False
           | S n' => at_most f n' k
           end
      else at_most f n k
  | Out u k =>
      if f (EvUi u)
      then match n with
           | O => False
           | S n' => at_most f n' k
           end
      else at_most f n k
  end.

Lemma exec_at_most (W : World) {A : Type} (f : Event -> bool) (p : Prog A)
    (n : nat) (m : Machine) res m' :
  at_most f n p -> exec W p m = (res, m') ->
  exists new, trace m' = trace m ++ new /\ count f new <= n.
Proof.
  revert n m. induction p as [a | e | r k IH | k IH | fd v k IH | o k IH | u k IH];
    intros n m Hb He; simpl in *.
  - injection He as <- <-. exists []. rewrite app_nil_r. simpl. split; [done | lia].
  - injection He as <- <-. exists []. rewrite app_nil_r. simpl. split; [done | lia].
  - assert (Hk : exists n',
      at_most f n' (k (W (trace m) r)) /\
      (if f (EvRequest r) then 1 else 0) + n' <= n).
    { destruct (f (EvRequest r)).
      - destruct n as [| n']; [done |]. exists n'. split; [apply Hb | lia].
      - exists n. split; [apply Hb | lia]. }
    destruct Hk as (n' & Hb' & Hd). destruct (IH _ _ _ Hb' He) as (new & Ht & Hc).
    exists (EvRequest r :: new). simpl in Ht. rewrite Ht, <- app_assoc.
    split; [done |]. cbn [count]. lia.
  - exact (IH _ _ _ (Hb _) He).
  - assert (Hk : exists n',
      at_most f n' k /\ (if f (EvAssign fd v) then 1 else 0) + n' <= n).
    { destruct (f (EvAssign fd v)).
      - destruct n as [| n']; [done |]. exists n'. split; [apply Hb | lia].
      - exists n. split; [apply Hb | lia]. }
    destruct Hk as (n' & Hb' & Hd). destruct (IH _ _ Hb' He) as (new & Ht & Hc).
    exists (EvAssign fd v :: new). simpl in Ht. rewrite Ht, <- app_assoc.
    split; [done |]. cbn [count]. lia.
  - assert (Hk : exists n',
      at_most f n' k /\ (if f (EvNew o) then 1 else 0) + n' <= n).
    { destruct (f (EvNew o)).
      - destruct n as [| n']; [done |]. exists n'. split; [apply Hb | lia].
      - exists n. split; [apply Hb | lia]. }
    destruct Hk as (n' & Hb' & Hd). destruct (IH _ _ Hb' He) as (new & Ht & Hc).
    exists (EvNew o :: new). simpl in Ht. rewrite Ht, <- app_assoc.
    split; [done |]. cbn [count]. lia.
  - assert (Hk : exists n',
      at_most f n' k /\ (if f (EvUi u) then 1 else 0) + n' <= n).
    { destruct (f (EvUi u)).
      - destruct n as [| n']; [done |]. exists n'. split; [apply Hb | lia].
      - exists n. split; [apply Hb | lia]. }
    destruct Hk as (n' & Hb' & Hd). destruct (IH _ _ Hb' He) as (new & Ht & Hc).
    exists (EvUi u :: new). simpl in Ht. rewrite Ht, <- app_assoc.
    split; [done |]. cbn [count]. lia.
Qed.

(** A request to the peer: anything sent with axios. *)
Definition is_peer_request (e : Event) : bool :=
  match e with
  | EvRequest (axios_head _ _) => true
  | EvRequest (axios_post_upload _ _ _ _ _) => true
  | EvRequest (axios_put _ _ _ _) => true
  | EvRequest (axios_post_commit _ _ _) => true
  | EvRequest (axios_get_stream _ _) => true
  | _ => false
  end.

Ltac at_most_walk :=
  repeat (cbn [at_most bind try_catch is_peer_request];
          match goal with
          | |- forall _, _ => intro
          | |- True => exact I
          | |- context [match ?x with Resolved _ => _ | Rejected _ => _ end] =>
              destruct x
          | |- context [if ?b then _ else _] => destruct b
          end).

Section NoRetry.

Context (imports : Imports).

Lemma checkStoreExists_once q : at_most is_peer_request 1 (checkStoreExists q).
Proof.
  unfold checkStoreExists, createHttpsAgent, await, this, out. at_most_walk.
Qed.

Lemma startUploadSession_once rootHash :
  at_most is_peer_request 1 (startUploadSession imports rootHash).
Proof.
  unfold startUploadSession, createHttpsAgent, await, this, out, set. at_most_walk.
Qed.

Lemma getFileNonce_once filename : at_most is_peer_request 1 (getFileNonce filename).
Proof.
  unfold getFileNonce, createHttpsAgent, await, this, out. at_most_walk.
Qed.

Lemma uploadFile_twice label0 dataPath0 :
  at_most is_peer_request 2 (uploadFile imports label0 dataPath0).
Proof.
  unfold uploadFile, getFileNonce, createHttpsAgent, try_finally, await, this, out.
  at_most_walk.
Qed.

Lemma commitUploadSession_once : at_most is_peer_request 1 commitUploadSession.
Proof.
  unfold commitUploadSession, createHttpsAgent, await, this, out. at_most_walk.
Qed.

Lemma fetchFile_once dataPath0 : at_most is_peer_request 1 (fetchFile dataPath0).
Proof.
  unfold fetchFile, createHttpsAgent, try_finally, await, this, out. at_most_walk.
Qed.

Lemma getFileDetails_once dataPath0 rootHash :
  at_most is_peer_request 1 (getFileDetails dataPath0 rootHash).
Proof.
  unfold getFileDetails, createHttpsAgent, await, this, out. at_most_walk.
Qed.

Lemma downloadFile_once label0 dataPath0 :
  at_most is_peer_request 1 (downloadFile imports label0 dataPath0).
Proof.
  unfold downloadFile, createHttpsAgent, try_finally, await, this, out.
  at_most_walk.
Qed.

End NoRetry.

(** X5. No request is repeated: whatever the peer answers, a call of
    [checkStoreExists], [startUploadSession], [getFileNonce],
    [commitUploadSession], [fetchFile], [getFileDetails] or [downloadFile]
    sends at most one request to the peer, and a call of [uploadFile] at
    most two (the nonce probe and the PUT). A failed request is never sent
    again. *)
Theorem no_request_is_repeated (imports : Imports) (W : World) (m m' : Machine) :
  let sends (n : nat) :=
    exists new, trace m' = trace m ++ new /\ count is_peer_request new <= n in
  (forall q res, exec W (checkStoreExists q) m = (res, m') -> sends 1) /\
  (forall r res, exec W (startUploadSession imports r) m = (res, m') -> sends 1) /\
  (forall f res, exec W (getFileNonce f) m = (res, m') -> sends 1) /\
  (forall res, exec W commitUploadSession m = (res, m') -> sends 1) /\
  (forall d res, exec W (fetchFile d) m = (res, m') -> sends 1) /\
  (forall d r res, exec W (getFileDetails d r) m = (res, m') -> sends 1) /\
  (forall l d res, exec W (downloadFile imports l d) m = (res, m') -> sends 1) /\
  (forall l d res, exec W (uploadFile imports l d) m = (res, m') -> sends 2).
Proof.
  intros sends. repeat split; intros.
  - eapply exec_at_most; [apply checkStoreExists_once | eassumption].
  - eapply exec_at_most; [apply startUploadSession_once | eassumption].
  - eapply exec_at_most; [apply getFileNonce_once | eassumption].
  - eapply exec_at_most; [apply commitUploadSession_once | eassumption].
  - eapply exec_at_most; [apply fetchFile_once | eassumption].
  - eapply exec_at_most; [apply getFileDetails_once | eassumption].
  - eapply exec_at_most; [apply downloadFile_once | eassumption].
  - eapply exec_at_most; [apply uploadFile_twice | eassumption].
Qed.

Lemma no_request_is_repeated_witness :
  exists new,
    trace (snd (exec (scripted refusing_peer) (uploadFile demo_imports "file1" "data/aa")
                  demo_machine)) = trace demo_machine ++ new /\
    count is_peer_request new <= 2.
Proof.
  apply (proj2 (proj2 (proj2 (proj2 (proj2 (proj2 (proj2
           (no_request_is_repeated demo_imports (scripted refusing_peer)
              demo_machine _)))))))
           "file1" "data/aa" (Rejected (Error "socket hang up"))).
  vm_compute. reflexivity.
Defined.

(** ** The events of a whole upload *)

(** The credentials axios is given for what the prompt returned. *)
Definition credentials_sent (c : Credentials) : option Credentials :=
  if truthy (Some (cred_username c)) && truthy (Some (cred_password c))
  then Some c
  else None.

Lemma basic_auth_after_prompt (c : Credentials) (o : PropagationServer) :
  basic_auth (assign F_password (cred_password c)
                (assign F_username (cred_username c) o)) = credentials_sent c.
Proof.
  unfold basic_auth, credentials_sent.
  cbn [username password assign default from_option id].
  destruct (truthy (Some (cred_username c)) && truthy (Some (cred_password c)));
    [| done].
  by destruct c.
Qed.

Lemma basic_auth_with_session (sid : string) (o : PropagationServer) :
  basic_auth (assign F_sessionId sid o) = basic_auth o.
Proof. reflexivity. Qed.

Section UploadEvents.

Context (imports : Imports) (W : World).
Context (storeId0 rootHash ipAddress0 : string).

(** What the part between the credentials and the transfers may leave on
    an object [o]. *)
Definition prep_event (o : PropagationServer) (e : Event) : Prop :=
  start_event (basic_auth o) e \/ e = files_request storeId0 rootHash \/
  e = skipping_log rootHash \/ exists n, e = EvPool 3 n.

(** A finished run of [uploadStore], cut into its phases: the probe, the
    credentials, the preparation, the transfers, the commit. *)
Ltac prep :=
  first [ by left | by (right; left) | by (right; right; left)
        | by (right; right; right; eexists) ].

Lemma upload_events (m0 : Machine) res m :
  upload_outcome imports W storeId0 rootHash ipAddress0 m0 res m ->
  exists setup creds r1 evs r2 o2 sid,
    trace m = trace m0 ++ setup ++ creds ++ r1 ++ evs ++ r2 /\
    Forall setup_event setup /\
    (creds = [] /\ basic_auth o2 = None \/
     exists tail,
       creds = prompting_log storeId0 :: prompt_request ipAddress0 :: tail /\
       ((tail = [] /\ r1 = [] /\ evs = [] /\ r2 = []) \/
        exists c,
          W (trace m0 ++ setup ++ [prompting_log storeId0])
            (promptCredentials ipAddress0) = Resolved c /\
          tail = [EvAssign F_username (cred_username c);
                  EvAssign F_password (cred_password c)] /\
          basic_auth o2 = credentials_sent c)) /\
    (forall rhx m1,
       probe_phase W storeId0 rootHash ipAddress0 m0 = Some (Resolved (true, rhx), m1) ->
       creds = []) /\
    (forall rhx m1,
       probe_phase W storeId0 rootHash ipAddress0 m0 = Some (Resolved (false, rhx), m1) ->
       creds <> [] /\ trace m1 = trace m0 ++ setup) /\
    Forall (prep_event o2) r1 /\
    Forall (fun e => upload_task_event (assign F_sessionId sid o2) e \/
                     is_task_mark e = true) evs /\
    peak_ok 3 evs /\
    Forall (frozen (assign F_sessionId sid o2)) r2.
Proof.
  assert (Hcreds : forall setup m1 se creds m2,
    probed storeId0 ipAddress0 m0 m1 setup ->
    credentials_done W storeId0 ipAddress0 m1 se creds m2 ->
    trace m2 = trace m0 ++ setup ++ creds /\
    (se = true -> creds = []) /\ (se = false -> creds <> []) /\
    (creds = [] /\ basic_auth (self m2) = None \/
     exists tail,
       creds = prompting_log storeId0 :: prompt_request ipAddress0 :: tail /\
       ((tail = [] /\ False) \/
        exists c,
          W (trace m0 ++ setup ++ [prompting_log storeId0])
            (promptCredentials ipAddress0) = Resolved c /\
          tail = [EvAssign F_username (cred_username c);
                  EvAssign F_password (cred_password c)] /\
          basic_auth (self m2) = credentials_sent c))).
  { intros setup m1 se creds m2 [Ht1 _ (_ & _ & _ & Hu & Hp) _ _] [Ht2 Hc].
    split; [by rewrite Ht2, Ht1, <- app_assoc |].
    destruct Hc as [(-> & -> & Hs) | (-> & c & Hw & -> & Hs)].
    - split; [done |]. split; [done |]. left. split; [done |].
      rewrite Hs. unfold basic_auth. by rewrite Hu.
    - split; [done |]. split; [done |]. right. eexists. split; [reflexivity |].
      right. exists c. rewrite Ht1, <- app_assoc in Hw.
      split; [done |]. split; [done |].
      rewrite Hs. apply basic_auth_after_prompt. }
  intros [setup e Hp -> Ht Hn Hs
         | setup m1 rhx e Hp [Ht1 Hn1 Hf1 Hs1 Hnew1] Hw -> Ht Hs
         | setup m1 se creds m2 Hp Hpb Hcd -> Ht Hs
         | setup m1 se creds m2 Hp Hpb Hcd Hto].
  - exists setup, (@nil Event), (@nil Event), (@nil Event), (@nil Event), blank, "". rewrite !app_nil_r.
    split; [done |]. split; [done |]. split; [by left |].
    split; [intros ? ? H; rewrite H in Hp; discriminate |].
    split; [intros ? ? H; rewrite H in Hp; discriminate |].
    split; [constructor |]. split; [constructor |].
    split; [apply peak_ok_nil | constructor].
  - exists setup, [prompting_log storeId0; prompt_request ipAddress0],
      (@nil Event), (@nil Event), (@nil Event), blank, "". rewrite !app_nil_r.
    split; [by rewrite Ht, Ht1, <- app_assoc |]. split; [done |].
    split; [right; eexists; split; [reflexivity |]; by left |].
    split; [intros ? ? H; rewrite H in Hp; discriminate |].
    split; [intros ? ? H; rewrite H in Hp; by simplify_eq |].
    split; [constructor |]. split; [constructor |].
    split; [apply peak_ok_nil | constructor].
  - destruct (Hcreds _ _ _ _ _ Hpb Hcd) as (Ht12 & Hse1 & Hse2 & Hshape).
    destruct Hpb as [Ht1 Hn1 _ _ _].
    exists setup, creds, [skipping_log rootHash], (@nil Event), (@nil Event), (self m2), "".
    rewrite !app_nil_r. split; [by rewrite Ht, Ht12, <- !app_assoc |].
    split; [done |].
    split.
    { destruct Hshape as [Hl | (tail & Hc & [[_ []] | Hr])]; [by left |].
      right. exists tail. split; [done |]. by right. }
    split; [intros ? ? H; rewrite H in Hp; injection Hp as <- _ _; by apply Hse1 |].
    split; [intros ? ? H; rewrite H in Hp; injection Hp as <- _ <-; split; [by apply Hse2 | done] |].
    split; [constructor; [prep | constructor] |].
    split; [constructor |]. split; [apply peak_ok_nil | constructor].
  - destruct (Hcreds _ _ _ _ _ Hpb Hcd) as (Ht12 & Hse1 & Hse2 & Hshape).
    destruct Hpb as [Ht1 Hn1 _ _ _].
    assert (Hshape' : forall o2 (r1 evs r2 : list Event),
      basic_auth o2 = basic_auth (self m2) ->
      creds = [] /\ basic_auth o2 = None \/
      exists tail,
        creds = prompting_log storeId0 :: prompt_request ipAddress0 :: tail /\
        ((tail = [] /\ r1 = [] /\ evs = [] /\ r2 = []) \/
         exists c,
           W (trace m0 ++ setup ++ [prompting_log storeId0])
             (promptCredentials ipAddress0) = Resolved c /\
           tail = [EvAssign F_username (cred_username c);
                   EvAssign F_password (cred_password c)] /\
           basic_auth o2 = credentials_sent c)).
    { intros o2 r1 evs r2 ->.
      destruct Hshape as [Hl | (tail & Hc & [[_ []] | Hr])]; [by left |].
      right. exists tail. split; [done |]. by right. }
    assert (Hprobe :
      (forall rhx m1',
         probe_phase W storeId0 rootHash ipAddress0 m0
           = Some (Resolved (true, rhx), m1') -> creds = []) /\
      (forall rhx m1',
         probe_phase W storeId0 rootHash ipAddress0 m0
           = Some (Resolved (false, rhx), m1') ->
         creds <> [] /\ trace m1' = trace m0 ++ setup)).
    { split; intros ? ? H; rewrite H in Hp; injection Hp as <- _ <-; auto. }
    destruct Hprobe as [Hpr1 Hpr2].
    destruct Hto as [start e -> Ht _ Hev Hnw
                    | hist agent sid done e [Hev Hqu Hrep Hdone] -> Ht _
                    | hist agent sid done files evs e
                        [Hev Hqu Hrep Hdone] Hfiles [Hpe Hpk Hpend] Hfail -> Ht _
                    | hist agent sid done files evs entry rest
                        [Hev Hqu Hrep Hdone] Hfiles [Hpe Hpk Hpend] Hok Hentry Hfz
                        Hne Hc1 Hc Ht _].
    + exists setup, creds, start, (@nil Event), (@nil Event), (self m2), "". rewrite !app_nil_r.
      split; [by rewrite Ht, Ht12, <- !app_assoc |]. split; [done |].
      split; [by apply Hshape' |]. split; [done |]. split; [done |].
      split; [eapply Forall_impl; [exact Hev |]; intros x Hx; by left |].
      split; [constructor |]. split; [apply peak_ok_nil | constructor].
    + exists setup, creds,
        (hist ++ session_events imports rootHash m2 agent sid done
           ++ [files_request storeId0 rootHash]), (@nil Event), (@nil Event), (self m2), sid.
      rewrite !app_nil_r. split; [by rewrite Ht, Ht12, <- !app_assoc |].
      split; [done |].
      split; [by apply Hshape' |]. split; [done |]. split; [done |].
      split.
      { apply Forall_app. split.
        - eapply Forall_impl; [exact Hev |]; intros x Hx; by left.
        - unfold session_events, session_post.
          cbn [app]. repeat (constructor; [prep |]). constructor. }
      split; [constructor |]. split; [apply peak_ok_nil | constructor].
    + exists setup, creds,
        (hist ++ session_events imports rootHash m2 agent sid done
           ++ [files_request storeId0 rootHash; EvPool 3 (length files)]),
        evs, (@nil Event), (self m2), sid.
      rewrite !app_nil_r. split; [by rewrite Ht, Ht12, <- !app_assoc |].
      split; [done |].
      split; [by apply Hshape' |]. split; [done |]. split; [done |].
      split.
      { apply Forall_app. split.
        - eapply Forall_impl; [exact Hev |]; intros x Hx; by left.
        - unfold session_events, session_post.
          cbn [app]. repeat (constructor; [prep |]). constructor. }
      split; [done |]. split; [done | constructor].
    + exists setup, creds,
        (hist ++ session_events imports rootHash m2 agent sid done
           ++ [files_request storeId0 rootHash; EvPool 3 (length files)]),
        evs, (entry :: rest), (self m2), sid.
      split; [by rewrite Ht, Ht12, <- !app_assoc |].
      split; [done |].
      split; [by apply Hshape' |]. split; [done |]. split; [done |].
      split.
      { apply Forall_app. split.
        - eapply Forall_impl; [exact Hev |]; intros x Hx; by left.
        - unfold session_events, session_post.
          cbn [app]. repeat (constructor; [prep |]). constructor. }
      split; [done |]. split; [done | done].
Qed.

End UploadEvents.

(** ** Properties of whole uploads *)

Lemma peak_ok_calm_l (limit : nat) (l1 l2 : list Event) :
  Forall (fun e => is_task_mark e = false) l1 -> peak_ok limit l2 ->
  peak_ok limit (l1 ++ l2).
Proof.
  intros H1 H2.
  assert (Hz : forall k, Forall (fun e => is_task_mark e = false) k -> in_flight k = 0%Z).
  { induction 1 as [| e k He _ IH]; simpl; [done |].
    destruct e; simpl in He; try discriminate; exact IH. }
  apply peak_ok_app.
  - intros pre [k ->]. apply Forall_app in H1 as [Hp _]. rewrite (Hz _ Hp). lia.
  - intros k Hk. rewrite (Hz _ H1). simpl. by apply H2.
Qed.

Lemma peak_ok_calm_r (limit : nat) (l1 l2 : list Event) :
  peak_ok limit l1 -> Forall (fun e => is_task_mark e = false) l2 ->
  peak_ok limit (l1 ++ l2).
Proof.
  intros H1 H2.
  assert (Hz : forall k, Forall (fun e => is_task_mark e = false) k -> in_flight k = 0%Z).
  { induction 1 as [| e k He _ IH]; simpl; [done |].
    destruct e; simpl in He; try discriminate; exact IH. }
  apply peak_ok_app; [done |].
  intros k [k' ->]. apply Forall_app in H2 as [Hk _].
  rewrite (Hz _ Hk), Z.add_0_r. apply H1. done.
Qed.

Section UploadFacts.

Context (storeId0 rootHash : string).

Lemma prep_event_facts (o : PropagationServer) (e : Event) :
  prep_event storeId0 rootHash o e ->
  is_prompt e = false /\ is_task_mark e = false /\
  (forall a, auth_of e = Some a -> a = basic_auth o).
Proof.
  intros [H | [-> | [-> | [n ->]]]]; try (repeat split; done).
  apply start_event_quiet in H.
  destruct H as (H1 & _ & _ & H4 & _ & _ & H7 & _).
  split; [done |]. split; [by apply pool_event_not_mark | done].
Qed.

Lemma task_event_facts (o : PropagationServer) (e : Event) :
  upload_task_event o e \/ is_task_mark e = true ->
  is_prompt e = false /\ is_session_start e = false /\
  (forall a, auth_of e = Some a -> a = basic_auth o).
Proof.
  intros [[H _] | H].
  - apply frozen_quiet in H. tauto.
  - apply task_mark_quiet in H. destruct H as (H1 & H2 & _ & _ & _ & _ & H7 & _).
    split; [done |]. split; [done |]. intros a. by rewrite H7.
Qed.

End UploadFacts.

Section UploadTheorems.

Context (imports : Imports) (W : World).
Context (storeId0 rootHash ipAddress0 : string).

(** X6. A store the peer already has is never paid for with a prompt: when
    the probe reports that the store exists, no run of [uploadStore], under
    any schedule, invokes the credential prompt, and none of its POSTs
    carries Basic auth credentials. *)
Theorem uploadStore_existing_store_no_prompt (schedule : list Choice)
    (m0 m1 : Machine) (rhx : bool) res m :
  probe_phase W storeId0 rootHash ipAddress0 m0 = Some (Resolved (true, rhx), m1) ->
  uploadStore imports W storeId0 rootHash ipAddress0 schedule m0 = Some (res, m) ->
  exists new,
    trace m = trace m0 ++ new /\
    Forall (fun e => is_prompt e = false /\
                     forall a, auth_of e = Some a -> a = None) new.
Proof.
  intros Hp Hrun. apply uploadStore_run in Hrun.
  destruct (upload_events imports W _ _ _ _ _ _ Hrun)
    as (setup & creds & r1 & evs & r2 & o2 & sid & Ht & Hs & Hc & Hse & _
        & Hr1 & Hev & _ & Hr2).
  specialize (Hse _ _ Hp). subst creds.
  destruct Hc as [[_ Hauth] | (tail & Hc & _)]; [| discriminate].
  exists (setup ++ r1 ++ evs ++ r2). split; [exact Ht |].
  repeat (apply Forall_app; split).
  - eapply Forall_impl; [exact Hs |]. intros e He.
    apply setup_event_quiet in He.
    destruct He as (H1 & _ & _ & _ & _ & _ & _ & _ & _ & _ & H11).
    split; [done |]. intros a. by rewrite H11.
  - eapply Forall_impl; [exact Hr1 |]. intros e He.
    apply prep_event_facts in He. destruct He as (H1 & _ & H3).
    split; [done |]. intros a Ha. rewrite <- Hauth. by apply H3.
  - eapply Forall_impl; [exact Hev |]. intros e He.
    apply task_event_facts in He. destruct He as (H1 & _ & H3).
    split; [done |]. intros a Ha. rewrite <- Hauth. by apply H3.
  - eapply Forall_impl; [exact Hr2 |]. intros e He.
    apply frozen_quiet in He. destruct He as (H1 & _ & _ & _ & _ & _ & H7 & _).
    split; [done |]. intros a Ha. rewrite <- Hauth. by apply H7.
Qed.

(** What the prompt leaves behind when the probe found no store: the
    prompt is the first thing after the probe and the only one of the run;
    a prompt that rejects ends the run there, and one that resolves decides
    the credentials of every request that follows. *)
Lemma credentials_shape (schedule : list Choice)
    (m0 m1 : Machine) (rhx : bool) res m :
  probe_phase W storeId0 rootHash ipAddress0 m0 = Some (Resolved (false, rhx), m1) ->
  uploadStore imports W storeId0 rootHash ipAddress0 schedule m0 = Some (res, m) ->
  exists setup after,
    trace m1 = trace m0 ++ setup /\
    trace m = trace m1 ++ prompting_log storeId0 :: prompt_request ipAddress0 :: after /\
    Forall (fun e => is_prompt e = false /\ is_session_start e = false /\
                     is_commit e = false) setup /\
    Forall (fun e => is_prompt e = false) after /\
    (forall e,
       W (trace m1 ++ [prompting_log storeId0]) (promptCredentials ipAddress0)
         = Rejected e -> after = []) /\
    forall c,
      W (trace m1 ++ [prompting_log storeId0]) (promptCredentials ipAddress0)
        = Resolved c ->
      Forall (fun e => forall a, auth_of e = Some a -> a = credentials_sent c) after /\
      (cred_username c <> "" -> cred_password c <> "" ->
       credentials_sent c = Some c) /\
      (cred_username c = "" \/ cred_password c = "" -> credentials_sent c = None).
Proof.
  intros Hp Hrun. apply uploadStore_run in Hrun.
  destruct (upload_events imports W _ _ _ _ _ _ Hrun)
    as (setup & creds & r1 & evs & r2 & o2 & sid & Ht & Hs & Hc & _ & Hse
        & Hr1 & Hev & _ & Hr2).
  destruct (Hse _ _ Hp) as [Hne Ht1].
  assert (Hsent : forall c,
            (cred_username c <> "" -> cred_password c <> "" ->
             credentials_sent c = Some c) /\
            (cred_username c = "" \/ cred_password c = "" ->
             credentials_sent c = None)).
  { intros [u p]. unfold credentials_sent. simpl. split.
    - by destruct u, p.
    - intros [-> | ->]; [done |]. by destruct u. }
  assert (Hrest : Forall (fun e => is_prompt e = false /\
                    forall a, auth_of e = Some a -> a = basic_auth o2)
                    (r1 ++ evs ++ r2)).
  { repeat (apply Forall_app; split).
    - eapply Forall_impl; [exact Hr1 |]. intros e He.
      apply prep_event_facts in He. tauto.
    - eapply Forall_impl; [exact Hev |]. intros e He.
      apply task_event_facts in He. tauto.
    - eapply Forall_impl; [exact Hr2 |]. intros e He.
      apply frozen_quiet in He. tauto. }
  destruct Hc as [[-> _] | (tail & -> & Htail)]; [done |].
  exists setup, (tail ++ r1 ++ evs ++ r2).
  split; [done |].
  split; [by rewrite Ht, Ht1, <- !app_assoc |].
  split.
  { eapply Forall_impl; [exact Hs |]. intros e He.
    apply setup_event_quiet in He. tauto. }
  destruct Htail as [(-> & -> & -> & ->) | (c' & Hw & -> & Hauth)].
  - split; [constructor |]. split; [done |].
    intros c _. split; [constructor | apply Hsent].
  - split.
    { constructor; [done |]. constructor; [done |].
      eapply Forall_impl; [exact Hrest |]. by intros e [He _]. }
    split.
    { intros e He. rewrite Ht1, <- app_assoc, Hw in He. discriminate. }
    intros c Hc. rewrite Ht1, <- app_assoc, Hw in Hc. injection Hc as ->.
    split; [| apply Hsent].
    constructor; [done |]. constructor; [done |].
    eapply Forall_impl; [exact Hrest |]. intros e [_ He] a Ha.
    rewrite <- Hauth. by apply He.
Qed.

(** X7. Credentials of a new store: when the probe reports that the store
    does not exist, every run of [uploadStore] logs and then invokes the
    credential prompt right after the probe and never again, no session
    start or commit being posted before it; every session-start and commit
    POST of the run then carries the credentials the prompt returned if
    both the username and the password are non-empty strings, and no
    credentials otherwise. *)
Theorem uploadStore_new_store_credentials (schedule : list Choice)
    (m0 m1 : Machine) (rhx : bool) res m :
  probe_phase W storeId0 rootHash ipAddress0 m0 = Some (Resolved (false, rhx), m1) ->
  uploadStore imports W storeId0 rootHash ipAddress0 schedule m0 = Some (res, m) ->
  exists setup after,
    trace m1 = trace m0 ++ setup /\
    trace m = trace m1 ++ prompting_log storeId0 :: prompt_request ipAddress0 :: after /\
    Forall (fun e => is_prompt e = false /\ is_session_start e = false /\
                     is_commit e = false) setup /\
    Forall (fun e => is_prompt e = false) after /\
    forall c,
      W (trace m1 ++ [prompting_log storeId0]) (promptCredentials ipAddress0)
        = Resolved c ->
      Forall (fun e => forall a, auth_of e = Some a -> a = credentials_sent c) after /\
      (cred_username c <> "" -> cred_password c <> "" ->
       credentials_sent c = Some c).
Proof.
  intros Hp Hrun.
  destruct (credentials_shape schedule m0 m1 rhx res m Hp Hrun)
    as (setup & after & H1 & H2 & H3 & H4 & _ & H5).
  exists setup, after. repeat (split; [done |]).
  intros c Hc. destruct (H5 c Hc) as (H6 & H7 & _). by split.
Qed.

(** The tasks in flight over a whole upload: the pool keeps them within its
    limit, and nothing outside the pool starts or ends a task. *)
Lemma upload_peak (schedule : list Choice)
    (m0 : Machine) res m :
  uploadStore imports W storeId0 rootHash ipAddress0 schedule m0 = Some (res, m) ->
  exists new, trace m = trace m0 ++ new /\ peak_ok 3 new.
Proof.
  intros Hrun. apply uploadStore_run in Hrun.
  destruct (upload_events imports W _ _ _ _ _ _ Hrun)
    as (setup & creds & r1 & evs & r2 & o2 & sid & Ht & Hs & Hc & _ & _
        & Hr1 & Hev & Hpk & Hr2).
  exists (setup ++ creds ++ r1 ++ evs ++ r2). split; [done |].
  apply peak_ok_calm_l.
  { eapply Forall_impl; [exact Hs |]. intros e He.
    apply setup_event_quiet in He. apply pool_event_not_mark. tauto. }
  apply peak_ok_calm_l.
  { destruct Hc as [[-> _] | (tail & -> & [(-> & _) | (c & _ & -> & _)])];
      repeat constructor. }
  apply peak_ok_calm_l.
  { eapply Forall_impl; [exact Hr1 |]. intros e He.
    apply prep_event_facts in He. tauto. }
  apply peak_ok_calm_r; [done |].
  eapply Forall_impl; [exact Hr2 |]. intros e He.
  apply frozen_quiet in He. apply pool_event_not_mark. tauto.
Qed.

(** X8. Concurrency of an upload: over the events of any run of
    [uploadStore], under any schedule, the number of transfer tasks that
    have started and not yet ended never exceeds 3 and never falls below
    0; nothing outside the pool starts or ends a task. *)
Theorem uploadStore_at_most_three_in_flight (schedule : list Choice)
    (m0 : Machine) res m :
  uploadStore imports W storeId0 rootHash ipAddress0 schedule m0 = Some (res, m) ->
  exists new, trace m = trace m0 ++ new /\ peak_ok 3 new.
Proof. exact (upload_peak schedule m0 res m). Qed.

End UploadTheorems.

(** A store the peer has, without this root hash; the peer holds both
    files already, and no one is asked for credentials. *)
Definition known_store : Scenario := {|
  store_exists_header := Some "true";
  has_root_hash_header := Some "false";
  prompt_reply := Rejected (Error "no terminal");
  file_exists_header := fun _ => Some "true";
  put_reply := fun _ => Resolved tt;
  content_length_header := Some "20";
  local_files := [ {| name := "file1"; path := "data/aa" |};
                   {| name := "file2"; path := "data/bb" |} ];
|}.

(** A store the peer does not have yet, though it holds both files
    already, and an operator who answers the prompt. *)
Definition new_store_known_files : Scenario := {|
  store_exists_header := Some "false";
  has_root_hash_header := Some "false";
  prompt_reply := Resolved {| cred_username := "alice"; cred_password := "secret" |};
  file_exists_header := fun _ => Some "true";
  put_reply := fun _ => Resolved tt;
  content_length_header := Some "20";
  local_files := [ {| name := "file1"; path := "data/aa" |};
                   {| name := "file2"; path := "data/bb" |} ];
|}.

Lemma uploadStore_existing_store_no_prompt_witness :
  exists res m,
    uploadStore demo_imports (scripted known_store) "store1" "root1" "10.0.0.1"
      two_at_once boot = Some (res, m) /\
    exists new,
      trace m = trace boot ++ new /\
      Forall (fun e => is_prompt e = false /\
                       forall a, auth_of e = Some a -> a = None) new.
Proof.
  eexists _, _. split; [vm_compute; reflexivity |].
  eapply (uploadStore_existing_store_no_prompt demo_imports (scripted known_store)
           "store1" "root1" "10.0.0.1" two_at_once boot (demo_probed true) false);
    vm_compute; reflexivity.
Defined.

Lemma uploadStore_new_store_credentials_witness :
  exists res m,
    uploadStore demo_imports (scripted new_store_known_files) "store1" "root1" "10.0.0.1"
      two_at_once boot = Some (res, m) /\
    exists setup after,
      trace (demo_probed false) = trace boot ++ setup /\
      trace m = trace (demo_probed false)
                ++ prompting_log "store1" :: prompt_request "10.0.0.1" :: after /\
      Forall (fun e => is_prompt e = false /\ is_session_start e = false /\
                       is_commit e = false) setup /\
      Forall (fun e => is_prompt e = false) after /\
      forall c,
        scripted new_store_known_files (trace (demo_probed false) ++ [prompting_log "store1"])
          (promptCredentials "10.0.0.1") = Resolved c ->
        Forall (fun e => forall a, auth_of e = Some a -> a = credentials_sent c) after /\
        (cred_username c <> "" -> cred_password c <> "" ->
         credentials_sent c = Some c).
Proof.
  eexists _, _. split; [vm_compute; reflexivity |].
  eapply (uploadStore_new_store_credentials demo_imports (scripted new_store_known_files)
           "store1" "root1" "10.0.0.1" two_at_once boot (demo_probed false) false);
    vm_compute; reflexivity.
Defined.

Lemma uploadStore_at_most_three_in_flight_witness :
  exists res m,
    uploadStore demo_imports (scripted new_store_known_files) "store1" "root1" "10.0.0.1"
      two_at_once boot = Some (res, m) /\
    exists new, trace m = trace boot ++ new /\ peak_ok 3 new.
Proof.
  eexists _, _. split; [vm_compute; reflexivity |].
  eapply (uploadStore_at_most_three_in_flight demo_imports (scripted new_store_known_files)
           "store1" "root1" "10.0.0.1" two_at_once boot);
    vm_compute; reflexivity.
Defined.

Section CommitTheorems.

Context (imports : Imports) (W : World).
Context (storeId0 rootHash ipAddress0 : string).

(** X9. The commit comes last or not at all: any run of [uploadStore],
    under any schedule, posts the commit at most once; it posts none when
    a transfer task ended in failure; and wherever a commit is posted, the
    file set has been listed before it, the pool was opened with one task
    for each listed file, every one of these tasks has ended successfully
    before the commit, for every listed file a PUT for its data path was
    sent or the message that the peer has it already was logged, after the
    pool was opened and before the commit, and no task of the run has
    failed. *)
Theorem uploadStore_commit_after_all_transfers (schedule : list Choice)
    (m0 : Machine) res m :
  uploadStore imports W storeId0 rootHash ipAddress0 schedule m0 = Some (res, m) ->
  exists new,
    trace m = trace m0 ++ new /\
    count is_commit new <= 1 /\
    (Exists (fun e => is_task_failure e = true) new -> count is_commit new = 0) /\
    forall before c after,
      new = before ++ c :: after -> is_commit c = true ->
      Forall (fun e => is_task_failure e = false) new /\
      exists hist files evs,
        before = hist ++ files_request storeId0 rootHash
                   :: EvPool 3 (length files) :: evs /\
        W (trace m0 ++ hist) (getFileSetForRootHash storeId0 rootHash)
          = Resolved files /\
        (forall i, i < length files -> EvTaskEnd i true ∈ evs) /\
        forall f, f ∈ files ->
          Exists (file_served {| label := name f; dataPath := path f |}) evs.
Proof.
  intros Hrun. apply uploadStore_run in Hrun.
  destruct (commit_shape imports W _ _ _ _ _ _ Hrun)
    as (before0 & after0 & Ht & Hb & Hcase).
  exists (before0 ++ after0). split; [done |].
  assert (Hb0 : count is_commit before0 = 0).
  { apply count_none. eapply Forall_impl; [exact Hb |]. by intros e [He _]. }
  destruct Hcase as [(-> & _ & _)
                    | (entry & rest & hist & files & evs & -> & He1 & He2 & Hrest
                       & Hle & _ & Hok & Hbefore & Hfiles & Hended & Hserved)].
  - rewrite app_nil_r. split; [lia |]. split; [done |].
    intros before c after -> Hc.
    apply count_zero_none in Hb0. apply Forall_app in Hb0 as [_ Hb0].
    apply Forall_cons in Hb0 as [Hb0 _]. congruence.
  - assert (Hcount : count is_commit (before0 ++ entry :: rest) = count is_commit rest).
    { rewrite count_app, Hb0. simpl. by rewrite He2. }
    split; [lia |]. split.
    { intros Hex. apply Exists_exists in Hex as (e & Hin & He).
      rewrite Forall_forall in Hok. rewrite (Hok _ Hin) in He. discriminate. }
    intros before c after Heq Hc. split; [done |].
    assert (Hpre : Forall (fun e => is_commit e = false) (before0 ++ [entry])).
    { apply Forall_app. split.
      - eapply Forall_impl; [exact Hb |]. by intros e [He _].
      - by constructor. }
    replace (before0 ++ entry :: rest) with ((before0 ++ [entry]) ++ rest) in Heq
      by (by rewrite <- app_assoc).
    destruct (split_at_first is_commit _ _ _ _ _ Heq Hpre Hc) as (pre' & -> & _).
    exists hist, files, (evs ++ entry :: pre'). split.
    { rewrite Hbefore, <- !app_assoc. reflexivity. }
    split; [done |]. split.
    + intros i Hi. apply elem_of_app. left. by apply Hended.
    + intros f Hf. apply Exists_app. left. by apply Hserved.
Qed.

End CommitTheorems.

Lemma uploadStore_commit_after_all_transfers_witness :
  exists res m,
    uploadStore demo_imports (scripted new_store_known_files) "store1" "root1" "10.0.0.1"
      two_at_once boot = Some (res, m) /\
    exists new,
      trace m = trace boot ++ new /\
      count is_commit new <= 1 /\
      (Exists (fun e => is_task_failure e = true) new -> count is_commit new = 0) /\
      forall before c after,
        new = before ++ c :: after -> is_commit c = true ->
        Forall (fun e => is_task_failure e = false) new /\
        exists hist files evs,
          before = hist ++ files_request "store1" "root1"
                     :: EvPool 3 (length files) :: evs /\
          scripted new_store_known_files (trace boot ++ hist)
            (getFileSetForRootHash "store1" "root1") = Resolved files /\
          (forall i, i < length files -> EvTaskEnd i true ∈ evs) /\
          forall f, f ∈ files ->
            Exists (file_served {| label := name f; dataPath := path f |}) evs.
Proof.
  eexists _, _. split; [vm_compute; reflexivity |].
  eapply (uploadStore_commit_after_all_transfers demo_imports (scripted new_store_known_files)
            "store1" "root1" "10.0.0.1" two_at_once boot);
    vm_compute; reflexivity.
Defined.

(** ** The session of an upload *)

(** Before the session is there: no write of [sessionId], no request made
    under a session, and objects are constructed with an empty one. *)
Definition unopened (e : Event) : Prop :=
  is_session_write e = false /\ session_read e = None /\
  forall o, e = EvNew o -> sessionId o = "".

(** Under the session [sid]: no write of [sessionId], no new object, and
    requests made under a session are made under [sid]. *)
Definition under_session (sid : string) (e : Event) : Prop :=
  is_session_write e = false /\ (forall o, e <> EvNew o) /\
  forall s, session_read e = Some s -> s = sid.

Lemma setup_unopened (l : list Event) : Forall setup_event l -> Forall unopened l.
Proof.
  intros H. eapply Forall_impl; [exact H |]. intros e He. unfold unopened.
  pose proof (setup_event_quiet e He) as (_ & _ & _ & _ & _ & _ & _ & Hw & Hr & _).
  split; [done |]. split; [done |]. intros o ->. simpl in He. tauto.
Qed.

Lemma frozen_under_session (sid : string) (o : PropagationServer) (e : Event) :
  frozen (assign F_sessionId sid o) e -> under_session sid e.
Proof.
  intros H. pose proof (frozen_quiet _ _ H) as (_ & _ & Hw & _ & _ & Hr & _ & Hi).
  split; [done |]. split; [intros o' ->; exact Hi |].
  intros s Hs. destruct Hr as [Hr | Hr]; rewrite Hr in Hs; [done |].
  by injection Hs as <-.
Qed.

Lemma task_under_session (sid : string) (o : PropagationServer) (e : Event) :
  upload_task_event (assign F_sessionId sid o) e \/ is_task_mark e = true ->
  under_session sid e.
Proof.
  intros [[H _] | H]; [by eapply frozen_under_session |].
  pose proof (task_mark_quiet e H) as (_ & _ & _ & _ & Hw & Hr & _ & Hi).
  split; [done |]. split; [intros o' ->; exact Hi |].
  intros s. by rewrite Hr.
Qed.

Section SessionTheorems.

Context (imports : Imports) (W : World).
Context (storeId0 rootHash ipAddress0 : string).

(** The shape of a run of [uploadStore] around its one write of
    [sessionId]. *)
Lemma session_shape (schedule : list Choice)
    (m0 : Machine) res m :
  uploadStore imports W storeId0 rootHash ipAddress0 schedule m0 = Some (res, m) ->
  exists pre post,
    trace m = trace m0 ++ pre ++ post /\
    Forall (fun e => is_session_write e = false /\ session_read e = None /\
                     forall o, e = EvNew o -> sessionId o = "") pre /\
    (post = [] \/
     exists o agent sid rest,
       post = EvRequest (session_post imports o rootHash agent)
                :: EvAssign F_sessionId sid :: rest /\
       W (trace m0 ++ pre) (session_post imports o rootHash agent) = Resolved sid /\
       Forall (fun e => is_session_write e = false /\ (forall o', e <> EvNew o') /\
                        forall s, session_read e = Some s -> s = sid) rest /\
       sessionId (self m) = sid).
Proof.
  intros Hrun. apply uploadStore_run in Hrun.
  change (exists pre post,
    trace m = trace m0 ++ pre ++ post /\ Forall unopened pre /\
    (post = [] \/
     exists o agent sid rest,
       post = EvRequest (session_post imports o rootHash agent)
                :: EvAssign F_sessionId sid :: rest /\
       W (trace m0 ++ pre) (session_post imports o rootHash agent) = Resolved sid /\
       Forall (under_session sid) rest /\
       sessionId (self m) = sid)).
  assert (Hcreds : forall m1 se creds m2,
            credentials_done W storeId0 ipAddress0 m1 se creds m2 ->
            Forall unopened creds).
  { intros m1 se creds m2 [_ [(_ & -> & _) | (_ & c & _ & -> & _)]]; [constructor |].
    repeat constructor; intros; discriminate. }
  assert (Hstart : forall a l,
            Forall (start_event a) l ->
            Forall (fun e => is_session_write e = false) l -> Forall unopened l).
  { intros a l H1 H2. apply Forall_forall. intros e He.
    rewrite Forall_forall in H1, H2. specialize (H1 e He). specialize (H2 e He).
    pose proof (start_event_quiet a e H1) as (_ & _ & _ & _ & _ & Hr & _ & Hn & _).
    split; [done |]. split; [done |]. intros o ->. by destruct (Hn o). }
  assert (Hui : forall u, under_session "" (EvUi u) /\ forall s, under_session s (EvUi u)).
  { intros u. split; [| intros s]; repeat split; intros; discriminate. }
  assert (Hfr : forall s, under_session s (files_request storeId0 rootHash)).
  { intros s. repeat split; intros; discriminate. }
  assert (Hpool : forall s n, under_session s (EvPool 3 n)).
  { intros s n. repeat split; intros; discriminate. }
  destruct Hrun as [setup e _ -> Ht Hn Hs
                   | setup m1 rhx e Hp [Ht1 Hn1 _ _ _] Hw -> Ht Hs
                   | setup m1 se creds m2 Hp [Ht1 Hn1 _ _ _] Hcd -> Ht Hs
                   | setup m1 se creds m2 Hp [Ht1 Hn1 _ _ _] Hcd Hto].
  - exists setup, []. rewrite app_nil_r. split; [done |].
    split; [by apply setup_unopened | by left].
  - exists (setup ++ [prompting_log storeId0; prompt_request ipAddress0]), [].
    rewrite app_nil_r. split; [by rewrite Ht, Ht1, <- app_assoc |].
    split; [| by left].
    apply Forall_app. split; [by apply setup_unopened |].
    repeat constructor; intros; discriminate.
  - pose proof Hcd as [Ht2 _].
    exists (setup ++ creds ++ [skipping_log rootHash]), [].
    rewrite app_nil_r. split; [by rewrite Ht, Ht2, Ht1, <- !app_assoc |].
    split; [| by left].
    apply Forall_app. split; [by apply setup_unopened |].
    apply Forall_app. split; [by eapply Hcreds |].
    repeat constructor; intros; discriminate.
  - pose proof Hcd as [Ht2 _].
    assert (Hpre : Forall unopened (setup ++ creds)).
    { apply Forall_app. split; [by apply setup_unopened | by eapply Hcreds]. }
    assert (Ht12 : trace m2 = trace m0 ++ setup ++ creds)
      by (by rewrite Ht2, Ht1, <- app_assoc).
    assert (Hhist : forall hist agent sid done,
              session_started imports W rootHash m2 hist agent sid done ->
              Forall unopened ((setup ++ creds) ++ hist) /\
              W (trace m0 ++ (setup ++ creds) ++ hist)
                (session_post imports (self m2) rootHash agent) = Resolved sid).
    { intros hist agent sid done [Hev Hqu Hrep _]. split.
      - apply Forall_app. split; [done |]. eapply Hstart; [exact Hev |].
        eapply Forall_impl; [exact Hqu |]. by intros x [Hx _].
      - by rewrite app_assoc, <- Ht12. }
    destruct Hto as [start e -> Ht Hself Hev Hnw
                    | hist agent sid done e Hss -> Ht Hself
                    | hist agent sid done files evs e
                        Hss Hfiles [Hpe Hpk Hpend] Hfail -> Ht Hself
                    | hist agent sid done files evs entry rest
                        Hss Hfiles [Hpe Hpk Hpend] Hok Hentry Hfz
                        Hne Hc1 Hc Ht Hself].
    + exists ((setup ++ creds) ++ start), []. rewrite app_nil_r.
      split; [by rewrite Ht, Ht12, <- !app_assoc |]. split; [| by left].
      apply Forall_app. split; [done | by eapply Hstart].
    + destruct (Hhist _ _ _ _ Hss) as [Hh Hrep].
      exists ((setup ++ creds) ++ hist),
        (session_events imports rootHash m2 agent sid done
           ++ [files_request storeId0 rootHash]).
      split; [by rewrite Ht, Ht12, <- !app_assoc |]. split; [done |].
      right. exists (self m2), agent, sid, [EvUi done; files_request storeId0 rootHash].
      split; [done |]. split; [done |].
      split; [| by rewrite Hself].
      constructor; [apply Hui |]. constructor; [apply Hfr | constructor].
    + destruct (Hhist _ _ _ _ Hss) as [Hh Hrep].
      exists ((setup ++ creds) ++ hist),
        (session_events imports rootHash m2 agent sid done
           ++ [files_request storeId0 rootHash; EvPool 3 (length files)] ++ evs).
      split; [by rewrite Ht, Ht12, <- !app_assoc |]. split; [done |].
      right. exists (self m2), agent, sid,
        (EvUi done :: files_request storeId0 rootHash :: EvPool 3 (length files) :: evs).
      split; [done |]. split; [done |].
      split; [| by rewrite Hself].
      constructor; [apply Hui |]. constructor; [apply Hfr |].
      constructor; [apply Hpool |].
      eapply Forall_impl; [exact Hpe |]. intros x. apply task_under_session.
    + destruct (Hhist _ _ _ _ Hss) as [Hh Hrep].
      exists ((setup ++ creds) ++ hist),
        (session_events imports rootHash m2 agent sid done
           ++ [files_request storeId0 rootHash; EvPool 3 (length files)]
           ++ evs ++ entry :: rest).
      split; [by rewrite Ht, Ht12, <- !app_assoc |]. split; [done |].
      right. exists (self m2), agent, sid,
        (EvUi done :: files_request storeId0 rootHash :: EvPool 3 (length files)
           :: evs ++ entry :: rest).
      split; [done |]. split; [done |].
      split; [| by rewrite Hself].
      constructor; [apply Hui |]. constructor; [apply Hfr |].
      constructor; [apply Hpool |].
      apply Forall_app. split.
      * eapply Forall_impl; [exact Hpe |]. intros x. apply task_under_session.
      * eapply Forall_impl; [exact Hfz |]. intros x. apply frozen_under_session.
Qed.

(** X10. The session of an upload is written once: the events of any run
    of [uploadStore], under any schedule, split into a part where
    [sessionId] is never written, no request is made under a session and
    every object is constructed with an empty [sessionId], followed either
    by nothing, or by the session-start POST, the assignment to
    [sessionId] of the very value the peer replied to that POST, and a
    rest that never writes [sessionId] again, constructs no object, and
    makes its nonce probes, PUTs and commit under that value only; the
    object then ends with that [sessionId]. *)
Theorem uploadStore_session_written_once (schedule : list Choice)
    (m0 : Machine) res m :
  uploadStore imports W storeId0 rootHash ipAddress0 schedule m0 = Some (res, m) ->
  exists pre post,
    trace m = trace m0 ++ pre ++ post /\
    Forall (fun e => is_session_write e = false /\ session_read e = None /\
                     forall o, e = EvNew o -> sessionId o = "") pre /\
    (post = [] \/
     exists o agent sid rest,
       post = EvRequest (session_post imports o rootHash agent)
                :: EvAssign F_sessionId sid :: rest /\
       W (trace m0 ++ pre) (session_post imports o rootHash agent) = Resolved sid /\
       Forall (fun e => is_session_write e = false /\ (forall o', e <> EvNew o') /\
                        forall s, session_read e = Some s -> s = sid) rest /\
       sessionId (self m) = sid).
Proof. exact (session_shape schedule m0 res m). Qed.

End SessionTheorems.

Lemma uploadStore_session_written_once_witness :
  exists res m,
    uploadStore demo_imports (scripted new_store_known_files) "store1" "root1" "10.0.0.1"
      two_at_once boot = Some (res, m) /\
    exists pre post,
      trace m = trace boot ++ pre ++ post /\
      Forall (fun e => is_session_write e = false /\ session_read e = None /\
                       forall o, e = EvNew o -> sessionId o = "") pre /\
      (post = [] \/
       exists o agent sid rest,
         post = EvRequest (session_post demo_imports o "root1" agent)
                  :: EvAssign F_sessionId sid :: rest /\
         scripted new_store_known_files (trace boot ++ pre)
           (session_post demo_imports o "root1" agent) = Resolved sid /\
         Forall (fun e => is_session_write e = false /\ (forall o', e <> EvNew o') /\
                          forall s, session_read e = Some s -> s = sid) rest /\
         sessionId (self m) = sid).
Proof.
  eexists _, _. split; [vm_compute; reflexivity |].
  eapply (uploadStore_session_written_once demo_imports (scripted new_store_known_files)
            "store1" "root1" "10.0.0.1" two_at_once boot);
    vm_compute; reflexivity.
Defined.

(** ** Whole downloads *)

(** What [fetchFile] and [downloadFile] may leave on an object [o]: reads
    of the certificate and the key, the directory of the target, a GET of
    a file of the object's store from the object's peer, the stream being
    drained, and terminal output. *)
Definition download_event (o : PropagationServer) (e : Event) : Prop :=
  match e with
  | EvRequest (fs_readFileSync _) => True
  | EvRequest (fs_mkdirSync_recursive _) => True
  | EvRequest (axios_get_stream u _) =>
      exists dataPath0, u = FetchUrl (ipAddress o) (storeId o) dataPath0
  | EvRequest (stream_collect _) => True
  | EvRequest (stream_to_file _ _) => True
  | EvUi _ => True
  | _ => False
  end.

(** The write of a file in one piece. *)
Definition is_file_write (e : Event) : bool :=
  match e with
  | EvRequest (fs_writeFileSync _ _) => true
  | _ => false
  end.

(** Anything sent to the peer that is not a GET or the store probe, any
    prompt, any signature, and any write to the object. *)
Definition is_push (e : Event) : bool :=
  match e with
  | EvRequest (promptCredentials _) => true
  | EvRequest (createKeyOwnershipSignature _ _) => true
  | EvRequest (axios_post_upload _ _ _ _ _) => true
  | EvRequest (axios_put _ _ _ _) => true
  | EvRequest (axios_post_commit _ _ _) => true
  | EvRequest (axios_head (UploadFileUrl _ _ _ _) _) => true
  | EvRequest (upload_stream_end _) => true
  | EvRequest (getFileSetForRootHash _ _) => true
  | EvAssign F_sessionId _ | EvAssign F_username _ | EvAssign F_password _ => true
  | _ => false
  end.

Lemma download_event_facts (o : PropagationServer) (e : Event) :
  download_event o e ->
  is_pool_event e = false /\ is_file_write e = false /\ is_push e = false /\
  is_task_failure e = false /\ e <> EvRequest (generateManifestFile (storeId o)).
Proof.
  destruct e as [r | o' | f v | u | l n | i | i ok]; simpl; try done.
  destruct r; try done; destruct url; done.
Qed.

Lemma setup_event_facts (e : Event) :
  setup_event e ->
  is_pool_event e = false /\ is_file_write e = false /\ is_push e = false /\
  is_task_failure e = false /\ is_get e = false /\
  forall s, e <> EvRequest (generateManifestFile s).
Proof.
  destruct e as [r | o' | f v | u | l n | i | i ok]; simpl; try done.
  - destruct r; try done; destruct url; done.
  - destruct f; done.
Qed.

Section DownloadFacts.

Context (imports : Imports).

Lemma fetchFile_reads o dataPath0 :
  respects (eq o) (download_event o) (fetchFile dataPath0).
Proof.
  unfold fetchFile. respects_walk; try (by simpl; eauto).
  apply createHttpsAgent_frozen. intros f. exact I.
Qed.

Lemma downloadFile_reads o label0 dataPath0 :
  respects (eq o) (download_event o) (downloadFile imports label0 dataPath0).
Proof.
  unfold downloadFile. respects_walk; try (by simpl; eauto).
  apply createHttpsAgent_frozen. intros f. exact I.
Qed.

End DownloadFacts.

Section DownloadOutcomes.

Context (imports : Imports) (W : World).
Context (storeId0 rootHash ipAddress0 : string).

Definition no_store_error : JsError :=
  Error ("Store " +:+ storeId0 +:+ " does not exist.").

Definition dat_write (content : string) : Event :=
  EvRequest (fs_writeFileSync
               (path_join imports [STORE_PATH imports; storeId0; rootHash +:+ ".dat"])
               content).

Definition download_tasks (entries : list (string * string)) : list Task :=
  map (fun entry =>
         {| label := hex_to_utf8 imports (fst entry);
            dataPath := getFilePathFromSha256 imports (snd entry) "data" |})
    entries.

(** The scheduler ran [n] download tasks to their end on the object [o]. *)
Record pool_fetched (o : PropagationServer) (n : nat) (evs : list Event) : Prop := {
  pf_events : Forall (fun e => download_event o e \/ is_task_mark e = true) evs;
  pf_peak : peak_ok 5 evs;
  pf_ended : forall i, i < n -> exists ok, EvTaskEnd i ok ∈ evs;
}.

(** The manifest was fetched and read: [fetch] is what [fetchFile] left. *)
Record manifest_read (m1 m2 : Machine) (fetch : list Event) (content : string)
    (entries : list (string * string)) : Prop := {
  mr_run : exec W (fetchFile (rootHash +:+ ".dat")) m1 = (Resolved content, m2);
  mr_trace : trace m2 = trace m1 ++ fetch;
  mr_events : Forall (download_event (self m1)) fetch;
  mr_entries : manifest_entries imports content = Resolved entries;
}.

(** Every way [downloadStore] can go. *)
Inductive download_outcome (m0 : Machine) (res : Settled unit) (m : Machine) : Prop :=
| download_probe_fails (setup : list Event) (e : JsError) :
    probe_phase W storeId0 rootHash ipAddress0 m0 = Some (Rejected e, m) ->
    res = Rejected e ->
    trace m = trace m0 ++ setup ->
    Forall setup_event setup ->
    download_outcome m0 res m
| nothing_to_fetch (setup : list Event) (se rhx : bool) :
    probe_phase W storeId0 rootHash ipAddress0 m0 = Some (Resolved (se, rhx), m) ->
    se && rhx = false ->
    res = Rejected no_store_error ->
    trace m = trace m0 ++ setup ->
    Forall setup_event setup ->
    download_outcome m0 res m
| manifest_fails (setup : list Event) (m1 : Machine) (fetch : list Event)
    (e : JsError) :
    probe_phase W storeId0 rootHash ipAddress0 m0 = Some (Resolved (true, true), m1) ->
    probed storeId0 ipAddress0 m0 m1 setup ->
    (exec W (fetchFile (rootHash +:+ ".dat")) m1 = (Rejected e, m) \/
     exists content,
       exec W (fetchFile (rootHash +:+ ".dat")) m1 = (Resolved content, m) /\
       manifest_entries imports content = Rejected e) ->
    res = Rejected e ->
    trace m = trace m1 ++ fetch ->
    Forall (download_event (self m1)) fetch ->
    download_outcome m0 res m
| download_fails (setup : list Event) (m1 m2 : Machine) (fetch : list Event)
    (content : string) (entries : list (string * string)) (evs : list Event)
    (e : JsError) :
    probe_phase W storeId0 rootHash ipAddress0 m0 = Some (Resolved (true, true), m1) ->
    probed storeId0 ipAddress0 m0 m1 setup ->
    manifest_read m1 m2 fetch content entries ->
    pool_fetched (self m1) (length entries) evs ->
    ~ Forall (fun e => is_task_failure e = false) evs ->
    res = Rejected e ->
    trace m = trace m2 ++ EvPool 5 (length entries) :: evs ->
    download_outcome m0 res m
| manifest_saved (setup : list Event) (m1 m2 : Machine) (fetch : list Event)
    (content : string) (entries : list (string * string)) (evs tail : list Event) :
    probe_phase W storeId0 rootHash ipAddress0 m0 = Some (Resolved (true, true), m1) ->
    probed storeId0 ipAddress0 m0 m1 setup ->
    manifest_read m1 m2 fetch content entries ->
    pool_fetched (self m1) (length entries) evs ->
    Forall (fun e => is_task_failure e = false) evs ->
    trace m = trace m2 ++ EvPool 5 (length entries) :: evs
                ++ dat_write content :: tail ->
    (tail = [] \/ tail = [EvRequest (generateManifestFile storeId0)] \/
     exists u, tail = [EvRequest (generateManifestFile storeId0); EvUi u]) ->
    (res = Resolved tt ->
     exists u, tail = [EvRequest (generateManifestFile storeId0); EvUi u]) ->
    (forall i t, download_tasks entries !! i = Some t -> EvTaskEnd i true ∈ evs ->
       Exists (file_fetched imports t) evs) ->
    download_outcome m0 res m.

Lemma download_event_not_pool o e : download_event o e -> is_pool_event e = false.
Proof. intros H. by apply download_event_facts in H as (? & _). Qed.

Lemma downloadStore_run (schedule : list Choice) (m0 : Machine) res m :
  downloadStore imports W storeId0 rootHash ipAddress0 schedule m0 = Some (res, m) ->
  download_outcome m0 res m.
Proof.
  rewrite downloadStore_phases.
  destruct (probe_phase_run W storeId0 rootHash ipAddress0 m0)
    as (r1 & m1 & setup & Hp & Ht1 & Hn1 & Hs1 & Hf1).
  rewrite Hp. destruct r1 as [[se rhx] | e].
  2:{ intros H. injection H as <- <-. by eapply download_probe_fails. }
  cbn [fst snd].
  destruct (negb se || negb rhx) eqn:Eb.
  { intros H. injection H as <- <-. eapply nothing_to_fetch; eauto.
    by destruct se, rhx. }
  assert (se = true /\ rhx = true) as [-> ->] by (by destruct se, rhx).
  destruct (Hf1 _ eq_refl) as [Hfresh Hnew].
  assert (Hpb : probed storeId0 ipAddress0 m0 m1 setup) by (by constructor).
  unfold run_bind at 1. unfold lift at 1.
  destruct (exec W (fetchFile (rootHash +:+ ".dat")) m1) as [r2 m2] eqn:E2.
  destruct (exec_frozen W (download_event (self m1)) _ m1 r2 m2
              (fetchFile_reads (self m1) _) E2) as (Hs2 & fetch & Ht2 & Hev2).
  destruct r2 as [content | e].
  2:{ intros H. injection H as <- <-. eapply manifest_fails; eauto. }
  destruct (manifest_entries imports content) as [entries | e] eqn:Em.
  2:{ unfold run_throw. intros H. injection H as <- <-.
      eapply manifest_fails; eauto. }
  assert (Hmr : manifest_read m1 m2 fetch content entries) by (by constructor).
  unfold run_bind at 1.
  destruct (asyncPool W 5 _ _ schedule m2) as [[r3 m3] |] eqn:E3; [| done].
  destruct (asyncPool_run W 5 _ _ schedule
              (download_event (self m2)) m2 r3 m3
              (download_event_not_pool (self m2))
              (fun t => downloadFile_reads imports (self m2) _ _) E3)
    as (Hs3 & evs & Ht3 & Hev3 & Hpk & Hend & Hres).
  destruct (asyncPool_serves W 5 _ _ schedule (file_fetched imports) m2 r3 m3
              (downloadFile_owes imports) E3) as (evs' & Hts & Hsv).
  rewrite Ht3 in Hts. apply app_inv_head in Hts. injection Hts as <-.
  fold (download_tasks entries) in Hsv.
  rewrite length_map in Ht3, Hend. rewrite Hs2 in Hev3.
  assert (Hpf : pool_fetched (self m1) (length entries) evs) by (by constructor).
  destruct r3 as [[] | e].
  2:{ intros H. injection H as <- <-.
      eapply download_fails; eauto.
      intros Hall. apply Hres in Hall. discriminate. }
  assert (Hok : Forall (fun e => is_task_failure e = false) evs) by (by apply Hres).
  unfold run_bind at 1. unfold lift at 1. rewrite exec_await.
  fold (dat_write content).
  destruct (W (trace m3) _) as [[] | e].
  2:{ intros H. injection H as <- <-.
      eapply (manifest_saved m0 _ _ setup m1 m2 fetch content entries evs []); eauto.
      - simpl. rewrite Ht3, <- !app_assoc. reflexivity.
      - discriminate. }
  unfold run_bind at 1. unfold lift at 1. rewrite exec_await.
  destruct (W _ (generateManifestFile storeId0)) as [[] | e].
  2:{ intros H. injection H as <- <-.
      eapply (manifest_saved m0 _ _ setup m1 m2 fetch content entries evs
                [EvRequest (generateManifestFile storeId0)]); eauto.
      - simpl. rewrite Ht3, <- !app_assoc. reflexivity.
      - discriminate. }
  unfold lift. simpl. intros H. injection H as <- <-.
  eapply (manifest_saved m0 _ _ setup m1 m2 fetch content entries evs
            [EvRequest (generateManifestFile storeId0); EvUi _]); eauto.
  simpl. rewrite Ht3, <- !app_assoc. reflexivity.
Qed.

End DownloadOutcomes.

Section DownloadTheorems.

Context (imports : Imports) (W : World).
Context (storeId0 rootHash ipAddress0 : string).

(** X11. Nothing to fetch: when the probe reports that the store or the
    root hash is missing, [downloadStore] ends, under every schedule, in
    the error "Store <storeId> does not exist." in the very state the
    probe left: no GET was sent, no file written and no pool opened. *)
Theorem downloadStore_requires_store_and_root_hash (schedule : list Choice)
    (m0 m1 : Machine) (storeExists rootHashExists : bool) :
  probe_phase W storeId0 rootHash ipAddress0 m0
    = Some (Resolved (storeExists, rootHashExists), m1) ->
  storeExists && rootHashExists = false ->
  downloadStore imports W storeId0 rootHash ipAddress0 schedule m0
    = Some (Rejected (Error ("Store " +:+ storeId0 +:+ " does not exist.")), m1) /\
  exists setup,
    trace m1 = trace m0 ++ setup /\
    Forall (fun e => is_get e = false /\ is_file_write e = false /\
                     is_pool_event e = false) setup.
Proof.
  intros Hp Hb. split.
  - rewrite downloadStore_phases, Hp. cbn [fst snd].
    by destruct storeExists, rootHashExists.
  - destruct (probe_phase_facts W _ _ _ _ _ _ Hp) as (_ & setup & Ht & Hs & _).
    exists setup. split; [done |].
    eapply Forall_impl; [exact Hs |]. intros e He.
    apply setup_event_facts in He. tauto.
Qed.

(** The events of a download, flattened: the probe, the fetch of the
    manifest, and if the pool was opened, the pool, the tasks and what
    follows them. *)
Lemma download_events (m0 : Machine) res m :
  download_outcome imports W storeId0 rootHash ipAddress0 m0 res m ->
  exists (setup fetch rest : list Event) (o : PropagationServer),
    trace m = trace m0 ++ setup ++ fetch ++ rest /\
    Forall setup_event setup /\
    Forall (download_event o) fetch /\
    (rest = [] \/
     exists n evs tail,
       rest = EvPool 5 n :: evs ++ tail /\
       Forall (fun e => download_event o e \/ is_task_mark e = true) evs /\
       peak_ok 5 evs /\
       (tail = [] \/
        exists content after,
          tail = dat_write imports storeId0 rootHash content :: after /\
          Forall (fun e => is_task_failure e = false) evs /\
          Forall (fun e => e = EvRequest (generateManifestFile storeId0) \/
                           exists u, e = EvUi u) after)).
Proof.
  assert (Htail : forall tail : list Event,
    tail = [] \/ tail = [EvRequest (generateManifestFile storeId0)] \/
    (exists u, tail = [EvRequest (generateManifestFile storeId0); EvUi u]) ->
    Forall (fun e => e = EvRequest (generateManifestFile storeId0) \/
                     exists u, e = EvUi u) tail).
  { intros tail [-> | [-> | [u ->]]].
    - constructor.
    - constructor; [by left | constructor].
    - constructor; [by left |]. constructor; [right; by exists u | constructor]. }
  intros [setup e _ -> Ht Hs
         | setup se rhx _ _ -> Ht Hs
         | setup m1 fetch e _ [Ht1 Hs _ _ _] _ -> Ht Hf
         | setup m1 m2 fetch content entries evs e _ [Ht1 Hs _ _ _]
             [_ Ht2 Hf _] [Hev Hpk _] _ -> Ht
         | setup m1 m2 fetch content entries evs tail _ [Ht1 Hs _ _ _]
             [_ Ht2 Hf _] [Hev Hpk _] Hok Ht Htl _].
  - exists setup, [], [], blank. rewrite !app_nil_r.
    split; [done |]. split; [done |]. split; [constructor | by left].
  - exists setup, [], [], blank. rewrite !app_nil_r.
    split; [done |]. split; [done |]. split; [constructor | by left].
  - exists setup, fetch, [], (self m1). rewrite !app_nil_r.
    split; [by rewrite Ht, Ht1, <- app_assoc |].
    split; [done |]. split; [done | by left].
  - exists setup, fetch, (EvPool 5 (length entries) :: evs ++ []), (self m1).
    split; [by rewrite Ht, Ht2, Ht1, app_nil_r, <- !app_assoc |].
    split; [done |]. split; [done |]. right.
    exists (length entries), evs, []. split; [done |]. split; [done |].
    split; [done | by left].
  - exists setup, fetch,
      (EvPool 5 (length entries) :: evs
         ++ dat_write imports storeId0 rootHash content :: tail), (self m1).
    split; [by rewrite Ht, Ht2, Ht1, <- !app_assoc |].
    split; [done |]. split; [done |]. right.
    exists (length entries), evs,
      (dat_write imports storeId0 rootHash content :: tail).
    split; [done |]. split; [done |]. split; [done |]. right.
    exists content, tail. split; [done |]. split; [done | by apply Htail].
Qed.

(** The tasks in flight over a whole download. *)
Lemma download_peak (schedule : list Choice)
    (m0 : Machine) res m :
  downloadStore imports W storeId0 rootHash ipAddress0 schedule m0 = Some (res, m) ->
  exists new, trace m = trace m0 ++ new /\ peak_ok 5 new.
Proof.
  intros Hrun. apply downloadStore_run in Hrun.
  destruct (download_events _ _ _ Hrun)
    as (setup & fetch & rest & o & Ht & Hs & Hf & Hrest).
  exists (setup ++ fetch ++ rest). split; [done |].
  apply peak_ok_calm_l.
  { eapply Forall_impl; [exact Hs |]. intros e He.
    apply setup_event_facts in He. apply pool_event_not_mark. tauto. }
  apply peak_ok_calm_l.
  { eapply Forall_impl; [exact Hf |]. intros e He.
    apply download_event_facts in He. apply pool_event_not_mark. tauto. }
  destruct Hrest as [-> | (n & evs & tail & -> & Hev & Hpk & Htail)];
    [apply peak_ok_nil |].
  apply (peak_ok_calm_l 5 [EvPool 5 n]); [by repeat constructor |].
  apply peak_ok_calm_r; [done |].
  destruct Htail as [-> | (content & after & -> & _ & Ha)]; [constructor |].
  constructor; [done |].
  eapply Forall_impl; [exact Ha |]. by intros e [-> | [u ->]].
Qed.

(** X12. Concurrency of a download: over the events of any run of
    [downloadStore], under any schedule, the number of download tasks that
    have started and not yet ended never exceeds 5 and never falls below
    0. *)
Theorem downloadStore_at_most_five_in_flight (schedule : list Choice)
    (m0 : Machine) res m :
  downloadStore imports W storeId0 rootHash ipAddress0 schedule m0 = Some (res, m) ->
  exists new, trace m = trace m0 ++ new /\ peak_ok 5 new.
Proof. exact (download_peak schedule m0 res m). Qed.

(** X13. A download pushes nothing: no run of [downloadStore], under any
    schedule, prompts for credentials, asks the wallet for a signature,
    starts or commits an upload session, probes for a nonce, sends a PUT,
    lists the local file set, or assigns [sessionId], [username] or
    [password]; and every GET it sends goes to the peer and the store it
    was called with, whenever the probe went through. *)
Theorem downloadStore_pushes_nothing (schedule : list Choice)
    (m0 : Machine) res m :
  downloadStore imports W storeId0 rootHash ipAddress0 schedule m0 = Some (res, m) ->
  exists new,
    trace m = trace m0 ++ new /\
    Forall (fun e => is_push e = false /\
                     forall u a, e = EvRequest (axios_get_stream u a) ->
                       exists dataPath0, u = FetchUrl ipAddress0 storeId0 dataPath0)
      new.
Proof.
  intros Hrun. apply downloadStore_run in Hrun.
  assert (Hown : forall setup m1 e,
            probed storeId0 ipAddress0 m0 m1 setup ->
            download_event (self m1) e \/ is_task_mark e = true ->
            is_push e = false /\
            forall u a, e = EvRequest (axios_get_stream u a) ->
              exists dataPath0, u = FetchUrl ipAddress0 storeId0 dataPath0).
  { intros setup m1 e [_ _ (Hsid & Hip & _) _ _] [He | He].
    - split; [apply download_event_facts in He; tauto |].
      intros u a ->. simpl in He. by rewrite Hsid, Hip in He.
    - destruct e; try discriminate; split; done. }
  assert (Hsetup : forall setup, Forall setup_event setup ->
            Forall (fun e => is_push e = false /\
                     forall u a, e = EvRequest (axios_get_stream u a) ->
                       exists dataPath0, u = FetchUrl ipAddress0 storeId0 dataPath0)
              setup).
  { intros setup Hs. eapply Forall_impl; [exact Hs |]. intros e He.
    pose proof (setup_event_facts e He) as (_ & _ & Hpush & _ & Hget & _).
    split; [done |]. intros u a ->. discriminate. }
  destruct Hrun as [setup e _ -> Ht Hs
         | setup se rhx _ _ -> Ht Hs
         | setup m1 fetch e _ Hpb _ -> Ht Hf
         | setup m1 m2 fetch content entries evs e _ Hpb
             [_ Ht2 Hf _] [Hev Hpk _] _ -> Ht
         | setup m1 m2 fetch content entries evs tail _ Hpb
             [_ Ht2 Hf _] [Hev Hpk _] Hok Ht Htl _].
  - exists setup. split; [done | by apply Hsetup].
  - exists setup. split; [done | by apply Hsetup].
  - pose proof Hpb as [Ht1 Hs _ _ _].
    exists (setup ++ fetch). split; [by rewrite Ht, Ht1, <- app_assoc |].
    apply Forall_app. split; [by apply Hsetup |].
    eapply Forall_impl; [exact Hf |]. intros x Hx. eapply Hown; eauto.
  - pose proof Hpb as [Ht1 Hs _ _ _].
    exists (setup ++ fetch ++ EvPool 5 (length entries) :: evs).
    split; [by rewrite Ht, Ht2, Ht1, <- !app_assoc |].
    apply Forall_app. split; [by apply Hsetup |].
    apply Forall_app. split.
    { eapply Forall_impl; [exact Hf |]. intros x Hx. eapply Hown; eauto. }
    constructor; [by split |].
    eapply Forall_impl; [exact Hev |]. intros x Hx. eapply Hown; eauto.
  - pose proof Hpb as [Ht1 Hs _ _ _].
    exists (setup ++ fetch ++ EvPool 5 (length entries) :: evs
              ++ dat_write imports storeId0 rootHash content :: tail).
    split; [by rewrite Ht, Ht2, Ht1, <- !app_assoc |].
    apply Forall_app. split; [by apply Hsetup |].
    apply Forall_app. split.
    { eapply Forall_impl; [exact Hf |]. intros x Hx. eapply Hown; eauto. }
    constructor; [by split |].
    apply Forall_app. split.
    { eapply Forall_impl; [exact Hev |]. intros x Hx. eapply Hown; eauto. }
    constructor; [by split |].
    destruct Htl as [-> | [-> | [u ->]]]; repeat constructor; intros; discriminate.
Qed.

(** X14. The manifest is saved last: any run of [downloadStore], under
    any schedule, writes at most one file in one piece; it writes none
    and never regenerates the manifest when a download task ended in
    failure; and wherever it writes, what it writes to
    STORE_PATH/<storeId>/<rootHash>.dat is the content [fetchFile]
    returned for <rootHash>.dat after a probe that found both the store
    and the root hash, the pool was opened with one task for each entry of
    that content, each of these tasks ended successfully before the
    write, and for each entry the stream of a reply was piped into the
    place of its data path under STORE_PATH, after the pool was opened and
    before the write. *)
Theorem downloadStore_saves_manifest_last (schedule : list Choice)
    (m0 : Machine) res m :
  downloadStore imports W storeId0 rootHash ipAddress0 schedule m0 = Some (res, m) ->
  exists new,
    trace m = trace m0 ++ new /\
    count is_file_write new <= 1 /\
    (Exists (fun e => is_task_failure e = true) new ->
     Forall (fun e => is_file_write e = false /\
                      e <> EvRequest (generateManifestFile storeId0)) new) /\
    forall before w after,
      new = before ++ w :: after -> is_file_write w = true ->
      exists m1 m2 content entries evs,
        probe_phase W storeId0 rootHash ipAddress0 m0
          = Some (Resolved (true, true), m1) /\
        exec W (fetchFile (rootHash +:+ ".dat")) m1 = (Resolved content, m2) /\
        manifest_entries imports content = Resolved entries /\
        w = dat_write imports storeId0 rootHash content /\
        trace m0 ++ before = trace m2 ++ EvPool 5 (length entries) :: evs /\
        (forall i, i < length entries -> EvTaskEnd i true ∈ evs) /\
        (forall t, t ∈ download_tasks imports entries ->
           Exists (file_fetched imports t) evs) /\
        Forall (fun e => is_task_failure e = false) new.
Proof.
  intros Hrun. apply downloadStore_run in Hrun.
  assert (Hsetup : forall l, Forall setup_event l ->
            Forall (fun e => (is_file_write e = false /\
                              e <> EvRequest (generateManifestFile storeId0)) /\
                             is_task_failure e = false) l).
  { intros l Hl. eapply Forall_impl; [exact Hl |]. intros e He.
    pose proof (setup_event_facts e He) as (_ & Hw & _ & Hf & _ & Hg).
    split; [split; [done | apply Hg] | done]. }
  assert (Hfetch : forall m1 setup l,
            probed storeId0 ipAddress0 m0 m1 setup ->
            Forall (download_event (self m1)) l ->
            Forall (fun e => (is_file_write e = false /\
                              e <> EvRequest (generateManifestFile storeId0)) /\
                             is_task_failure e = false) l).
  { intros m1 setup l [_ _ (Hsid & _) _ _] Hl.
    eapply Forall_impl; [exact Hl |]. intros e He.
    pose proof (download_event_facts _ e He) as (_ & Hw & _ & Hf & Hg).
    rewrite Hsid in Hg. done. }
  assert (Htasks : forall m1 setup l,
            probed storeId0 ipAddress0 m0 m1 setup ->
            Forall (fun e => download_event (self m1) e \/ is_task_mark e = true) l ->
            Forall (fun e => is_file_write e = false /\
                             e <> EvRequest (generateManifestFile storeId0)) l).
  { intros m1 setup l [_ _ (Hsid & _) _ _] Hl.
    eapply Forall_impl; [exact Hl |]. intros e [He | He].
    - pose proof (download_event_facts _ e He) as (_ & Hw & _ & Hf & Hg).
      rewrite Hsid in Hg. done.
    - by destruct e. }
  assert (Hnone : forall new : list Event,
            Forall (fun e => is_file_write e = false /\
                             e <> EvRequest (generateManifestFile storeId0)) new ->
            count is_file_write new <= 1 /\
            (Exists (fun e => is_task_failure e = true) new ->
             Forall (fun e => is_file_write e = false /\
                      e <> EvRequest (generateManifestFile storeId0)) new) /\
            forall before w after,
              new = before ++ w :: after -> is_file_write w = true ->
              exists m1 m2 content entries evs,
                probe_phase W storeId0 rootHash ipAddress0 m0
                  = Some (Resolved (true, true), m1) /\
                exec W (fetchFile (rootHash +:+ ".dat")) m1 = (Resolved content, m2) /\
                manifest_entries imports content = Resolved entries /\
                w = dat_write imports storeId0 rootHash content /\
                trace m0 ++ before = trace m2 ++ EvPool 5 (length entries) :: evs /\
                (forall i, i < length entries -> EvTaskEnd i true ∈ evs) /\
                (forall t, t ∈ download_tasks imports entries ->
                   Exists (file_fetched imports t) evs) /\
                Forall (fun e => is_task_failure e = false) new).
  { intros new Hn.
    assert (Hw : Forall (fun e => is_file_write e = false) new).
    { eapply Forall_impl; [exact Hn |]. by intros e [He _]. }
    split; [rewrite (count_none _ _ Hw); lia |]. split; [done |].
    intros before w after -> Hww. apply Forall_app in Hw as [_ Hw].
    apply Forall_cons in Hw as [Hw _]. congruence. }
  destruct Hrun as [setup e _ -> Ht Hs
         | setup se rhx _ _ -> Ht Hs
         | setup m1 fetch e _ Hpb _ -> Ht Hf
         | setup m1 m2 fetch content entries evs e _ Hpb
             [_ Ht2 Hf _] [Hev Hpk _] _ -> Ht
         | setup m1 m2 fetch content entries evs tail Hp Hpb
             [Hrun Ht2 Hf Hent] [Hev Hpk Hend] Hok Ht Htl _ Hsv].
  - exists setup. split; [done |]. apply Hnone.
    eapply Forall_impl; [exact (Hsetup _ Hs) |]. by intros x [Hx _].
  - exists setup. split; [done |]. apply Hnone.
    eapply Forall_impl; [exact (Hsetup _ Hs) |]. by intros x [Hx _].
  - pose proof Hpb as [Ht1 Hs _ _ _].
    exists (setup ++ fetch). split; [by rewrite Ht, Ht1, <- app_assoc |].
    apply Hnone. apply Forall_app. split.
    + eapply Forall_impl; [exact (Hsetup _ Hs) |]. by intros x [Hx _].
    + eapply Forall_impl; [exact (Hfetch _ _ _ Hpb Hf) |]. by intros x [Hx _].
  - pose proof Hpb as [Ht1 Hs _ _ _].
    exists (setup ++ fetch ++ EvPool 5 (length entries) :: evs).
    split; [by rewrite Ht, Ht2, Ht1, <- !app_assoc |].
    apply Hnone. apply Forall_app. split.
    { eapply Forall_impl; [exact (Hsetup _ Hs) |]. by intros x [Hx _]. }
    apply Forall_app. split.
    { eapply Forall_impl; [exact (Hfetch _ _ _ Hpb Hf) |]. by intros x [Hx _]. }
    constructor; [by split |]. by eapply Htasks.
  - pose proof Hpb as [Ht1 Hs _ _ _].
    set (head := setup ++ fetch ++ EvPool 5 (length entries) :: evs).
    set (w0 := dat_write imports storeId0 rootHash content).
    assert (Hhead : Forall (fun e => is_file_write e = false) head /\
                    Forall (fun e => is_task_failure e = false) head).
    { unfold head. split.
      - apply Forall_app. split.
        { eapply Forall_impl; [exact (Hsetup _ Hs) |]. by intros x [[Hx _] _]. }
        apply Forall_app. split.
        { eapply Forall_impl; [exact (Hfetch _ _ _ Hpb Hf) |]. by intros x [[Hx _] _]. }
        constructor; [done |].
        eapply Forall_impl; [exact (Htasks _ _ _ Hpb Hev) |]. by intros x [Hx _].
      - apply Forall_app. split.
        { eapply Forall_impl; [exact (Hsetup _ Hs) |]. by intros x [_ Hx]. }
        apply Forall_app. split.
        { eapply Forall_impl; [exact (Hfetch _ _ _ Hpb Hf) |]. by intros x [_ Hx]. }
        by constructor. }
    destruct Hhead as [Hhw Hhf].
    assert (Htw : Forall (fun e => is_file_write e = false) tail /\
                  Forall (fun e => is_task_failure e = false) tail).
    { destruct Htl as [-> | [-> | [u ->]]]; split; by repeat constructor. }
    destruct Htw as [Htw Htf].
    assert (Hall : Forall (fun e => is_task_failure e = false) (head ++ w0 :: tail)).
    { apply Forall_app. split; [done |]. by constructor. }
    exists (head ++ w0 :: tail).
    split; [by unfold head; rewrite Ht, Ht2, Ht1, <- !app_assoc |].
    split.
    { rewrite count_app, (count_none _ _ Hhw). simpl.
      rewrite (count_none _ _ Htw). lia. }
    split.
    { intros Hex. apply Exists_exists in Hex as (x & Hin & Hx).
      rewrite Forall_forall in Hall. rewrite (Hall _ Hin) in Hx. discriminate. }
    intros before w after Heq Hw.
    destruct (split_unique is_file_write _ _ _ _ _ _ Heq Hhw Htw eq_refl Hw)
      as (-> & -> & ->).
    exists m1, m2, content, entries, evs.
    split; [done |]. split; [done |]. split; [done |]. split; [done |].
    split; [by unfold head; rewrite Ht2, Ht1, <- !app_assoc |].
    assert (Hended : forall i, i < length entries -> EvTaskEnd i true ∈ evs).
    { intros i Hi. destruct (Hend i Hi) as [[] Hin]; [done |].
      rewrite Forall_forall in Hok. specialize (Hok _ Hin). discriminate. }
    split; [done |]. split; [| done].
    intros t Ht'. apply list_elem_of_lookup_1 in Ht' as [i Hi].
    apply (Hsv i t Hi). apply Hended.
    apply lookup_lt_Some in Hi. unfold download_tasks in Hi.
    by rewrite length_map in Hi.
Qed.

End DownloadTheorems.

Lemma downloadStore_requires_store_and_root_hash_witness :
  downloadStore demo_imports (scripted root_hash_without_store)
    "store1" "root1" "10.0.0.1" two_at_once boot
    = Some (Rejected (Error "Store store1 does not exist."), demo_probed false) /\
  exists setup,
    trace (demo_probed false) = trace boot ++ setup /\
    Forall (fun e => is_get e = false /\ is_file_write e = false /\
                     is_pool_event e = false) setup.
Proof.
  apply (downloadStore_requires_store_and_root_hash demo_imports
           (scripted root_hash_without_store) "store1" "root1" "10.0.0.1"
           two_at_once boot (demo_probed false) false true);
    vm_compute; reflexivity.
Defined.

Lemma downloadStore_at_most_five_in_flight_witness :
  exists res m,
    downloadStore demo_imports (scripted replicated) "store1" "root1" "10.0.0.1"
      two_at_once boot = Some (res, m) /\
    exists new, trace m = trace boot ++ new /\ peak_ok 5 new.
Proof.
  eexists _, _. split; [vm_compute; reflexivity |].
  eapply (downloadStore_at_most_five_in_flight demo_imports (scripted replicated)
            "store1" "root1" "10.0.0.1" two_at_once boot);
    vm_compute; reflexivity.
Defined.

Lemma downloadStore_pushes_nothing_witness :
  exists res m,
    downloadStore demo_imports (scripted replicated) "store1" "root1" "10.0.0.1"
      two_at_once boot = Some (res, m) /\
    exists new,
      trace m = trace boot ++ new /\
      Forall (fun e => is_push e = false /\
                       forall u a, e = EvRequest (axios_get_stream u a) ->
                         exists dataPath0, u = FetchUrl "10.0.0.1" "store1" dataPath0)
        new.
Proof.
  eexists _, _. split; [vm_compute; reflexivity |].
  eapply (downloadStore_pushes_nothing demo_imports (scripted replicated)
            "store1" "root1" "10.0.0.1" two_at_once boot);
    vm_compute; reflexivity.
Defined.

Lemma downloadStore_saves_manifest_last_witness :
  exists res m,
    downloadStore demo_imports (scripted replicated) "store1" "root1" "10.0.0.1"
      two_at_once boot = Some (res, m) /\
    exists new,
      trace m = trace boot ++ new /\
      count is_file_write new <= 1 /\
      (Exists (fun e => is_task_failure e = true) new ->
       Forall (fun e => is_file_write e = false /\
                        e <> EvRequest (generateManifestFile "store1")) new) /\
      forall before w after,
        new = before ++ w :: after -> is_file_write w = true ->
        exists m1 m2 content entries evs,
          probe_phase (scripted replicated) "store1" "root1" "10.0.0.1" boot
            = Some (Resolved (true, true), m1) /\
          exec (scripted replicated) (fetchFile ("root1" +:+ ".dat")) m1
            = (Resolved content, m2) /\
          manifest_entries demo_imports content = Resolved entries /\
          w = dat_write demo_imports "store1" "root1" content /\
          trace boot ++ before = trace m2 ++ EvPool 5 (length entries) :: evs /\
          (forall i, i < length entries -> EvTaskEnd i true ∈ evs) /\
          (forall t, t ∈ download_tasks demo_imports entries ->
             Exists (file_fetched demo_imports t) evs) /\
          Forall (fun e => is_task_failure e = false) new.
Proof.
  eexists _, _. split; [vm_compute; reflexivity |].
  eapply (downloadStore_saves_manifest_last demo_imports (scripted replicated)
            "store1" "root1" "10.0.0.1" two_at_once boot);
    vm_compute; reflexivity.
Defined.

(** ** Single methods, run step by step *)

(** The two reads [createHttpsAgent] makes on an object. *)
Definition agent_reads (o : PropagationServer) : list Event :=
  [EvRequest (fs_readFileSync (certPath o)); EvRequest (fs_readFileSync (keyPath o))].

(** Case analysis on the next reply of the world in a run [H]. *)
Ltac next_reply H :=
  match type of H with
  | context [match ?W ?h ?r with Resolved _ => _ | Rejected _ => _ end] =>
      let E := fresh "E" in destruct (W h r) eqn:E; simpl in H
  end.

Ltac next_header H :=
  match type of H with
  | context [if is_true_header ?x then _ else _] =>
      let E := fresh "E" in destruct (is_true_header x) eqn:E; simpl in H
  end.

Ltac flat_histories :=
  repeat match goal with
  | H : context [(_ ++ _) ++ _] |- _ => rewrite <- app_assoc in H; simpl in H
  end.

Section MethodTheorems.

Context (imports : Imports) (W : World).

(** X15. What a PUT carries: whenever a run of [uploadFile] sends a PUT,
    it is the eleventh thing the run does, it goes to the upload URL of
    the file under the object's session and sends the file of that name
    under STORE_PATH/<storeId>; the nonce probe of this same run answered
    that the file does not exist; and the PUT's headers are the nonce of
    that answer, the signature the default wallet made over this very
    nonce, and the public key that wallet returned. *)
Theorem uploadFile_put_is_signed (label0 dataPath0 : string) (m : Machine)
    res m' new u f h a :
  exec W (uploadFile imports label0 dataPath0) m = (res, m') ->
  trace m' = trace m ++ new ->
  EvRequest (axios_put u f h a) ∈ new ->
  u = UploadFileUrl (ipAddress (self m)) (storeId (self m)) (sessionId (self m))
        dataPath0 /\
  f = path_join imports [STORE_PATH imports; storeId (self m); dataPath0] /\
  exists a' response w,
    new !! 2 = Some (EvRequest (axios_head u a')) /\
    W (trace m ++ take 2 new) (axios_head u a') = Resolved response /\
    is_true_header (response !! "x-file-exists") = false /\
    x_nonce h = response !! "x-nonce" /\
    W (trace m ++ take 3 new) (Wallet_load "default") = Resolved w /\
    W (trace m ++ take 4 new) (createKeyOwnershipSignature w (x_nonce h))
      = Resolved (x_key_ownership_sig h) /\
    W (trace m ++ take 5 new) (getPublicSyntheticKey w) = Resolved (x_public_key h) /\
    new !! 10 = Some (EvRequest (axios_put u f h a)).
Proof.
  intros He Ht Hin.
  unfold uploadFile, getFileNonce, createHttpsAgent in He. simpl in He.
  repeat first [next_reply He | next_header He].
  all: injection He as <- <-; simpl in Ht; flat_histories;
    apply app_inv_head in Ht; subst new.
  all: repeat (apply elem_of_cons in Hin as [Hin | Hin]; [try discriminate |]);
    try (by apply elem_of_nil in Hin).
  all: injection Hin as -> -> -> ->.
  all: split; [done |]; split; [done |]; eexists _, _, _; simpl.
  all: repeat (split; [eassumption || reflexivity |]).
  all: reflexivity.
Qed.

(** X16. No manifest, no session: when <rootHash>.dat is not in the store's
    directory, [startUploadSession] fails with "File not found: <path>"
    after reporting it on the spinner and the console; it has read no
    certificate, posted nothing, and left the object as it was. *)
Theorem startUploadSession_missing_dat_file (rootHash : string) (m : Machine) :
  let datFilePath :=
    path_join imports [STORE_PATH imports; storeId (self m); rootHash +:+ ".dat"] in
  let spin :=
    EvUi (spinner_start ("Starting upload session for store "
                           +:+ storeId (self m) +:+ "...")) in
  W (trace m ++ [spin]) (fs_existsSync datFilePath) = Resolved false ->
  exec W (startUploadSession imports rootHash) m =
    (Rejected (Error ("File not found: " +:+ datFilePath)),
     {| self := self m;
        trace := trace m ++ [spin; EvRequest (fs_existsSync datFilePath);
                             EvUi (spinner_error "Error starting upload session:");
                             EvUi (console_error ("File not found: " +:+ datFilePath))]
     |}).
Proof.
  intros datFilePath spin Hw. unfold startUploadSession. simpl.
  fold datFilePath. fold spin. rewrite Hw. simpl.
  unfold record. simpl. rewrite <- !app_assoc. reflexivity.
Qed.

(** X17. What [startUploadSession] leaves: when it returns, the last
    three things it did are the session-start POST, the assignment to
    [sessionId] of what the peer replied to that POST, and the success
    message naming that session, and the object differs from before in
    [sessionId] only; when it fails, with whatever error, the object is
    as before, [sessionId] was not written, and the error was reported on
    the spinner and the console before being thrown again. *)
Theorem startUploadSession_sets_session (rootHash : string) (m : Machine) res m' :
  exec W (startUploadSession imports rootHash) m = (res, m') ->
  (res = Resolved tt ->
   exists hist agent sid done,
     trace m' = trace m ++ hist
                  ++ [EvRequest (session_post imports (self m) rootHash agent);
                      EvAssign F_sessionId sid; EvUi done] /\
     W (trace m ++ hist) (session_post imports (self m) rootHash agent)
       = Resolved sid /\
     self m' = assign F_sessionId sid (self m) /\
     done = spinner_success ("Upload session started for DataStore "
                               +:+ storeId (self m) +:+ " with session ID " +:+ sid)) /\
  (forall e, res = Rejected e ->
   self m' = self m /\
   exists hist,
     trace m' = trace m ++ hist
                  ++ [EvUi (spinner_error "Error starting upload session:");
                      EvUi (console_error (message e))] /\
     Forall (fun x => is_session_write x = false) hist).
Proof.
  intros He.
  unfold startUploadSession, createHttpsAgent in He. simpl in He.
  next_reply He.
  2:{ injection He as <- <-. split; [done |]. intros e' [= <-]. split; [done |].
      eexists [_; _]. simpl. rewrite <- !app_assoc. split; [reflexivity |].
      by repeat constructor. }
  destruct a; simpl in He.
  2:{ injection He as <- <-. split; [done |]. intros e' [= <-]. split; [done |].
      eexists [_; _]. simpl. rewrite <- !app_assoc. split; [reflexivity |].
      by repeat constructor. }
  repeat next_reply He.
  all: injection He as <- <-; flat_histories; (split; [| intros e' He']);
    try discriminate.
  - intros _. eexists [_; _; _; _], _, _, _. simpl. rewrite <- !app_assoc. simpl.
    split; [reflexivity |]. split; [eassumption |]. split; reflexivity.
  - injection He' as <-. split; [done |].
    eexists [_; _; _; _; _]. simpl. rewrite <- !app_assoc. split; [reflexivity |].
    by repeat constructor.
  - injection He' as <-. split; [done |].
    eexists [_; _; _; _]. simpl. rewrite <- !app_assoc. split; [reflexivity |].
    by repeat constructor.
  - injection He' as <-. split; [done |].
    eexists [_; _; _]. simpl. rewrite <- !app_assoc. split; [reflexivity |].
    by repeat constructor.
Qed.


(** X18. File details: [getFileDetails] never changes the object. When it
    returns, it has read the certificate and the key and sent one HEAD to
    the file's URL under the root hash, and its result is read off the
    reply: the file exists if and only if x-file-exists is "true", the
    size is the parsed x-file-size if it exists and 0 if not, whatever
    x-file-size says. When it fails, after at most these three requests,
    the error was logged with the file's path and thrown again. *)
Theorem getFileDetails_outcome (dataPath0 rootHash : string) (m : Machine) res m' :
  exec W (getFileDetails dataPath0 rootHash) m = (res, m') ->
  let url := FileDetailsUrl (ipAddress (self m)) (storeId (self m)) rootHash dataPath0 in
  self m' = self m /\
  ((exists agent response,
      trace m' = trace m ++ agent_reads (self m) ++ [EvRequest (axios_head url agent)] /\
      W (trace m ++ agent_reads (self m)) (axios_head url agent) = Resolved response /\
      res = Resolved
              (if is_true_header (response !! "x-file-exists")
               then (true, parseInt (response !! "x-file-size"))
               else (false, Int 0))) \/
   (exists e hist,
      res = Rejected e /\
      trace m' = trace m ++ hist
                   ++ [EvUi (console_error ("✖ Error checking file details for "
                               +:+ dataPath0 +:+ ": " +:+ message e))] /\
      length hist <= 3)).
Proof.
  intros He url. subst url.
  unfold getFileDetails, createHttpsAgent in He. simpl in He.
  repeat next_reply He.
  all: injection He as <- <-; flat_histories; (split; [done |]).
  - left. eexists _, _. unfold agent_reads. simpl. rewrite <- !app_assoc. simpl.
    split; [reflexivity |]. split; [eassumption |].
    by destruct (is_true_header _).
  - right. eexists _, [_; _; _]. split; [reflexivity |]. simpl.
    rewrite <- !app_assoc. simpl. split; [reflexivity | lia].
  - right. eexists _, [_; _]. split; [reflexivity |]. simpl.
    rewrite <- !app_assoc. simpl. split; [reflexivity | lia].
  - right. eexists _, [_]. split; [reflexivity |]. simpl.
    rewrite <- !app_assoc. simpl. split; [reflexivity | lia].
Qed.

(** X19. What [fetchFile] returns: when [fetchFile] returns a content, it
    did exactly this: read the certificate and the key, sent the GET for
    the path to the object's peer and store, got a content-length that
    parses to a number other than zero, started the progress bar with
    that number, drained the stream of the reply, and stopped the bar;
    the content is what draining that stream gave, and the object is
    unchanged. *)
Theorem fetchFile_returns_body (dataPath0 : string) (m : Machine)
    (content : string) m' :
  exec W (fetchFile dataPath0) m = (Resolved content, m') ->
  let url := FetchUrl (ipAddress (self m)) (storeId (self m)) dataPath0 in
  self m' = self m /\
  exists agent headers stream total,
    W (trace m ++ agent_reads (self m)) (axios_get_stream url agent)
      = Resolved (headers, stream) /\
    totalLength_of (headers !! "content-length") = Some total /\
    falsy_number (Some total) = false /\
    let get := [EvRequest (axios_get_stream url agent);
                EvUi (progressBar_start total (formatFilename (Some dataPath0) 30))] in
    W (trace m ++ agent_reads (self m) ++ get) (stream_collect stream)
      = Resolved content /\
    trace m' = trace m ++ agent_reads (self m) ++ get
                 ++ [EvRequest (stream_collect stream); EvUi progressBar_stop].
Proof.
  intros He url. subst url.
  unfold fetchFile, createHttpsAgent in He. simpl in He.
  repeat next_reply He; try discriminate.
  destruct a1 as [headers stream]. simpl in He.
  destruct (falsy_number (totalLength_of (headers !! "content-length"))) eqn:Ef;
    [discriminate |].
  destruct (totalLength_of (headers !! "content-length")) as [total |] eqn:El;
    [| discriminate].
  simpl in He.
  next_reply He; try discriminate.
  injection He as <- <-. flat_histories. split; [done |].
  exists {| cert := a; key := a0; rejectUnauthorized := false |}, headers, stream, total.
  unfold agent_reads. simpl. rewrite <- !app_assoc. simpl. done.
Qed.

(** X20. Where a download lands: when [downloadFile] returns, it did
    exactly this: created the directory of STORE_PATH/<storeId>/<dataPath>,
    read the certificate and the key, sent the GET for the data path,
    got a content-length that parses to a number other than zero, started
    the bar under the label, piped the stream of the reply into
    STORE_PATH/<storeId>/<dataPath>, and stopped the bar; the object is
    unchanged. *)
Theorem downloadFile_writes_under_store_path (label0 dataPath0 : string) (m : Machine)
    m' :
  exec W (downloadFile imports label0 dataPath0) m = (Resolved tt, m') ->
  let url := FetchUrl (ipAddress (self m)) (storeId (self m)) dataPath0 in
  let downloadPath :=
    path_join imports [STORE_PATH imports; storeId (self m); dataPath0] in
  self m' = self m /\
  exists agent headers stream total,
    totalLength_of (headers !! "content-length") = Some total /\
    falsy_number (Some total) = false /\
    let before :=
      EvRequest (fs_mkdirSync_recursive (path_dirname imports downloadPath))
        :: agent_reads (self m) in
    W (trace m ++ before) (axios_get_stream url agent) = Resolved (headers, stream) /\
    trace m' = trace m ++ before
                 ++ [EvRequest (axios_get_stream url agent);
                     EvUi (progressBar_start total (formatFilename (Some label0) 30));
                     EvRequest (stream_to_file stream downloadPath);
                     EvUi progressBar_stop].
Proof.
  intros He url downloadPath. subst url downloadPath.
  unfold downloadFile, createHttpsAgent in He. simpl in He.
  repeat next_reply He; try discriminate.
  destruct a2 as [headers stream]. simpl in He.
  destruct (falsy_number (totalLength_of (headers !! "content-length"))) eqn:Ef;
    [discriminate |].
  destruct (totalLength_of (headers !! "content-length")) as [total |] eqn:El;
    [| discriminate].
  simpl in He.
  next_reply He; try discriminate.
  injection He as _ <-. flat_histories. split; [done |].
  exists {| cert := a0; key := a1; rejectUnauthorized := false |}, headers, stream, total.
  unfold agent_reads. simpl. rewrite <- !app_assoc. simpl. done.
Qed.

(** X21. What a commit returns: when [commitUploadSession] returns, it
    did exactly this: started the spinner, read the certificate and the
    key, posted to the commit URL of the object's store and session with
    the object's Basic auth credentials (none unless both username and
    password are set), and reported success; it returns what the peer
    replied to that POST and leaves the object unchanged. *)
Theorem commitUploadSession_returns_reply (m : Machine) (data : string) m' :
  exec W commitUploadSession m = (Resolved data, m') ->
  let o := self m in
  self m' = o /\
  exists agent,
    let post :=
      axios_post_commit (CommitUrl (ipAddress o) (storeId o) (sessionId o)) agent
        (basic_auth o) in
    let spin :=
      EvUi (spinner_start ("Committing upload session for store "
                             +:+ storeId o +:+ "...")) in
    W (trace m ++ spin :: agent_reads o) post = Resolved data /\
    trace m' = trace m ++ spin :: agent_reads o
                 ++ [EvRequest post;
                     EvUi (spinner_success ("Upload session " +:+ sessionId o
                                              +:+ " successfully committed."))].
Proof.
  intros He o. subst o.
  unfold commitUploadSession, createHttpsAgent in He. simpl in He.
  repeat next_reply He; try discriminate.
  injection He as <- <-. flat_histories. split; [done |].
  exists {| cert := a; key := a0; rejectUnauthorized := false |}.
  unfold agent_reads. simpl. rewrite <- !app_assoc. simpl. done.
Qed.

(** X22. The wallet is set up in two steps: if loading the default wallet
    fails, [initializeWallet] fails with that error and the object is
    unchanged; if the wallet loads and asking it for the public key fails,
    [initializeWallet] fails with that error and the object has the
    wallet and its old public key; otherwise it returns and the object
    has the wallet and the key the wallet returned, nothing else being
    changed. *)
Theorem initializeWallet_outcome (m : Machine) res m' :
  exec W initializeWallet m = (res, m') ->
  match W (trace m) (Wallet_load "default") with
  | Rejected e => res = Rejected e /\ self m' = self m
  | Resolved w =>
      match W (trace m ++ [EvRequest (Wallet_load "default"); EvAssign F_wallet w])
              (getPublicSyntheticKey w) with
      | Rejected e => res = Rejected e /\ self m' = assign F_wallet w (self m)
      | Resolved pk =>
          res = Resolved tt /\
          self m' = assign F_publicKey pk (assign F_wallet w (self m))
      end
  end.
Proof.
  intros He. unfold initializeWallet in He. simpl in He.
  destruct (W (trace m) (Wallet_load "default")) as [w | e] eqn:E1; simpl in He.
  2:{ by injection He as <- <-. }
  rewrite <- app_assoc in He. simpl in He.
  destruct (W _ (getPublicSyntheticKey w)) as [pk | e] eqn:E2; simpl in He;
    by injection He as <- <-.
Qed.

(** X23. The probe: [checkStoreExists] never changes the object. When it
    returns, it started the spinner, read the certificate and the key,
    sent one HEAD to the store URL (with the root hash as the query when
    one is given), and settled the spinner; the store exists if and only
    if x-store-exists is "true" and the root hash if and only if
    x-has-root-hash is "true". When it fails, the error was reported on
    the spinner and the console and thrown again. *)
Theorem checkStoreExists_reads_headers (rootHash : option string) (m : Machine)
    res m' :
  exec W (checkStoreExists rootHash) m = (res, m') ->
  let o := self m in
  let spin := EvUi (spinner_start ("Checking if store " +:+ storeId o +:+ " exists...")) in
  self m' = o /\
  ((exists agent response,
      W (trace m ++ spin :: agent_reads o)
        (axios_head (StoreUrl (ipAddress o) (storeId o) rootHash) agent)
        = Resolved response /\
      res = Resolved (is_true_header (response !! "x-store-exists"),
                      is_true_header (response !! "x-has-root-hash")) /\
      exists done,
        trace m' = trace m ++ spin :: agent_reads o
                     ++ [EvRequest (axios_head (StoreUrl (ipAddress o) (storeId o)
                                                  rootHash) agent);
                         EvUi done]) \/
   (exists e hist,
      res = Rejected e /\
      trace m' = trace m ++ hist
                   ++ [EvUi (spinner_error "Error checking if store exists:");
                       EvUi (console_error (message e))])).
Proof.
  intros He o spin. subst o spin.
  unfold checkStoreExists, createHttpsAgent in He. simpl in He.
  repeat next_reply He.
  all: try next_header He.
  all: injection He as <- <-; flat_histories; (split; [done |]).
  1,2: left; eexists _, _; unfold agent_reads; simpl; rewrite <- ?app_assoc; simpl;
    (split; [eassumption |]); rewrite ?E2; (split; [reflexivity |]);
    eexists; reflexivity.
  - right. eexists _, [_; _; _; _]. split; [reflexivity |]. simpl.
    by rewrite <- !app_assoc.
  - right. eexists _, [_; _; _]. split; [reflexivity |]. simpl.
    by rewrite <- !app_assoc.
  - right. eexists _, [_; _]. split; [reflexivity |]. simpl.
    by rewrite <- !app_assoc.
Qed.

End MethodTheorems.

(** A store directory that lacks every file asked for. *)
Definition without_dat_file : World :=
  fun h r =>
    match r as r0 return Settled (Reply r0) with
    | fs_existsSync _ => Resolved false
    | r0 => scripted fresh_store h r0
    end.

Lemma uploadFile_put_is_signed_witness :
  exists res m' new u f h a,
    exec (scripted fresh_store) (uploadFile demo_imports "file1" "data/aa")
      demo_machine = (res, m') /\
    trace m' = trace demo_machine ++ new /\
    EvRequest (axios_put u f h a) ∈ new /\
    u = UploadFileUrl "10.0.0.1" "store1" "session-1" "data/aa" /\
    f = path_join demo_imports [STORE_PATH demo_imports; "store1"; "data/aa"] /\
    exists a' response w,
      new !! 2 = Some (EvRequest (axios_head u a')) /\
      scripted fresh_store (trace demo_machine ++ take 2 new) (axios_head u a')
        = Resolved response /\
      is_true_header (response !! "x-file-exists") = false /\
      x_nonce h = response !! "x-nonce" /\
      scripted fresh_store (trace demo_machine ++ take 3 new) (Wallet_load "default")
        = Resolved w /\
      scripted fresh_store (trace demo_machine ++ take 4 new)
        (createKeyOwnershipSignature w (x_nonce h))
        = Resolved (x_key_ownership_sig h) /\
      scripted fresh_store (trace demo_machine ++ take 5 new)
        (getPublicSyntheticKey w) = Resolved (x_public_key h) /\
      new !! 10 = Some (EvRequest (axios_put u f h a)).
Proof.
  eexists _, _, _, _, _, _, _.
  split; [vm_compute; reflexivity |].
  split; [vm_compute; reflexivity |].
  split.
  { repeat first [by (apply elem_of_cons; left) | apply elem_of_cons; right]. }
  eapply (uploadFile_put_is_signed demo_imports (scripted fresh_store)
            "file1" "data/aa" demo_machine).
  - vm_compute. reflexivity.
  - vm_compute. reflexivity.
  - repeat first [by (apply elem_of_cons; left) | apply elem_of_cons; right].
Defined.

Lemma startUploadSession_missing_dat_file_witness :
  exec without_dat_file (startUploadSession demo_imports "root1") demo_machine =
    (Rejected (Error "File not found: /dig/store1/root1.dat"),
     {| self := demo_server;
        trace := [EvUi (spinner_start "Starting upload session for store store1...");
                  EvRequest (fs_existsSync "/dig/store1/root1.dat");
                  EvUi (spinner_error "Error starting upload session:");
                  EvUi (console_error "File not found: /dig/store1/root1.dat")] |}).
Proof.
  apply (startUploadSession_missing_dat_file demo_imports without_dat_file
           "root1" demo_machine).
  vm_compute. reflexivity.
Defined.

Lemma startUploadSession_sets_session_witness :
  let m' := snd (exec (scripted fresh_store) (startUploadSession demo_imports "root1")
                   demo_machine) in
  (Resolved tt = Resolved tt ->
   exists hist agent sid done,
     trace m' = trace demo_machine ++ hist
                  ++ [EvRequest (session_post demo_imports demo_server "root1" agent);
                      EvAssign F_sessionId sid; EvUi done] /\
     scripted fresh_store (trace demo_machine ++ hist)
       (session_post demo_imports demo_server "root1" agent) = Resolved sid /\
     self m' = assign F_sessionId sid demo_server /\
     done = spinner_success ("Upload session started for DataStore "
                               +:+ "store1" +:+ " with session ID " +:+ sid)) /\
  (forall e, Resolved tt = Rejected e ->
   self m' = demo_server /\
   exists hist,
     trace m' = trace demo_machine ++ hist
                  ++ [EvUi (spinner_error "Error starting upload session:");
                      EvUi (console_error (message e))] /\
     Forall (fun x => is_session_write x = false) hist).
Proof.
  apply (startUploadSession_sets_session demo_imports (scripted fresh_store)
           "root1" demo_machine (Resolved tt)).
  vm_compute. reflexivity.
Defined.

Lemma getFileDetails_outcome_witness :
  let m' := snd (exec (scripted fresh_store) (getFileDetails "data/aa" "root1")
                   demo_machine) in
  let url := FileDetailsUrl "10.0.0.1" "store1" "root1" "data/aa" in
  self m' = demo_server /\
  ((exists agent response,
      trace m' = trace demo_machine ++ agent_reads demo_server
                   ++ [EvRequest (axios_head url agent)] /\
      scripted fresh_store (trace demo_machine ++ agent_reads demo_server)
        (axios_head url agent) = Resolved response /\
      Resolved (false, Int 0)
        = Resolved
            (if is_true_header (response !! "x-file-exists")
             then (true, parseInt (response !! "x-file-size"))
             else (false, Int 0))) \/
   (exists e hist,
      Resolved (false, Int 0) = Rejected e /\
      trace m' = trace demo_machine ++ hist
                   ++ [EvUi (console_error ("✖ Error checking file details for "
                               +:+ "data/aa" +:+ ": " +:+ message e))] /\
      length hist <= 3)).
Proof.
  apply (getFileDetails_outcome (scripted fresh_store) "data/aa" "root1"
           demo_machine (Resolved (false, Int 0))).
  vm_compute. reflexivity.
Defined.

Lemma fetchFile_returns_body_witness :
  let m' := snd (exec (scripted fresh_store) (fetchFile "root1.dat") demo_machine) in
  let url := FetchUrl "10.0.0.1" "store1" "root1.dat" in
  self m' = demo_server /\
  exists agent headers stream total,
    scripted fresh_store (trace demo_machine ++ agent_reads demo_server)
      (axios_get_stream url agent) = Resolved (headers, stream) /\
    totalLength_of (headers !! "content-length") = Some total /\
    falsy_number (Some total) = false /\
    let get := [EvRequest (axios_get_stream url agent);
                EvUi (progressBar_start total (formatFilename (Some "root1.dat") 30))] in
    scripted fresh_store (trace demo_machine ++ agent_reads demo_server ++ get)
      (stream_collect stream) = Resolved demo_manifest /\
    trace m' = trace demo_machine ++ agent_reads demo_server ++ get
                 ++ [EvRequest (stream_collect stream); EvUi progressBar_stop].
Proof.
  apply (fetchFile_returns_body (scripted fresh_store) "root1.dat" demo_machine
           demo_manifest).
  vm_compute. reflexivity.
Defined.

Lemma downloadFile_writes_under_store_path_witness :
  let m' := snd (exec (scripted fresh_store) (downloadFile demo_imports "file1" "data/aa")
                   demo_machine) in
  let url := FetchUrl "10.0.0.1" "store1" "data/aa" in
  let downloadPath :=
    path_join demo_imports [STORE_PATH demo_imports; "store1"; "data/aa"] in
  self m' = demo_server /\
  exists agent headers stream total,
    totalLength_of (headers !! "content-length") = Some total /\
    falsy_number (Some total) = false /\
    let before :=
      EvRequest (fs_mkdirSync_recursive (path_dirname demo_imports downloadPath))
        :: agent_reads demo_server in
    scripted fresh_store (trace demo_machine ++ before) (axios_get_stream url agent)
      = Resolved (headers, stream) /\
    trace m' = trace demo_machine ++ before
                 ++ [EvRequest (axios_get_stream url agent);
                     EvUi (progressBar_start total (formatFilename (Some "file1") 30));
                     EvRequest (stream_to_file stream downloadPath);
                     EvUi progressBar_stop].
Proof.
  apply (downloadFile_writes_under_store_path demo_imports (scripted fresh_store)
           "file1" "data/aa" demo_machine).
  vm_compute. reflexivity.
Defined.

Lemma commitUploadSession_returns_reply_witness :
  let m' := snd (exec (scripted fresh_store) commitUploadSession demo_machine) in
  let o := demo_server in
  self m' = o /\
  exists agent,
    let post :=
      axios_post_commit (CommitUrl (ipAddress o) (storeId o) (sessionId o)) agent
        (basic_auth o) in
    let spin :=
      EvUi (spinner_start ("Committing upload session for store "
                             +:+ storeId o +:+ "...")) in
    scripted fresh_store (trace demo_machine ++ spin :: agent_reads o) post
      = Resolved "committed" /\
    trace m' = trace demo_machine ++ spin :: agent_reads o
                 ++ [EvRequest post;
                     EvUi (spinner_success ("Upload session " +:+ sessionId o
                                              +:+ " successfully committed."))].
Proof.
  apply (commitUploadSession_returns_reply (scripted fresh_store) demo_machine
           "committed").
  vm_compute. reflexivity.
Defined.

Lemma initializeWallet_outcome_witness :
  self (snd (exec (scripted fresh_store) initializeWallet boot))
  = assign F_publicKey "a1b2" (assign F_wallet "wallet" blank).
Proof.
  exact (proj2 (initializeWallet_outcome (scripted fresh_store) boot (Resolved tt)
                  (snd (exec (scripted fresh_store) initializeWallet boot)) eq_refl)).
Defined.

Lemma checkStoreExists_reads_headers_witness :
  let m' := snd (exec (scripted fresh_store) (checkStoreExists (Some "root1"))
                   demo_machine) in
  let o := demo_server in
  let spin := EvUi (spinner_start ("Checking if store " +:+ storeId o +:+ " exists...")) in
  self m' = o /\
  ((exists agent response,
      scripted fresh_store (trace demo_machine ++ spin :: agent_reads o)
        (axios_head (StoreUrl (ipAddress o) (storeId o) (Some "root1")) agent)
        = Resolved response /\
      Resolved (false, false)
        = Resolved (is_true_header (response !! "x-store-exists"),
                    is_true_header (response !! "x-has-root-hash")) /\
      exists done,
        trace m' = trace demo_machine ++ spin :: agent_reads o
                     ++ [EvRequest (axios_head (StoreUrl (ipAddress o) (storeId o)
                                                  (Some "root1")) agent);
                         EvUi done]) \/
   (exists e hist,
      Resolved (false, false) = Rejected e /\
      trace m' = trace demo_machine ++ hist
                   ++ [EvUi (spinner_error "Error checking if store exists:");
                       EvUi (console_error (message e))])).
Proof.
  apply (checkStoreExists_reads_headers (scripted fresh_store) (Some "root1")
           demo_machine (Resolved (false, false))).
  vm_compute. reflexivity.
Defined.

(** ** What a successful upload has done *)

Section Success.

Context (imports : Imports) (W : World).
Context (storeId0 rootHash ipAddress0 : string).

Lemma quiet_counts (l : list Event) :
  Forall quiet l ->
  count is_session_start l = 0 /\ count is_commit l = 0 /\
  Forall (fun e => is_task_failure e = false) l.
Proof.
  intros H. repeat split.
  1,2: apply count_none.
  all: eapply Forall_impl; [exact H |]; unfold quiet; intros e He; tauto.
Qed.

Lemma frozen_counts (o : PropagationServer) (l : list Event) :
  Forall (frozen o) l ->
  count is_session_start l = 0 /\ Forall (fun e => is_task_failure e = false) l.
Proof.
  intros H. split; [apply count_none |].
  all: eapply Forall_impl; [exact H |]; intros e He; apply frozen_quiet in He; tauto.
Qed.

(** X26. What success means: when [uploadStore] returns normally, the
    probe went through, and either it found the root hash on the peer and
    the run posted no session start and no commit, or it did not and the
    run posted exactly one session start and exactly one commit; in both
    cases no transfer task of the run ended in failure. *)
Theorem uploadStore_success (schedule : list Choice) (m0 m : Machine) :
  uploadStore imports W storeId0 rootHash ipAddress0 schedule m0
    = Some (Resolved tt, m) ->
  exists storeExists rootHashExists m1 new,
    probe_phase W storeId0 rootHash ipAddress0 m0
      = Some (Resolved (storeExists, rootHashExists), m1) /\
    trace m = trace m0 ++ new /\
    count is_session_start new = (if rootHashExists then 0 else 1) /\
    count is_commit new = (if rootHashExists then 0 else 1) /\
    Forall (fun e => is_task_failure e = false) new.
Proof.
  intros Hrun. apply uploadStore_run in Hrun.
  destruct Hrun as [setup e _ Hres _ _ _
                   | setup m1 rhx e _ _ _ Hres _ _
                   | setup m1 se creds m2 Hp [Ht1 Hn1 _ _ _] Hcd _ Ht Hs
                   | setup m1 se creds m2 Hp [Ht1 Hn1 _ _ _] Hcd Hto];
    try discriminate.
  - pose proof Hcd as [Ht2 _].
    exists se, true, m1, (setup ++ creds ++ [skipping_log rootHash]).
    split; [done |]. split; [by rewrite Ht, Ht2, Ht1, <- !app_assoc |].
    assert (Hall : Forall quiet (setup ++ creds ++ [skipping_log rootHash])).
    { apply Forall_app. split; [by apply setup_quiet |].
      apply Forall_app. split; [by eapply credentials_quiet |].
      by repeat constructor. }
    apply quiet_counts in Hall. tauto.
  - pose proof Hcd as [Ht2 _].
    assert (Hpre : Forall quiet (setup ++ creds)).
    { apply Forall_app. split; [by apply setup_quiet | by eapply credentials_quiet]. }
    destruct Hto as [start e Hres _ _ _ _
                    | hist agent sid done e _ Hres _ _
                    | hist agent sid done files evs e _ _ _ _ Hres _ _
                    | hist agent sid done files evs entry rest
                        [Hev Hqu Hrep Hdone] Hfiles [Hpe Hpk Hpend] Hok Hentry Hfz
                        Hne Hc1 Hc Ht _];
      try discriminate.
    assert (Hh : Forall quiet hist) by (by eapply start_quiet).
    destruct (quiet_counts _ Hpre) as (Hp1 & Hp2 & Hp3).
    destruct (quiet_counts _ Hh) as (Hh1 & Hh2 & Hh3).
    destruct (frozen_counts _ _ Hfz) as (Hf1 & Hf3).
    assert (He1 : count is_session_start evs = 0).
    { apply count_none. eapply Forall_impl; [exact Hpe |].
      intros x Hx. eapply task_event_facts in Hx. tauto. }
    assert (He2 : count is_commit evs = 0).
    { apply count_none. eapply Forall_impl; [exact Hpe |].
      intros x [(_ & Hx & _) | Hx]; [done |]. apply task_mark_quiet in Hx. tauto. }
    assert (Hentry2 : is_commit entry = false).
    { by destruct entry. }
    exists se, false, m1,
      ((setup ++ creds) ++ hist ++ session_events imports rootHash m2 agent sid done
         ++ [files_request storeId0 rootHash; EvPool 3 (length files)]
         ++ evs ++ entry :: rest).
    split; [done |].
    split; [by rewrite Ht, Ht2, Ht1, <- !app_assoc |].
    split; [| split].
    + rewrite (count_app _ (setup ++ creds)), Hp1, !count_app, Hh1, He1, Hf1.
      reflexivity.
    + rewrite (count_app _ (setup ++ creds)), Hp2, !count_app, Hh2, He2.
      change (count is_commit (entry :: rest))
        with ((if is_commit entry then 1 else 0) + count is_commit rest).
      rewrite Hentry2, (Hc eq_refl). reflexivity.
    + apply Forall_app. split; [done |]. apply Forall_app. split; [done |].
      apply Forall_app. split; [by repeat constructor |].
      apply Forall_app. split; [by repeat constructor |].
      apply Forall_app. split; done.
Qed.

End Success.

Lemma uploadStore_success_witness :
  exists m,
    uploadStore demo_imports (scripted new_store_known_files) "store1" "root1" "10.0.0.1"
      two_at_once boot = Some (Resolved tt, m) /\
    exists storeExists rootHashExists m1 new,
      probe_phase (scripted new_store_known_files) "store1" "root1" "10.0.0.1" boot
        = Some (Resolved (storeExists, rootHashExists), m1) /\
      trace m = trace boot ++ new /\
      count is_session_start new = (if rootHashExists then 0 else 1) /\
      count is_commit new = (if rootHashExists then 0 else 1) /\
      Forall (fun e => is_task_failure e = false) new.
Proof.
  eexists. split; [vm_compute; reflexivity |].
  eapply (uploadStore_success demo_imports (scripted new_store_known_files)
            "store1" "root1" "10.0.0.1" two_at_once boot).
  vm_compute. reflexivity.
Defined.

(** * The claims on whole operations *)

Section StoreClaims.

Context (imports : Imports) (W : World).
Context (storeId0 rootHash ipAddress0 : string).


(** C4. Credentialed creation: when the probe reports that the store does
    not exist, any run of [uploadStore] logs and then invokes the
    credential prompt right after the probe and never again, no session
    start or commit being posted before it; if the prompt rejects nothing
    follows it; otherwise every session-start and commit POST of the run
    carries the credentials the prompt returned when both the username
    and the password are non-empty strings, and no credentials at all when
    either of them is empty. *)
Theorem uploadStore_credentialed_creation (schedule : list Choice)
    (m0 m1 : Machine) (rhx : bool) res m :
  probe_phase W storeId0 rootHash ipAddress0 m0 = Some (Resolved (false, rhx), m1) ->
  uploadStore imports W storeId0 rootHash ipAddress0 schedule m0 = Some (res, m) ->
  exists setup after,
    trace m1 = trace m0 ++ setup /\
    trace m = trace m1 ++ prompting_log storeId0 :: prompt_request ipAddress0 :: after /\
    Forall (fun e => is_prompt e = false /\ is_session_start e = false /\
                     is_commit e = false) setup /\
    Forall (fun e => is_prompt e = false) after /\
    (forall e,
       W (trace m1 ++ [prompting_log storeId0]) (promptCredentials ipAddress0)
         = Rejected e -> after = []) /\
    forall c,
      W (trace m1 ++ [prompting_log storeId0]) (promptCredentials ipAddress0)
        = Resolved c ->
      Forall (fun e => forall a, auth_of e = Some a -> a = credentials_sent c) after /\
      (cred_username c <> "" -> cred_password c <> "" ->
       credentials_sent c = Some c) /\
      (cred_username c = "" \/ cred_password c = "" -> credentials_sent c = None).
Proof. intros Hp Hrun. by eapply credentials_shape. Qed.

(** C6. Download precondition: the probe of [downloadStore] sends no GET,
    writes no file and opens no pool; when it reports that the store or
    the root hash is missing, the run ends right there, in the state the
    probe left, with the error "Store <storeId> does not exist."; when it
    reports both, the run goes on to fetch the manifest, and a failure of
    that fetch is the failure of the run. *)
Theorem downloadStore_precondition (schedule : list Choice)
    (m0 m1 : Machine) (storeExists rootHashExists : bool) res m :
  probe_phase W storeId0 rootHash ipAddress0 m0
    = Some (Resolved (storeExists, rootHashExists), m1) ->
  downloadStore imports W storeId0 rootHash ipAddress0 schedule m0 = Some (res, m) ->
  (exists setup,
     trace m1 = trace m0 ++ setup /\
     Forall (fun e => is_get e = false /\ is_file_write e = false /\
                      is_pool_event e = false) setup) /\
  (storeExists && rootHashExists = false ->
   res = Rejected (Error ("Store " +:+ storeId0 +:+ " does not exist.")) /\
   m = m1) /\
  (storeExists && rootHashExists = true ->
   exists out m2 rest,
     exec W (fetchFile (rootHash +:+ ".dat")) m1 = (out, m2) /\
     trace m = trace m2 ++ rest /\
     forall e, out = Rejected e -> res = Rejected e /\ m = m2).
Proof.
  intros Hp Hrun. split; [| split].
  - destruct (probe_phase_facts W _ _ _ _ _ _ Hp) as (_ & setup & Ht & Hs & _).
    exists setup. split; [done |].
    eapply Forall_impl; [exact Hs |]. intros e He.
    apply setup_event_facts in He. tauto.
  - intros Hb. rewrite downloadStore_phases, Hp in Hrun. cbn [fst snd] in Hrun.
    destruct storeExists, rootHashExists; try discriminate;
      simpl in Hrun; by injection Hrun as <- <-.
  - intros Hb. apply downloadStore_run in Hrun.
    destruct Hrun as [setup e Hp' _ _ _
                     | setup se rhx Hp' Hb' _ _ _
                     | setup m1' fetch e Hp' _ Hf Hres _ _
                     | setup m1' m2 fetch content entries evs e Hp' _
                         [Hf Ht2 _ _] _ _ _ Ht
                     | setup m1' m2 fetch content entries evs tail Hp' _
                         [Hf Ht2 _ _] _ _ Ht _ _ _];
      rewrite Hp in Hp'; try discriminate.
    + injection Hp' as -> -> <-. congruence.
    + injection Hp' as _ _ <-.
      destruct Hf as [Hf | (content & Hf & _)].
      * exists (Rejected e), m, []. rewrite app_nil_r.
        split; [done |]. split; [done |]. intros e' He'. by injection He' as <-.
      * exists (Resolved content), m, []. rewrite app_nil_r.
        split; [done |]. split; [done |]. intros e' He'. discriminate.
    + injection Hp' as _ _ <-.
      exists (Resolved content), m2, (EvPool 5 (length entries) :: evs).
      split; [done |]. split; [done |]. intros e' He'. discriminate.
    + injection Hp' as _ _ <-.
      exists (Resolved content), m2,
        (EvPool 5 (length entries) :: evs
           ++ dat_write imports storeId0 rootHash content :: tail).
      split; [done |]. split; [done |]. intros e' He'. discriminate.
Qed.

(** C8. Concurrency bound: over the events of any run of [uploadStore],
    under any schedule and whatever the file set, the number of transfer
    tasks that have started and not yet ended never exceeds 3, and over
    the events of any run of [downloadStore] it never exceeds 5. *)
Theorem transfers_in_flight_are_bounded (schedule : list Choice) (m0 : Machine) :
  (forall res m,
     uploadStore imports W storeId0 rootHash ipAddress0 schedule m0 = Some (res, m) ->
     exists new, trace m = trace m0 ++ new /\ peak_ok 3 new) /\
  (forall res m,
     downloadStore imports W storeId0 rootHash ipAddress0 schedule m0 = Some (res, m) ->
     exists new, trace m = trace m0 ++ new /\ peak_ok 5 new).
Proof.
  split; intros res m Hrun.
  - by eapply upload_peak.
  - by eapply download_peak.
Qed.


End StoreClaims.

(** A store the peer does not have yet, and an operator who leaves the
    password empty at the prompt. *)
Definition empty_password : Scenario := {|
  store_exists_header := Some "false";
  has_root_hash_header := Some "false";
  prompt_reply := Resolved {| cred_username := "alice"; cred_password := EmptyString |};
  file_exists_header := fun _ => Some "true";
  put_reply := fun _ => Resolved tt;
  content_length_header := Some "20";
  local_files := [ {| name := "file1"; path := "data/aa" |};
                   {| name := "file2"; path := "data/bb" |} ];
|}.


Lemma uploadStore_credentialed_creation_witness :
  exists res m,
    uploadStore demo_imports (scripted new_store_known_files) "store1" "root1" "10.0.0.1"
      two_at_once boot = Some (res, m) /\
    exists setup after,
      trace (demo_probed false) = trace boot ++ setup /\
      trace m = trace (demo_probed false)
                ++ prompting_log "store1" :: prompt_request "10.0.0.1" :: after /\
      Forall (fun e => is_prompt e = false /\ is_session_start e = false /\
                       is_commit e = false) setup /\
      Forall (fun e => is_prompt e = false) after /\
      (forall e,
         scripted new_store_known_files (trace (demo_probed false) ++ [prompting_log "store1"])
           (promptCredentials "10.0.0.1") = Rejected e -> after = []) /\
      forall c,
        scripted new_store_known_files (trace (demo_probed false) ++ [prompting_log "store1"])
          (promptCredentials "10.0.0.1") = Resolved c ->
        Forall (fun e => forall a, auth_of e = Some a -> a = credentials_sent c) after /\
        (cred_username c <> "" -> cred_password c <> "" ->
         credentials_sent c = Some c) /\
        (cred_username c = "" \/ cred_password c = "" -> credentials_sent c = None).
Proof.
  eexists _, _. split; [vm_compute; reflexivity |].
  eapply (uploadStore_credentialed_creation demo_imports (scripted new_store_known_files)
           "store1" "root1" "10.0.0.1" two_at_once boot (demo_probed false) false);
    vm_compute; reflexivity.
Defined.

(** C4, as the spec has it, fails: the probe reports that the store does
    not exist, the operator enters a user name and an empty password, and
    [uploadStore], which returns normally after one prompt, posts the
    session start and the commit without any credentials. *)
Lemma uploadStore_empty_password_sends_no_credentials :
  probe_phase (scripted empty_password) "store1" "root1" "10.0.0.1" boot
  = Some (Resolved (false, false), demo_probed false) /\
  scripted empty_password (trace (demo_probed false) ++ [prompting_log "store1"])
    (promptCredentials "10.0.0.1")
  = Resolved {| cred_username := "alice"; cred_password := EmptyString |} /\
  exists m,
    uploadStore demo_imports (scripted empty_password)
      "store1" "root1" "10.0.0.1" two_at_once boot = Some (Resolved tt, m) /\
    count is_prompt (trace m) = 1 /\
    Exists (fun e => is_session_start e = true /\ auth_of e = Some None) (trace m) /\
    Exists (fun e => is_commit e = true /\ auth_of e = Some None) (trace m).
Proof.
  split; [vm_compute; reflexivity |]. split; [vm_compute; reflexivity |].
  eexists. split; [vm_compute; reflexivity |].
  split; [vm_compute; reflexivity |].
  cbn [trace].
  split;
    repeat (first [by apply Exists_cons_hd | apply Exists_cons_tl]).
Qed.

Lemma downloadStore_precondition_witness :
  exists res m,
    downloadStore demo_imports (scripted root_hash_without_store)
      "store1" "root1" "10.0.0.1" two_at_once boot = Some (res, m) /\
    (exists setup,
       trace (demo_probed false) = trace boot ++ setup /\
       Forall (fun e => is_get e = false /\ is_file_write e = false /\
                        is_pool_event e = false) setup) /\
    (false && true = false ->
     res = Rejected (Error ("Store " +:+ "store1" +:+ " does not exist.")) /\
     m = demo_probed false) /\
    (false && true = true ->
     exists out m2 rest,
       exec (scripted root_hash_without_store) (fetchFile ("root1" +:+ ".dat"))
         (demo_probed false) = (out, m2) /\
       trace m = trace m2 ++ rest /\
       forall e, out = Rejected e -> res = Rejected e /\ m = m2).
Proof.
  eexists _, _. split; [vm_compute; reflexivity |].
  eapply (downloadStore_precondition demo_imports (scripted root_hash_without_store)
            "store1" "root1" "10.0.0.1" two_at_once boot (demo_probed false)
            false true);
    vm_compute; reflexivity.
Defined.

Lemma transfers_in_flight_are_bounded_witness :
  (exists res m,
     uploadStore demo_imports (scripted new_store_known_files) "store1" "root1"
       "10.0.0.1" two_at_once boot = Some (res, m) /\
     exists new, trace m = trace boot ++ new /\ peak_ok 3 new) /\
  (exists res m,
     downloadStore demo_imports (scripted replicated) "store1" "root1"
       "10.0.0.1" two_at_once boot = Some (res, m) /\
     exists new, trace m = trace boot ++ new /\ peak_ok 5 new).
Proof.
  split; eexists _, _.
  - split; [vm_compute; reflexivity |].
    eapply (proj1 (transfers_in_flight_are_bounded demo_imports
                     (scripted new_store_known_files) "store1" "root1" "10.0.0.1"
                     two_at_once boot));
      vm_compute; reflexivity.
  - split; [vm_compute; reflexivity |].
    eapply (proj2 (transfers_in_flight_are_bounded demo_imports
                     (scripted replicated) "store1" "root1" "10.0.0.1"
                     two_at_once boot));
      vm_compute; reflexivity.
Defined.

